(** * News-classifier serving layer: cache, logger, orchestrator, batch evaluator

    A shallow embedding of the request-serving core of the repository:

    - [src/database/redis_client.py]   (modules [RedisCache], [RedisCacheSync])
    - [src/database/postgres_client.py] (module [PostgresLogger])
    - [src/models/bert_model.py]        (modules [BERT], [Classifier])
    - [src/api/main.py]                 (modules [Api], [Service])
    - [src/api/routes/batch_predict.py] (module [Batch])

    Python code is embedded in a state-and-exception monad over a [World]
    that holds everything outside the process: the key-value store, the
    relational table, the behaviour of the two servers on each network
    round trip, the wall clock, the durations passed to [asyncio.sleep]
    and the tasks handed to [asyncio.create_task].

    Conventions of the embedding:

    - an instance ([self]) is a record; a method that assigns to [self]
      returns the new record, the others only read it;
    - every call on a client or connection is one round trip, and the
      world's [oracle] says what the server does with it: serve it, answer
      with a falsy reply and no effect, leave it unanswered until the
      timeout, or make the client library raise;
    - entries of the key-value store keep the TTL they were written with;
      the passing of time (expiry) is not modelled;
    - calls to [logger] have no influence on results or control flow and
      are left out, except where formatting the message can raise (the
      debug message of [log_prediction]); connection URLs and credentials
      are well formed;
    - Python floats are idealised as rationals; [len] of a string counts
      the characters of the embedding's strings;
    - where the code awaits a library call whose effect lies outside the
      stores (closing a client, a forward pass of the network, reading a
      file), the outcome of that call is an argument of the embedded
      function;
    - [hashlib], [json], [datetime] and [float] on a string are library
      functions taken as given (class [Externals]); [sklearn.metrics] and
      the field
      validation of the response models are written out from their
      documented meaning;
    - the [table] of the world lists the records the INSERT statements
      carried, with the values as they were sent: what the column types
      of the server make of them (the [NUMERIC] columns round) is not
      modelled. *)

From stdpp Require Import base option list gmap strings pretty sorting.
From Stdlib Require Import ZArith QArith Lia Ascii.
From Stdlib Require OrderedTypeEx.
From Equations Require Import Equations.

Set Warnings "-register-all".

Open Scope string_scope.
Open Scope Z_scope.

(** ** Python values and exceptions *)

(** The exception classes the embedded code raises or discriminates on. *)
Inductive exn : Type :=
| TimeoutError                      (* asyncio.TimeoutError *)
| JSONDecodeError                   (* json.JSONDecodeError *)
| KeyError (key : string)
| IndexError
| AttributeError (name : string)
| TypeError
| ValueError (msg : string)
| ValidationError                   (* pydantic *)
| ConnectionError (msg : string)
| BackendError (msg : string)       (* raised by the redis / asyncpg client *)
| InferenceError (msg : string)     (* raised inside tokenizer or network *)
| HTTPException (status : Z) (detail : string).

(** [str(e)] as used in [HTTPException(detail=str(e))]. *)
Definition exn_str (e : exn) : string :=
  match e with
  | TimeoutError => ""
  | JSONDecodeError => "JSONDecodeError"
  | KeyError k => "'" +:+ k +:+ "'"
  | IndexError => "list index out of range"
  | AttributeError n => "object has no attribute '" +:+ n +:+ "'"
  | TypeError => "TypeError"
  | ValueError m => m
  | ValidationError => "validation error"
  | ConnectionError m => m
  | BackendError m => m
  | InferenceError m => m
  | HTTPException c d => pretty c +:+ ": " +:+ d
  end.

Inductive result (A : Type) : Type :=
| Ok (a : A)
| Raise (e : exn).
Arguments Ok {A} a.
Arguments Raise {A} e.

(** JSON-shaped Python values.  A [dict] keeps insertion order. *)
Inductive pyval : Type :=
| PNone
| PBool (b : bool)
| PInt (n : Z)
| PFloat (q : Q)
| PStr (s : string)
| PList (l : list pyval)
| PDict (d : list (string * pyval)).

Fixpoint dict_get (k : string) (d : list (string * pyval)) : option pyval :=
  match d with
  | [] => None
  | (k', v) :: d' => if String.eqb k k' then Some v else dict_get k d'
  end.

(** [d[k] = v]: overwrite in place, or append. *)
Fixpoint dict_set (k : string) (v : pyval) (d : list (string * pyval))
  : list (string * pyval) :=
  match d with
  | [] => [(k, v)]
  | (k', v') :: d' =>
      if String.eqb k k' then (k, v) :: d' else (k', v') :: dict_set k v d'
  end.

(** [v[k]] *)
Definition py_getitem (v : pyval) (k : string) : result pyval :=
  match v with
  | PDict d =>
      match dict_get k d with
      | Some x => Ok x
      | None => Raise (KeyError k)
      end
  | _ => Raise TypeError
  end.

(** Truth value testing. *)
Definition truthy (v : pyval) : bool :=
  match v with
  | PNone => false
  | PBool b => b
  | PInt n => negb (n =? 0)
  | PFloat q => negb (Qeq_bool q 0)
  | PStr s => negb (String.eqb s "")
  | PList l => match l with [] => false | _ => true end
  | PDict d => match d with [] => false | _ => true end
  end.

Definition str_truthy (s : string) : bool := negb (String.eqb s "").

(** ** The world outside the process *)

(** What a server does with one network round trip. *)
Inductive reply : Type :=
| Served                 (* performs the command, positive reply *)
| Nak                    (* falsy / negative reply, no effect *)
| TimedOut               (* no reply within the timeout *)
| Failed (msg : string). (* the client library raises *)

Inductive request : Type :=
| ReqRedisPing
| ReqRedisGet (key : string)
| ReqRedisSetex (key : string) (ttl : Z) (value : string)
| ReqRedisDelete (key : string)
| ReqRedisFlushdb
| ReqPgCreatePool
| ReqPgSelectNow
| ReqPgDDL (statement : nat)
| ReqPgInsert
| ReqPgStats (hours : Z).

(** One row of the [predictions] table (the columns the code fills in),
    with the values as the INSERT sends them. *)
Record LogRecord : Type := mkLogRecord {
  text_hash : string;
  text_preview : string;
  predicted_topic : string;
  lr_confidence : Q;
  lr_latency_ms : Q;
  ip_address : option string;
  user_agent : option string;
  model_version : string;
  lr_cached : bool
}.

(** One row of the aggregate query of [get_stats]; SQL NULL is [None]. *)
Record StatRow : Type := mkStatRow {
  row_topic : string;
  row_count : Z;
  row_avg_confidence : option Q;
  row_avg_latency : option Q;
  row_min_confidence : option Q;
  row_max_confidence : option Q;
  row_p95_latency : option Q
}.

(** Coroutines passed to [asyncio.create_task]; arguments are evaluated
    at the call, the body runs later. *)
Inductive task : Type :=
| TaskCacheSet (text : string) (prediction : pyval)
| TaskLogPrediction (text : string) (prediction confidence : pyval)
    (latency_ms : Q) (version : string) (cached : bool).

Record World : Type := mkWorld {
  store : gmap string (Z * string);        (* redis: key -> (ttl, payload) *)
  table : list LogRecord;                  (* postgres: predictions *)
  aggregate : Z -> list StatRow;           (* answer of the stats query *)
  oracle : nat -> request -> reply;        (* behaviour on the n-th round trip *)
  calls : nat;                             (* round trips so far *)
  clock : nat -> Q;                        (* successive time.time() readings *)
  reads : nat;
  slept : list Z;                          (* asyncio.sleep arguments, oldest first *)
  tasks : list task                        (* created tasks, oldest first *)
}.

(** ** State-and-exception monad *)

Definition M (A : Type) : Type := World -> result A * World.

Definition ret {A} (a : A) : M A := fun w => (Ok a, w).
Definition raise {A} (e : exn) : M A := fun w => (Raise e, w).
Definition bind {A B} (m : M A) (f : A -> M B) : M B :=
  fun w => match m w with
           | (Ok a, w') => f a w'
           | (Raise e, w') => (Raise e, w')
           end.
Definition lift {A} (r : result A) : M A := fun w => (r, w).

(** [try: body except ...: handler] *)
Definition try_except {A} (body : M A) (handler : exn -> M A) : M A :=
  fun w => match body w with
           | (Ok a, w') => (Ok a, w')
           | (Raise e, w') => handler e w'
           end.

Declare Scope py_scope.
Delimit Scope py_scope with py.
Notation "x <- m ;; k" := (bind m (fun x => k))
  (at level 100, m at level 99, k at level 100, right associativity) : py_scope.
Notation "m ;;; k" := (bind m (fun _ => k))
  (at level 100, k at level 100, right associativity) : py_scope.
Open Scope py_scope.

Definition gets {A} (f : World -> A) : M A := fun w => (Ok (f w), w).
Definition modify (f : World -> World) : M unit := fun w => (Ok tt, f w).

Definition set_store (s : gmap string (Z * string)) (w : World) : World :=
  mkWorld s (table w) (aggregate w) (oracle w) (calls w) (clock w) (reads w)
          (slept w) (tasks w).
Definition set_table (t : list LogRecord) (w : World) : World :=
  mkWorld (store w) t (aggregate w) (oracle w) (calls w) (clock w) (reads w)
          (slept w) (tasks w).
Definition set_calls (n : nat) (w : World) : World :=
  mkWorld (store w) (table w) (aggregate w) (oracle w) n (clock w) (reads w)
          (slept w) (tasks w).
Definition set_reads (n : nat) (w : World) : World :=
  mkWorld (store w) (table w) (aggregate w) (oracle w) (calls w) (clock w) n
          (slept w) (tasks w).
Definition set_slept (l : list Z) (w : World) : World :=
  mkWorld (store w) (table w) (aggregate w) (oracle w) (calls w) (clock w)
          (reads w) l (tasks w).
Definition set_tasks (l : list task) (w : World) : World :=
  mkWorld (store w) (table w) (aggregate w) (oracle w) (calls w) (clock w)
          (reads w) (slept w) l.

(** One network round trip: ask the oracle, count the call. *)
Definition round_trip (rq : request) : M reply :=
  fun w => (Ok (oracle w (calls w) rq), set_calls (S (calls w)) w).

(** [time.time()] *)
Definition time_time : M Q :=
  fun w => (Ok (clock w (reads w)), set_reads (S (reads w)) w).

(** [await asyncio.sleep(d)] *)
Definition asyncio_sleep (d : Z) : M unit :=
  modify (fun w => set_slept (slept w ++ [d]) w).

(** [asyncio.create_task(c)] *)
Definition create_task (t : task) : M unit :=
  modify (fun w => set_tasks (tasks w ++ [t]) w).

(** ** Library functions the code calls

    [hashlib.sha256(..).hexdigest()], [json.dumps], [json.loads] and
    [float] on a string belong to the Python standard library; the
    embedding takes them as given.  [json.loads] may raise any exception:
    [JSONDecodeError] on malformed text, and also [UnicodeDecodeError] (a
    [ValueError]) on bytes that are not UTF-8. *)
Class Externals : Type := {
  sha256_hexdigest : string -> string;
  json_dumps : pyval -> result string;
  json_loads : string -> result pyval;
  isoformat : Q -> string;           (* datetime.utcnow().isoformat() *)
  float_of_str : string -> result Q  (* float(s), s a str *)
}.

(** ** src/database/redis_client.py *)

Module RedisCache.

Inductive handle : Type := Handle.

Record t : Type := mk {
  redis_url : string;
  ttl : Z;
  socket_timeout : Z;
  retry_on_failure : bool;
  max_connections : Z;
  connection_pool : option handle;
  client : option handle;
  _connected : bool;
  _connection_attempts : Z;
  _max_retry_attempts : Z
}.

(** [__init__] with its defaults for the optional arguments. *)
Definition init (url : string) (ttl_ : Z) (max_conn : Z) : t :=
  mk url ttl_ 5 true max_conn None None false 0 3.

Definition with_client (self : t) : t :=
  mk (redis_url self) (ttl self) (socket_timeout self) (retry_on_failure self)
     (max_connections self) (Some Handle) (Some Handle)
     (_connected self) (_connection_attempts self) (_max_retry_attempts self).

Definition with_status (connected : bool) (attempts : Z) (self : t) : t :=
  mk (redis_url self) (ttl self) (socket_timeout self) (retry_on_failure self)
     (max_connections self) (connection_pool self) (client self)
     connected attempts (_max_retry_attempts self).

(** *** Client commands: one round trip each *)

Definition client_ping : M bool :=
  r <- round_trip ReqRedisPing ;;
  match r with
  | Served => ret true
  | Nak => ret false
  | TimedOut => raise TimeoutError
  | Failed m => raise (BackendError m)
  end.

(** [client.get(key)]: the payload, or [None]. *)
Definition client_get (key : string) : M (option string) :=
  r <- round_trip (ReqRedisGet key) ;;
  match r with
  | Served => s <- gets store ;; ret (snd <$> s !! key)
  | Nak => ret None
  | TimedOut => raise TimeoutError
  | Failed m => raise (BackendError m)
  end.

Definition client_setex (key : string) (ttl_ : Z) (value : string) : M bool :=
  r <- round_trip (ReqRedisSetex key ttl_ value) ;;
  match r with
  | Served => modify (fun w => set_store (<[key := (ttl_, value)]> (store w)) w) ;;;
              ret true
  | Nak => ret false
  | TimedOut => raise TimeoutError
  | Failed m => raise (BackendError m)
  end.

Definition client_delete (key : string) : M Z :=
  r <- round_trip (ReqRedisDelete key) ;;
  match r with
  | Served =>
      s <- gets store ;;
      modify (set_store (delete key s)) ;;;
      ret (match s !! key with Some _ => 1 | None => 0 end)
  | Nak => ret 0
  | TimedOut => raise TimeoutError
  | Failed m => raise (BackendError m)
  end.

Definition client_flushdb : M bool :=
  r <- round_trip ReqRedisFlushdb ;;
  match r with
  | Served => modify (set_store ∅) ;;; ret true
  | Nak => ret false
  | TimedOut => raise TimeoutError
  | Failed m => raise (BackendError m)
  end.

(** *** [connect] *)

(** The [try] block of [connect]: pool and client are assigned before
    the ping, the flags only after a truthy ping. *)
Definition connect_try (self : t) : M t :=
  let self1 := with_client self in
  ping <- client_ping ;;
  if ping then ret (with_status true 0 self1)
  else raise (ConnectionError "Redis ping failed").

Definition budget (self : t) : nat :=
  Z.to_nat (_max_retry_attempts self - _connection_attempts self).

(** [connect]: the [except] branch counts the attempt, sleeps
    [2 ** attempts] and calls [connect] again while fewer than
    [_max_retry_attempts] attempts were made. *)
Equations? connect (self : t) (w : World) : result (bool * t) * World
  by wf (budget self) lt :=
connect self w with connect_try self w => {
  | (Ok self', w1) => (Ok (true, self'), w1);
  | (Raise e, w1) with
      Z_lt_dec (_connection_attempts self + 1) (_max_retry_attempts self) => {
      | left Hlt =>
          let self2 :=
            with_status false (_connection_attempts self + 1) (with_client self) in
          let wait_time := 2 ^ (_connection_attempts self + 1) in
          connect self2 (snd (asyncio_sleep wait_time w1));
      | right _ =>
          (Ok (false,
               with_status false (_connection_attempts self + 1) (with_client self)),
           w1) } }.
Proof. unfold budget; simpl; lia. Qed.

(** *** Key derivation *)

Definition _generate_key `{Externals} (text : string) : string :=
  "pred:" +:+ String.substring 0 16 (sha256_hexdigest text).

Definition usable (self : t) : bool :=
  _connected self && bool_decide (client self ≠ None).

(** *** [get] *)
Definition get `{Externals} (self : t) (text : string) : M pyval :=
  if negb (usable self) then ret PNone
  else
    let key := _generate_key text in
    try_except
      (cached_json <- client_get key ;;
       match cached_json with
       | Some js =>
           if str_truthy js then lift (json_loads js) else ret PNone
       | None => ret PNone
       end)
      (fun e =>
         match e with
         | TimeoutError => ret PNone
         | JSONDecodeError =>
             try_except (client_delete key ;;; ret tt) (fun _ => ret tt) ;;;
             ret PNone
         | _ => ret PNone
         end).

(** *** [set] *)
Definition set `{Externals} (self : t) (text : string) (prediction : pyval)
  : M bool :=
  if negb (usable self) then ret true
  else
    try_except
      (let key := _generate_key text in
       json_str <- lift (json_dumps prediction) ;;
       success <- client_setex key (ttl self) json_str ;;
       if success then ret true else ret false)
      (fun e =>
         match e with
         | TimeoutError => ret true
         | JSONDecodeError => ret false
         | _ => ret true
         end).

(** *** [delete] *)
Definition delete `{Externals} (self : t) (text : string) : M bool :=
  if negb (usable self) then ret true
  else
    try_except
      (client_delete (_generate_key text) ;;; ret true)
      (fun _ => ret true).

(** *** [flush_all] *)
Definition flush_all (self : t) : M bool :=
  if negb (usable self) then ret false
  else try_except (client_flushdb ;;; ret true) (fun _ => ret false).

Definition is_connected (self : t) : bool := _connected self.

End RedisCache.

(** ** src/database/postgres_client.py *)

Module PostgresLogger.

Inductive handle : Type := Pool.

Record t : Type := mk {
  host : string;
  port : Z;
  database : string;
  user : string;
  password : string;
  timeout : Z;
  pool : option handle;
  min_size : Z;
  max_size : Z;
  _connected : bool;
  _connection_attempts : Z;
  _max_retry_attempts : Z
}.

Definition init (host_ database_ user_ password_ : string) (port_ : Z) : t :=
  mk host_ port_ database_ user_ password_ 10 None 2 10 false 0 3.

(** Names an instance answers to: the attributes assigned in [__init__]
    and the methods of the class. *)
Definition attribute_names : list string :=
  [ "config"; "pool"; "min_size"; "max_size"; "_connected";
    "_connection_attempts"; "_max_retry_attempts";
    "connect"; "_init_connection"; "_create_tables"; "_hash_text";
    "log_prediction"; "get_stats"; "get_low_confidence_predictions";
    "get_topic_accuracy"; "health_check"; "close"; "context" ].

Definition hasattr (self : t) (name : string) : bool :=
  bool_decide (name ∈ attribute_names).

(** [getattr(self, name) is not None] *)
Definition attr_is_not_none (self : t) (name : string) : result bool :=
  if String.eqb name "pool" then Ok (bool_decide (pool self ≠ None))
  else if hasattr self name then Ok true
  else Raise (AttributeError name).

Definition with_pool (self : t) : t :=
  mk (host self) (port self) (database self) (user self) (password self)
     (timeout self) (Some Pool) (min_size self) (max_size self)
     (_connected self) (_connection_attempts self) (_max_retry_attempts self).

Definition with_status (connected : bool) (attempts : Z) (self : t) : t :=
  mk (host self) (port self) (database self) (user self) (password self)
     (timeout self) (pool self) (min_size self) (max_size self)
     connected attempts (_max_retry_attempts self).

(** A statement sent to the server; the reply's payload is not used. *)
Definition pg_command (rq : request) : M bool :=
  r <- round_trip rq ;;
  match r with
  | Served => ret true
  | Nak => ret false
  | TimedOut => raise TimeoutError
  | Failed m => raise (BackendError m)
  end.

(** [_create_tables]: six DDL statements; an error is logged and re-raised. *)
Definition _create_tables (self : t) : M unit :=
  match pool self with
  | None => ret tt
  | Some _ =>
      try_except
        (pg_command (ReqPgDDL 0) ;;;   (* CREATE TABLE predictions *)
         pg_command (ReqPgDDL 1) ;;;   (* idx_predictions_timestamp *)
         pg_command (ReqPgDDL 2) ;;;   (* idx_predictions_topic *)
         pg_command (ReqPgDDL 3) ;;;   (* idx_predictions_confidence *)
         pg_command (ReqPgDDL 4) ;;;   (* idx_predictions_text_hash *)
         pg_command (ReqPgDDL 5) ;;;   (* CREATE TABLE prediction_stats_daily *)
         ret tt)
        (fun e => raise e)
  end.

(** The [try] block of [connect], with the instance as it stands when
    the block is left (normally or by an exception). *)
Definition connect_try (self : t) (w : World) : result bool * t * World :=
  match pg_command ReqPgCreatePool w with
  | (Raise e, w1) => (Raise e, self, w1)
  | (Ok _, w1) =>
      let self1 := with_pool self in
      match pg_command ReqPgSelectNow w1 with
      | (Raise e, w2) => (Raise e, self1, w2)
      | (Ok false, w2) =>
          (Raise (ConnectionError "PostgreSQL ping failed"), self1, w2)
      | (Ok true, w2) =>
          let self2 := with_status true 0 self1 in
          match _create_tables self2 w2 with
          | (Raise e, w3) => (Raise e, self2, w3)
          | (Ok _, w3) => (Ok true, self2, w3)
          end
      end
  end.

(** [connect].  The recursion of the source is not bounded by a measure
    on the instance (the [try] block can reset the attempt counter
    before it fails), so the embedding counts nested calls: [None]
    means the call is still running at depth [depth]. *)
Fixpoint connect (depth : nat) (self : t) (w : World)
  : option (result (bool * t) * World) :=
  match depth with
  | O => None
  | S depth' =>
      match connect_try self w with
      | (Ok b, self1, w1) => Some (Ok (b, self1), w1)
      | (Raise e, self1, w1) =>
          let self2 := with_status false (_connection_attempts self1 + 1) self1 in
          if _connection_attempts self2 <? _max_retry_attempts self2 then
            let wait_time := 2 ^ _connection_attempts self2 in
            connect depth' self2 (snd (asyncio_sleep wait_time w1))
          else Some (Ok (false, self2), w1)
      end
  end.

Definition _hash_text `{Externals} (text : string) : string :=
  sha256_hexdigest text.

(** [float(x)]: a number is converted, a string is parsed. *)
Definition py_float `{Externals} (v : pyval) : result Q :=
  match v with
  | PFloat q => Ok q
  | PInt n => Ok (inject_Z n)
  | PBool b => Ok (if b then 1%Q else 0%Q)
  | PStr s => float_of_str s
  | _ => Raise TypeError
  end.

(** [f"{x:.1%}"]: the percent format is defined on numbers only. *)
Definition format_percent (v : pyval) : result unit :=
  match v with
  | PFloat _ | PInt _ | PBool _ => Ok tt
  | PStr _ => Raise (ValueError "Unknown format code '%' for object of type 'str'")
  | _ => Raise TypeError
  end.

Definition usable (self : t) : bool :=
  _connected self && bool_decide (pool self ≠ None).

Definition pg_insert (r : LogRecord) : M unit :=
  ok <- pg_command ReqPgInsert ;;
  if ok then modify (fun w => set_table (table w ++ [r]) w) else ret tt.

(** [log_prediction].  The debug message after the INSERT formats
    [confidence] as a percentage, which raises on a string: the row is
    sent by then. *)
Definition log_prediction `{Externals} (self : t) (text : string)
    (prediction confidence : pyval) (latency_ms : Q)
    (ip user_agent_ : option string) (version : string) (cached : bool)
  : M bool :=
  if negb (usable self) then ret true
  else
    try_except
      (let text_hash_ := _hash_text text in
       let text_preview_ :=
         if (200 <? Z.of_nat (String.length text)) then String.substring 0 200 text
         else text in
       topic <- lift (match prediction with
                      | PStr s => Ok s
                      | _ => Raise TypeError
                      end) ;;
       c <- lift (py_float confidence) ;;
       pg_insert (mkLogRecord text_hash_ text_preview_ topic c latency_ms
                              ip user_agent_ version cached) ;;;
       lift (format_percent confidence) ;;;
       ret true)
      (fun e =>
         match e with
         | TimeoutError => ret true
         | _ => ret true
         end).

(** [float(x) if x else 0] on a nullable numeric column. *)
Definition float_or_zero (x : option Q) : pyval :=
  match x with
  | Some q => if Qeq_bool q 0 then PInt 0 else PFloat q
  | None => PInt 0
  end.

Definition stats_entry (row : StatRow) : pyval :=
  PDict [ ("count", PInt (row_count row));
          ("avg_confidence", float_or_zero (row_avg_confidence row));
          ("avg_latency_ms", float_or_zero (row_avg_latency row));
          ("min_confidence", float_or_zero (row_min_confidence row));
          ("max_confidence", float_or_zero (row_max_confidence row));
          ("p95_latency_ms", float_or_zero (row_p95_latency row)) ].

(** The loop over the rows: fills [stats], sums the counts. *)
Fixpoint stats_loop (rows : list StatRow) (stats : list (string * pyval))
    (total : Z) : list (string * pyval) * Z :=
  match rows with
  | [] => (stats, total)
  | row :: rows' =>
      stats_loop rows' (dict_set (row_topic row) (stats_entry row) stats)
                 (total + row_count row)
  end.

Definition pg_fetch_stats (hours : Z) : M (list StatRow) :=
  ok <- pg_command (ReqPgStats hours) ;;
  if ok then gets (fun w => aggregate w hours) else ret [].

(** [get_stats] *)
Definition get_stats `{Externals} (self : t) (hours : Z) : M pyval :=
  if negb (usable self) then ret (PDict [])
  else
    try_except
      (rows <- pg_fetch_stats hours ;;
       let '(stats, total_predictions) := stats_loop rows [] 0 in
       now <- time_time ;;
       let summary :=
         PDict [ ("total_predictions", PInt total_predictions);
                 ("num_topics", PInt (Z.of_nat (length stats) - 1));
                 ("window_hours", PInt hours);
                 ("timestamp", PStr (isoformat now)) ] in
       ret (PDict (dict_set "_summary" summary stats)))
      (fun _ => ret (PDict [])).

End PostgresLogger.

(** ** src/models/bert_model.py *)

Module BERT.

(** A loaded classifier: the label list, and tokenizer, network and
    softmax taken together as one function to a probability vector. *)
Record t : Type := mk {
  classes : list string;
  forward : string -> result (list Q)
}.

(** [np.argmax]: the first index holding the maximum. *)
Fixpoint argmax_from (best_i : nat) (best : Q) (i : nat) (l : list Q) : nat :=
  match l with
  | [] => best_i
  | x :: l' =>
      if Qle_bool x best then argmax_from best_i best (S i) l'
      else argmax_from i x (S i) l'
  end.

Definition argmax (l : list Q) : result nat :=
  match l with
  | [] => Raise (ValueError "attempt to get argmax of an empty sequence")
  | x :: l' => Ok (argmax_from 0%nat x 1%nat l')
  end.

Definition index {A} (l : list A) (i : nat) : result A :=
  match l !! i with
  | Some x => Ok x
  | None => Raise IndexError
  end.

(** [{cls: float(prob) for cls, prob in zip(classes, probabilities)}] *)
Definition probabilities_dict (cls : list string) (probs : list Q)
  : list (string * pyval) :=
  fold_left (fun d '(c, p) => dict_set c (PFloat p) d) (zip cls probs) [].

(** [predict]; the [except] clause re-raises. *)
Definition predict (self : t) (text : string) : result pyval :=
  match forward self text with
  | Raise e => Raise e
  | Ok probabilities =>
      match argmax probabilities with
      | Raise e => Raise e
      | Ok predicted_idx =>
          match index (classes self) predicted_idx with
          | Raise e => Raise e
          | Ok predicted_topic =>
              match index probabilities predicted_idx with
              | Raise e => Raise e
              | Ok confidence =>
                  Ok (PDict [ ("topic", PStr predicted_topic);
                              ("confidence", PFloat confidence);
                              ("probabilities",
                                PDict (probabilities_dict (classes self)
                                                          probabilities)) ])
              end
          end
      end
  end.

End BERT.

(** ** src/api/main.py *)

Module Api.

(** The module-level singletons, and the [API_KEY] environment variable
    as [os.getenv("API_KEY", "")] reads it. *)
Record Globals : Type := mkGlobals {
  model : option BERT.t;
  redis_cache : option RedisCache.t;
  postgres_logger : option PostgresLogger.t;
  api_key : string
}.

Record PredictRequest : Type := mkRequest {
  title : string;
  use_cache : bool
}.

Record PredictResponse : Type := mkResponse {
  r_title : string;
  topic : string;
  confidence : Q;
  probabilities : list (string * pyval);
  latency_ms : Q;
  cached : bool
}.

(** Field validation of [PredictResponse]: [topic: str],
    [confidence: float], [probabilities: dict]. *)
Definition validate_str (v : pyval) : result string :=
  match v with PStr s => Ok s | _ => Raise ValidationError end.

Definition validate_float (v : pyval) : result Q :=
  match v with
  | PFloat q => Ok q
  | PInt n => Ok (inject_Z n)
  | PBool b => Ok (if b then 1%Q else 0%Q)
  | _ => Raise ValidationError
  end.

Definition validate_dict (v : pyval) : result (list (string * pyval)) :=
  match v with PDict d => Ok d | _ => Raise ValidationError end.

Definition make_response (title_ : string) (topic_ confidence_ probs_ : pyval)
    (latency : Q) (cached_ : bool) : result PredictResponse :=
  match validate_str topic_ with
  | Raise e => Raise e
  | Ok t =>
      match validate_float confidence_ with
      | Raise e => Raise e
      | Ok c =>
          match validate_dict probs_ with
          | Raise e => Raise e
          | Ok p => Ok (mkResponse title_ t c p latency cached_)
          end
      end
  end.

Definition elapsed_ms (start now : Q) : Q := ((now - start) * 1000)%Q.

(** Step 1 of [predict]: the cache lookup.  The first component is the
    early [return], if any; the second is the local variable [cached]
    when the step ends.  Any exception falls through to the model; one
    raised after the assignment [cached = True] leaves the variable set. *)
Definition try_cache `{Externals} (g : Globals) (request : PredictRequest)
    (start_time : Q) : M (option PredictResponse * bool) :=
  match redis_cache g with
  | Some rc =>
      if use_cache request && RedisCache.is_connected rc then
        try_except
          (cached_result <- RedisCache.get rc (title request) ;;
           if truthy cached_result then
             try_except
               (now <- time_time ;;
                let latency := elapsed_ms start_time now in
                t <- lift (py_getitem cached_result "topic") ;;
                c <- lift (py_getitem cached_result "confidence") ;;
                p <- lift (py_getitem cached_result "probabilities") ;;
                r <- lift (make_response (title request) t c p latency true) ;;
                ret (Some r, true))
               (fun _ => ret (None, true))
           else ret (None, false))
          (fun _ => ret (None, false))
      else ret (None, false)
  | None => ret (None, false)
  end.

(** The dict [predict] builds from the model's answer and caches. *)
Definition prediction_result (result_ : pyval) : result pyval :=
  match py_getitem result_ "topic" with
  | Raise e => Raise e
  | Ok t =>
      match py_getitem result_ "confidence" with
      | Raise e => Raise e
      | Ok c =>
          match py_getitem result_ "probabilities" with
          | Raise e => Raise e
          | Ok p =>
              Ok (PDict [ ("topic", t); ("confidence", c);
                          ("probabilities", p) ])
          end
      end
  end.

(** Steps 2 to 4 of [predict]: inference, the two fire-and-forget
    tasks, the response.  [cached_] is the local variable [cached] as
    step 1 left it. *)
Definition from_model `{Externals} (g : Globals) (m : BERT.t)
    (request : PredictRequest) (start_time : Q) (cached_ : bool)
  : M PredictResponse :=
  result_ <- lift (BERT.predict m (title request)) ;;
  prediction_result_ <- lift (prediction_result result_) ;;
  match redis_cache g with
  | Some rc =>
      if RedisCache.is_connected rc then
        try_except
          (create_task (TaskCacheSet (title request) prediction_result_))
          (fun _ => ret tt)
      else ret tt
  | None => ret tt
  end ;;;
  match postgres_logger g with
  | Some _ =>
      try_except
        (t' <- lift (py_getitem result_ "topic") ;;
         c' <- lift (py_getitem result_ "confidence") ;;
         now <- time_time ;;
         create_task (TaskLogPrediction (title request) t' c'
                        (elapsed_ms start_time now) "week4_bert_final" cached_))
        (fun _ => ret tt)
  | None => ret tt
  end ;;;
  now <- time_time ;;
  let latency := elapsed_ms start_time now in
  t2 <- lift (py_getitem result_ "topic") ;;
  c2 <- lift (py_getitem result_ "confidence") ;;
  p2 <- lift (py_getitem result_ "probabilities") ;;
  lift (make_response (title request) t2 c2 p2 latency false).

(** [POST /predict] *)
Definition predict `{Externals} (g : Globals) (request : PredictRequest)
    (x_api_key : option string) : M PredictResponse :=
  match x_api_key with
  | Some k =>
      if str_truthy k && negb (String.eqb k (api_key g))
      then raise (HTTPException 403 "Invalid API key") else ret tt
  | None => ret tt
  end ;;;
  match model g with
  | None => raise (HTTPException 503 "Model not loaded")
  | Some m =>
      try_except
        (start_time <- time_time ;;
         step1 <- try_cache g request start_time ;;
         let '(hit, cached_) := step1 in
         match hit with
         | Some r => ret r
         | None => from_model g m request start_time cached_
         end)
        (fun e => raise (HTTPException 500 (exn_str e)))
  end.

(** The event loop running one created task; an exception escaping a
    task is dropped by the loop. *)
Definition run_task `{Externals} (g : Globals) (t : task) : M unit :=
  match t with
  | TaskCacheSet text prediction =>
      match redis_cache g with
      | Some rc =>
          try_except (RedisCache.set rc text prediction ;;; ret tt)
                     (fun _ => ret tt)
      | None => ret tt
      end
  | TaskLogPrediction text prediction confidence_ latency version cached_ =>
      match postgres_logger g with
      | Some pl =>
          try_except
            (PostgresLogger.log_prediction pl text prediction confidence_
               latency None None version cached_ ;;; ret tt)
            (fun _ => ret tt)
      | None => ret tt
      end
  end.

Definition run_next_task `{Externals} (g : Globals) : M unit :=
  pending <- gets tasks ;;
  match pending with
  | [] => ret tt
  | t :: rest => modify (set_tasks rest) ;;; run_task g t
  end.

Record Readiness : Type := mkReadiness {
  ready : bool;
  model_loaded : bool;
  redis_connected : bool;
  postgres_connected : bool
}.

(** [GET /readiness] *)
Definition readiness (g : Globals) : M Readiness :=
  try_except
    (match model g with
     | None => raise (HTTPException 503 "Model not loaded")
     | Some _ => ret tt
     end ;;;
     let redis_status :=
       match redis_cache g with
       | Some rc => RedisCache.is_connected rc
       | None => false
       end in
     postgres_status <-
       match postgres_logger g with
       | Some pl =>
           try_except
             (if PostgresLogger.hasattr pl "connection"
              then lift (PostgresLogger.attr_is_not_none pl "connection")
              else ret false)
             (fun _ => ret false)
       | None => ret false
       end ;;
     let all_ready := redis_status && postgres_status in
     ret (mkReadiness all_ready
                      (bool_decide (model g ≠ None))
                      redis_status postgres_status))
    (fun e => raise (HTTPException 503 (exn_str e))).

(** [GET /stats] *)
Definition stats `{Externals} (g : Globals) (hours : Z) : M pyval :=
  match postgres_logger g with
  | None => ret (PDict [ ("error", PStr "PostgreSQL not available") ])
  | Some pl =>
      try_except (PostgresLogger.get_stats pl hours)
                 (fun e => raise (HTTPException 500 (exn_str e)))
  end.

(** [GET /cache/clear] *)
Definition cache_clear `{Externals} (g : Globals) : M pyval :=
  match redis_cache g with
  | None => ret (PDict [ ("status", PStr "redis_unavailable") ])
  | Some rc =>
      try_except
        (RedisCache.flush_all rc ;;;
         now <- time_time ;;
         ret (PDict [ ("status", PStr "cleared");
                      ("timestamp", PStr (isoformat now)) ]))
        (fun e => raise (HTTPException 500 (exn_str e)))
  end.

End Api.

(** ** src/api/routes/batch_predict.py *)

Module Batch.

Record BatchItem : Type := mkItem {
  id : option string;
  title : string;
  ground_truth : option string
}.

Record BatchRequest : Type := mkBatchRequest {
  items : list BatchItem;
  include_metrics : bool;
  return_probabilities : bool
}.

Record PredictionResult : Type := mkPredictionResult {
  pr_id : option string;
  pr_title : string;
  prediction : string;
  confidence : Q;
  pr_ground_truth : option string;
  is_correct : option bool;
  latency_ms : Q
}.

Record ClassMetrics : Type := mkClassMetrics {
  precision : Q;
  recall : Q;
  f1 : Q;
  support : Z
}.

Record Overall : Type := mkOverall {
  accuracy : Q;
  precision_macro : Q;
  recall_macro : Q;
  f1_macro : Q;
  total_samples : Z;
  correct_predictions : Z
}.

Record Metrics : Type := mkMetrics {
  overall : Overall;
  per_class : list (string * ClassMetrics);
  cm_labels : list string;
  cm_matrix : list (list Z)
}.

(** What [calculate_metrics] returns: [{"error": msg}] or the full dict. *)
Inductive MetricsResult : Type :=
| MError (msg : string)
| MOk (m : Metrics).

Record BatchResponse : Type := mkBatchResponse {
  total_items : Z;
  successful : Z;
  failed : Z;
  predictions : list PredictionResult;
  metrics : option MetricsResult;
  execution_time_ms : Q;
  timestamp : string
}.

(** *** The functions of [sklearn.metrics] the module calls

    Modelled on their documented meaning, over exact rationals. *)

(** [num / den], and 0 where the denominator is 0 ([zero_division=0]). *)
Definition ratio (num den : Z) : Q :=
  if den =? 0 then 0%Q else Qred (num # Z.to_pos den).

Definition count_pairs {A B} (f : A -> B -> bool) (l1 : list A) (l2 : list B) : Z :=
  Z.of_nat (length (filter (fun '(a, b) => f a b) (zip l1 l2))).

Definition accuracy_score (y_true y_pred : list string) : Q :=
  ratio (count_pairs String.eqb y_true y_pred) (Z.of_nat (length y_true)).

(** Counts over 0/1 indicator lists, positive label 1. *)
Definition true_pos (t p : list Z) : Z :=
  count_pairs (fun a b => (a =? 1) && (b =? 1)) t p.
Definition false_pos (t p : list Z) : Z :=
  count_pairs (fun a b => negb (a =? 1) && (b =? 1)) t p.
Definition false_neg (t p : list Z) : Z :=
  count_pairs (fun a b => (a =? 1) && negb (b =? 1)) t p.

Definition precision_score (t p : list Z) : Q :=
  ratio (true_pos t p) (true_pos t p + false_pos t p).
Definition recall_score (t p : list Z) : Q :=
  ratio (true_pos t p) (true_pos t p + false_neg t p).
Definition f1_score (t p : list Z) : Q :=
  ratio (2 * true_pos t p) (2 * true_pos t p + false_pos t p + false_neg t p).

(** [sorted(set(l))] on strings. *)
Fixpoint insert_sorted (x : string) (l : list string) : list string :=
  match l with
  | [] => [x]
  | y :: l' =>
      match String.compare x y with
      | Lt => x :: y :: l'
      | Eq => y :: l'
      | Gt => y :: insert_sorted x l'
      end
  end.

Definition sorted_set (l : list string) : list string :=
  fold_right insert_sorted [] l.

Definition indicator (cls : string) (l : list string) : list Z :=
  map (fun x => if String.eqb x cls then 1 else 0) l.

Definition mean (l : list Q) : Q :=
  match l with
  | [] => 0%Q
  | _ => Qred (fold_right Qplus 0%Q l / inject_Z (Z.of_nat (length l)))
  end.

(** [average='macro']: the unweighted mean of the per-label scores over
    the sorted labels present in either list. *)
Definition macro (score : list Z -> list Z -> Q) (y_true y_pred : list string) : Q :=
  mean (map (fun cls => score (indicator cls y_true) (indicator cls y_pred))
            (sorted_set (y_true ++ y_pred))).

(** [confusion_matrix(y_true, y_pred, labels=classes)] *)
Definition confusion_matrix (y_true y_pred : list string) (labels : list string)
  : list (list Z) :=
  map (fun r =>
         map (fun c =>
                count_pairs (fun a b => String.eqb a r && String.eqb b c)
                            y_true y_pred)
             labels)
      labels.

(** *** [calculate_metrics] *)

Definition class_metrics (y_true y_pred : list string) (cls : string)
  : string * ClassMetrics :=
  let cls_true := indicator cls y_true in
  let cls_pred := indicator cls y_pred in
  (cls, mkClassMetrics (precision_score cls_true cls_pred)
                       (recall_score cls_true cls_pred)
                       (f1_score cls_true cls_pred)
                       (fold_right Z.add 0 cls_true)).

Definition calculate_metrics (y_true y_pred : list string) : MetricsResult :=
  match y_true, y_pred with
  | [], _ | _, [] => MError "Invalid label lengths"
  | _, _ =>
      if negb (length y_true =? length y_pred)%nat
      then MError "Invalid label lengths"
      else
        let accuracy_ := accuracy_score y_true y_pred in
        let classes := sorted_set (y_true ++ y_pred) in
        let per_class_ := map (class_metrics y_true y_pred) classes in
        let cm := confusion_matrix y_true y_pred classes in
        MOk (mkMetrics
               (mkOverall accuracy_
                          (macro precision_score y_true y_pred)
                          (macro recall_score y_true y_pred)
                          (macro f1_score y_true y_pred)
                          (Z.of_nat (length y_true))
                          (count_pairs String.eqb y_true y_pred))
               per_class_ classes cm)
  end.

(** *** [batch_predict] *)

(** The three lists the loop appends to. *)
Record Acc : Type := mkAcc {
  predictions_list : list PredictionResult;
  ground_truths : list string;
  predictions_ : list pyval
}.

Definition opt_truthy (o : option string) : bool :=
  match o with Some s => str_truthy s | None => false end.

(** [x == s] for a string [s]. *)
Definition eq_str (x : pyval) (s : string) : bool :=
  match x with PStr s' => String.eqb s' s | _ => false end.

Definition make_result (id_ : option string) (title_ : string)
    (prediction_ confidence_ : pyval) (gt : option string)
    (is_correct_ : option bool) (latency : Q) : result PredictionResult :=
  match Api.validate_str prediction_ with
  | Raise e => Raise e
  | Ok p =>
      match Api.validate_float confidence_ with
      | Raise e => Raise e
      | Ok c => Ok (mkPredictionResult id_ title_ p c gt is_correct_ latency)
      end
  end.

(** The statements of the [try] block after [model.predict] returned
    [result_]; appends made before an exception stay. *)
Definition record_item (idx : nat) (item : BatchItem) (result_ : pyval)
    (latency : Q) (acc : Acc) : Acc :=
  let checked : option (option bool * Acc) :=
    if opt_truthy (ground_truth item) then
      match py_getitem result_ "prediction" with
      | Raise _ => None
      | Ok p =>
          Some (Some (eq_str p (default "" (ground_truth item))),
                mkAcc (predictions_list acc)
                      (ground_truths acc ++ [default "" (ground_truth item)])
                      (predictions_ acc ++ [p]))
      end
    else Some (None, acc) in
  match checked with
  | None => acc
  | Some (is_correct_, acc1) =>
      let id_ := if opt_truthy (id item) then id item
                 else Some (pretty (Z.of_nat idx)) in
      match py_getitem result_ "prediction" with
      | Raise _ => acc1
      | Ok p =>
          match py_getitem result_ "confidence" with
          | Raise _ => acc1
          | Ok c =>
              match make_result id_ (title item) p c (ground_truth item)
                                is_correct_ latency with
              | Raise _ => acc1
              | Ok pr =>
                  mkAcc (predictions_list acc1 ++ [pr])
                        (ground_truths acc1) (predictions_ acc1)
              end
          end
      end
  end.

(** One iteration of [for idx, item in enumerate(request.items)]. *)
Definition process_item (m : BERT.t) (idx : nat) (item : BatchItem) (acc : Acc)
  : M Acc :=
  item_start <- time_time ;;
  match BERT.predict m (title item) with
  | Raise _ => ret acc
  | Ok result_ =>
      now <- time_time ;;
      ret (record_item idx item result_ (Api.elapsed_ms item_start now) acc)
  end.

Fixpoint process_items (m : BERT.t) (idx : nat) (l : list BatchItem) (acc : Acc)
  : M Acc :=
  match l with
  | [] => ret acc
  | item :: l' =>
      acc' <- process_item m idx item acc ;;
      process_items m (S idx) l' acc'
  end.

Fixpoint labels_of (l : list pyval) : option (list string) :=
  match l with
  | [] => Some []
  | PStr s :: l' => cons s <$> labels_of l'
  | _ => None
  end.

(** [POST /predict/batch] of the router: [model] is the module's global. *)
Definition batch_predict `{Externals} (model : option BERT.t)
    (request : BatchRequest) : M BatchResponse :=
  match model with
  | None => raise (HTTPException 503 "Model not loaded")
  | Some m =>
      start_time <- time_time ;;
      acc <- process_items m 0 (items request) (mkAcc [] [] []) ;;
      metrics_ <-
        (if include_metrics request
            && match ground_truths acc with [] => false | _ => true end
            && match predictions_ acc with [] => false | _ => true end
         then
           let mr := match labels_of (predictions_ acc) with
                     | Some ps => calculate_metrics (ground_truths acc) ps
                     | None => MError "TypeError"
                     end in
           match mr with
           | MError _ => raise (KeyError "overall")
           | MOk _ => ret (Some mr)
           end
         else ret None) ;;
      now <- time_time ;;
      stamp <- time_time ;;
      let n := Z.of_nat (length (items request)) in
      let k := Z.of_nat (length (predictions_list acc)) in
      ret (mkBatchResponse n k (n - k) (predictions_list acc) metrics_
                           (Api.elapsed_ms start_time now) (isoformat stamp))
  end.

End Batch.

(** ** src/models/bert_model.py, further methods *)

Module Classifier.

(** The numeric value of [int], [float] and [bool] objects. *)
Definition number (v : pyval) : option Q :=
  match v with
  | PInt n => Some (inject_Z n)
  | PFloat q => Some q
  | PBool b => Some (if b then 1%Q else 0%Q)
  | _ => None
  end.

(** [a == b] *)
Fixpoint py_eq (a b : pyval) {struct a} : bool :=
  match a, b with
  | PNone, PNone => true
  | PStr s, PStr t => String.eqb s t
  | PList l, PList m =>
      (fix all_eq (l m : list pyval) {struct l} : bool :=
         match l, m with
         | [], [] => true
         | x :: l', y :: m' => py_eq x y && all_eq l' m'
         | _, _ => false
         end) l m
  | PDict d, PDict e =>
      (length d =? length e)%nat &&
      (fix all_in (d : list (string * pyval)) {struct d} : bool :=
         match d with
         | [] => true
         | kv :: d' =>
             match dict_get (fst kv) e with
             | Some v' => py_eq (snd kv) v' && all_in d'
             | None => false
             end
         end) d
  | _, _ =>
      match number a, number b with
      | Some x, Some y => Qeq_bool x y
      | _, _ => false
      end
  end.

(** [a < b]: numbers with numbers, strings with strings, lists item by
    item; [TypeError] otherwise. *)
Fixpoint py_lt (a b : pyval) {struct a} : result bool :=
  match a, b with
  | PStr s, PStr t => Ok (String.ltb s t)
  | PList l, PList m =>
      (fix lt_items (l m : list pyval) {struct l} : result bool :=
         match l, m with
         | [], [] => Ok false
         | [], _ :: _ => Ok true
         | _ :: _, [] => Ok false
         | x :: l', y :: m' =>
             if py_eq x y then lt_items l' m' else py_lt x y
         end) l m
  | _, _ =>
      match number a, number b with
      | Some x, Some y => Ok (negb (Qle_bool y x))
      | _, _ => Raise TypeError
      end
  end.

(** [sorted(items, key=lambda x: x[1], reverse=reverse)]: a stable sort
    that asks only [<] of the keys. *)
Fixpoint insert_item (reverse : bool) (x : string * pyval)
    (l : list (string * pyval)) : result (list (string * pyval)) :=
  match l with
  | [] => Ok [x]
  | y :: l' =>
      match (if reverse then py_lt (snd x) (snd y) else py_lt (snd y) (snd x)) with
      | Raise e => Raise e
      | Ok true =>
          match insert_item reverse x l' with
          | Raise e => Raise e
          | Ok r => Ok (y :: r)
          end
      | Ok false => Ok (x :: y :: l')
      end
  end.

Fixpoint sorted_items (reverse : bool) (l : list (string * pyval))
  : result (list (string * pyval)) :=
  match l with
  | [] => Ok []
  | x :: l' =>
      match sorted_items reverse l' with
      | Raise e => Raise e
      | Ok s => insert_item reverse x s
      end
  end.

(** [l[:k]] *)
Definition slice_to {A} (k : Z) (l : list A) : list A :=
  if 0 <=? k then take (Z.to_nat k) l
  else take (length l - Z.to_nat (- k)) l.

(** [predict_top_k] *)
Definition predict_top_k (self : BERT.t) (text : string) (k : Z)
  : result (list (string * pyval)) :=
  match BERT.predict self text with
  | Raise e => Raise e
  | Ok result_ =>
      match py_getitem result_ "probabilities" with
      | Raise e => Raise e
      | Ok (PDict probs) =>
          match sorted_items true probs with
          | Raise e => Raise e
          | Ok s => Ok (slice_to k s)
          end
      | Ok _ => Raise (AttributeError "items")
      end
  end.

(** [texts[i][:50] + "..." if len(texts[i]) > 50 else texts[i]] *)
Definition shorten (s : string) : string :=
  if (50 <? String.length s)%nat then String.substring 0 50 s +:+ "..." else s.

(** One iteration of the loop of [predict_batch]. *)
Definition batch_row (self : BERT.t) (texts : list string) (i : nat)
    (probs : list Q) : result pyval :=
  match BERT.argmax probs with
  | Raise e => Raise e
  | Ok predicted_idx =>
      match BERT.index (BERT.classes self) predicted_idx with
      | Raise e => Raise e
      | Ok predicted_topic =>
          match BERT.index probs predicted_idx with
          | Raise e => Raise e
          | Ok confidence =>
              match BERT.index texts i with
              | Raise e => Raise e
              | Ok text =>
                  Ok (PDict [ ("text", PStr (shorten text));
                              ("topic", PStr predicted_topic);
                              ("confidence", PFloat confidence) ])
              end
          end
      end
  end.

Fixpoint batch_rows (self : BERT.t) (texts : list string) (i : nat)
    (rows : list (list Q)) : result (list pyval) :=
  match rows with
  | [] => Ok []
  | probs :: rows' =>
      match batch_row self texts i probs with
      | Raise e => Raise e
      | Ok d =>
          match batch_rows self texts (S i) rows' with
          | Raise e => Raise e
          | Ok ds => Ok (d :: ds)
          end
      end
  end.

(** [predict_batch]; [forward_batch] is tokenizer, network and softmax on
    the whole list, one probability row per text. *)
Definition predict_batch (self : BERT.t)
    (forward_batch : list string -> result (list (list Q)))
    (texts : list string) : result (list pyval) :=
  match forward_batch texts with
  | Raise e => Raise e
  | Ok rows => batch_rows self texts 0 rows
  end.

(** *** Label mapping *)

Definition default_classes : list pyval :=
  map PStr [ "BUSINESS"; "ENTERTAINMENT"; "HEALTH"; "NATION";
             "SCIENCE"; "SPORTS"; "TECHNOLOGY"; "WORLD" ].

(** [range(n)] for an [int] (or [bool]) object. *)
Definition py_range (v : pyval) : result (list Z) :=
  match v with
  | PInt n => Ok (map Z.of_nat (seq 0 (Z.to_nat n)))
  | PBool b => Ok (if b then [0] else [])
  | _ => Raise TypeError
  end.

Fixpoint collect {A B} (f : A -> result B) (l : list A) : result (list B) :=
  match l with
  | [] => Ok []
  | x :: l' =>
      match f x with
      | Raise e => Raise e
      | Ok y =>
          match collect f l' with
          | Raise e => Raise e
          | Ok ys => Ok (y :: ys)
          end
      end
  end.

(** The fallback on [config.json]: the statements inside its [try],
    from ['id2label' in config] on.  [None] stands for "no [return]":
    the key is missing or an exception was swallowed. *)
Definition classes_from_config (config : pyval) : option (list pyval) :=
  match config with
  | PDict d =>
      match dict_get "id2label" d with
      | None => None
      | Some id2label =>
          match py_getitem config "num_labels" with
          | Raise _ => None
          | Ok n =>
              match py_range n with
              | Raise _ => None
              | Ok indices =>
                  match collect (fun i => py_getitem id2label (pretty i)) indices with
                  | Raise _ => None
                  | Ok cs => Some cs
                  end
              end
          end
      end
  | _ => None
  end.

Definition is_none (v : pyval) : bool :=
  match v with PNone => true | _ => false end.

(** [_load_label_mapping].  [provided] is the content of the file at
    [label_encoder_path] when a path is given and the file exists,
    [in_model_dir] that of [label_mapping.json] in the model directory when
    it exists, [config] that of [config.json]; each as [json.load]
    leaves it.  The result is what [self.classes] is set to. *)
Definition _load_label_mapping (provided in_model_dir : option (result pyval))
    (config : result pyval) : result (list pyval) :=
  match (match provided with Some r => r | None => Ok PNone end) with
  | Raise e => Raise e
  | Ok first =>
      match (if is_none first
             then match in_model_dir with Some r => r | None => Ok PNone end
             else Ok first) with
      | Raise e => Raise e
      | Ok label_mapping =>
          match (if is_none label_mapping
                 then match config with
                      | Ok c => classes_from_config c
                      | Raise _ => None
                      end
                 else None) with
          | Some cs => Ok cs
          | None =>
              match label_mapping with
              | PNone => Ok default_classes
              | PList l => Ok l
              | PDict d =>
                  match d with
                  | [] => Ok []
                  | _ =>
                      match sorted_items false d with
                      | Raise e => Raise e
                      | Ok s => Ok (map (fun kv => PStr (fst kv)) s)
                      end
                  end
              | _ => Raise (AttributeError "classes")
              end
          end
      end
  end.

(** [save_label_mapping]: the object handed to [json.dump]. *)
Definition save_label_mapping (classes : list string) : pyval :=
  PDict (fold_left (fun d (ic : nat * string) =>
                      dict_set (pretty (Z.of_nat (fst ic))) (PStr (snd ic)) d)
                   (imap (fun i c => (i, c)) classes) []).

End Classifier.

(** ** src/database/redis_client.py: the synchronous wrapper *)

Module RedisCacheSync.

Record t : Type := mk {
  redis_url : string;
  ttl : Z
}.

Definition init (url : string) (ttl_ : Z) : t := mk url ttl_.

(** [get] *)
Definition get `{Externals} (self : t) (text : string) : M pyval :=
  try_except
    (let key := RedisCache._generate_key text in
     cached <- RedisCache.client_get key ;;
     match cached with
     | Some js => if str_truthy js then lift (json_loads js) else ret PNone
     | None => ret PNone
     end)
    (fun _ => ret PNone).

(** [set]: the reply of [setex] is not looked at. *)
Definition set `{Externals} (self : t) (text : string) (prediction : pyval)
  : M bool :=
  try_except
    (let key := RedisCache._generate_key text in
     json_str <- lift (json_dumps prediction) ;;
     RedisCache.client_setex key (ttl self) json_str ;;;
     ret true)
    (fun _ => ret true).

End RedisCacheSync.

(** ** src/api/main.py: startup, shutdown, batch and admin endpoints *)

Module Service.

(** What [startup] reads from outside: the outcome of constructing the
    classifier, and the environment variables with their defaults
    applied; [int(os.getenv(..))] may raise. *)
Record Environment : Type := mkEnvironment {
  load_model : result BERT.t;
  REDIS_URL : string;
  CACHE_TTL : result Z;
  REDIS_POOL_SIZE : result Z;
  POSTGRES_HOST : string;
  POSTGRES_DB : string;
  POSTGRES_USER : string;
  POSTGRES_PASSWORD : string;
  POSTGRES_PORT : result Z;
  API_KEY : string
}.

(** Section 2 of [startup]. *)
Definition init_redis (env : Environment) : M (option RedisCache.t) :=
  try_except
    (cache_ttl <- lift (CACHE_TTL env) ;;
     pool_size <- lift (REDIS_POOL_SIZE env) ;;
     r <- RedisCache.connect (RedisCache.init (REDIS_URL env) cache_ttl pool_size) ;;
     if fst r then ret (Some (snd r)) else ret None)
    (fun _ => ret None).

(** Section 3 of [startup]; [None] while [connect] is still running at
    nesting depth [depth]. *)
Definition init_postgres (depth : nat) (env : Environment) (w : World)
  : option (option PostgresLogger.t * World) :=
  match POSTGRES_PORT env with
  | Raise _ => Some (None, w)
  | Ok port_ =>
      match PostgresLogger.connect depth
              (PostgresLogger.init (POSTGRES_HOST env) (POSTGRES_DB env)
                                   (POSTGRES_USER env) (POSTGRES_PASSWORD env) port_)
              w with
      | None => None
      | Some (Ok (true, pl), w') => Some (Some pl, w')
      | Some (Ok (false, _), w') => Some (None, w')
      | Some (Raise _, w') => Some (None, w')
      end
  end.

(** [startup]: the globals it leaves, or the exception of the model load. *)
Definition startup (depth : nat) (env : Environment) (w : World)
  : option (result Api.Globals * World) :=
  match load_model env with
  | Raise e => Some (Raise e, w)
  | Ok m =>
      match init_redis env w with
      | (Raise e, w1) => Some (Raise e, w1)
      | (Ok rc, w1) =>
          match init_postgres depth env w1 with
          | None => None
          | Some (pl, w2) =>
              Some (Ok (Api.mkGlobals (Some m) rc pl (API_KEY env)), w2)
          end
      end
  end.

(** [RedisCache.close]; the two arguments are the outcomes of
    [await self.client.close()] and [await self.connection_pool.disconnect()]. *)
Definition redis_close (self : RedisCache.t)
    (client_close pool_disconnect : result unit) : RedisCache.t :=
  match (match RedisCache.client self with
         | Some _ => client_close
         | None => Ok tt
         end) with
  | Raise _ => self
  | Ok _ =>
      match (match RedisCache.connection_pool self with
             | Some _ => pool_disconnect
             | None => Ok tt
             end) with
      | Raise _ => self
      | Ok _ =>
          RedisCache.with_status false (RedisCache._connection_attempts self) self
      end
  end.

(** [PostgresLogger.close]; the argument is the outcome of
    [await self.pool.close()]. *)
Definition postgres_close (self : PostgresLogger.t) (pool_close : result unit)
  : PostgresLogger.t :=
  match (match PostgresLogger.pool self with
         | Some _ => pool_close
         | None => Ok tt
         end) with
  | Raise _ => self
  | Ok _ =>
      PostgresLogger.with_status false (PostgresLogger._connection_attempts self) self
  end.

(** [shutdown]: the globals keep the closed instances. *)
Definition shutdown (g : Api.Globals)
    (client_close pool_disconnect pool_close : result unit) : Api.Globals :=
  Api.mkGlobals (Api.model g)
    ((fun rc => redis_close rc client_close pool_disconnect) <$> Api.redis_cache g)
    ((fun pl => postgres_close pl pool_close) <$> Api.postgres_logger g)
    (Api.api_key g).

Record BatchPredictionResponse : Type := mkBatchPredictionResponse {
  count : Z;
  predictions : list pyval;
  latency_ms : Q
}.

(** The loop over [zip(request.titles, predictions)]; it is entered only
    with at least one title, so [len(request.titles)] is not zero. *)
Fixpoint log_batch (titles : list string) (predictions_ : list pyval)
    (latency : Q) (n : nat) : M unit :=
  match titles, predictions_ with
  | title_ :: titles', pred :: predictions' =>
      t <- lift (py_getitem pred "topic") ;;
      c <- lift (py_getitem pred "confidence") ;;
      create_task (TaskLogPrediction title_ t c
                     (latency / inject_Z (Z.of_nat n))%Q
                     "week4_bert_final" false) ;;;
      log_batch titles' predictions' latency n
  | _, _ => ret tt
  end.

(** [POST /predict/batch] of [main.py]; [forward_batch] as in
    [predict_batch]. *)
Definition batch_predict (g : Api.Globals)
    (forward_batch : list string -> result (list (list Q)))
    (titles : list string) : M BatchPredictionResponse :=
  match Api.model g with
  | None => raise (HTTPException 503 "Model not loaded")
  | Some m =>
      try_except
        (start_time <- time_time ;;
         predictions_ <- lift (Classifier.predict_batch m forward_batch titles) ;;
         now <- time_time ;;
         let latency := Api.elapsed_ms start_time now in
         match Api.postgres_logger g with
         | Some _ =>
             try_except (log_batch titles predictions_ latency (length titles))
                        (fun _ => ret tt)
         | None => ret tt
         end ;;;
         ret (mkBatchPredictionResponse (Z.of_nat (length predictions_))
                                        predictions_ latency))
        (fun e => raise (HTTPException 500 (exn_str e)))
  end.

End Service.

(** ** A test double for the library functions

    Used to run the embedding on concrete inputs: the hash is the
    identity, [json_dumps] prints a document, [json_loads] recognises
    the printed form of the documents of a given book and rejects every
    other string as malformed, and [float] reads the plain decimal
    notation (sign, digits, fraction) and rejects every other string. *)

Module Double.

Definition quote (s : string) : string :=
  String "034"%char (s +:+ String "034"%char "").

Fixpoint render (v : pyval) : string :=
  match v with
  | PNone => "null"
  | PBool b => if b then "true" else "false"
  | PInt n => pretty n
  | PFloat q => pretty (Qnum q) +:+ "/" +:+ pretty (Zpos (Qden q))
  | PStr s => quote s
  | PList l => "[" +:+ String.concat ", " (map render l) +:+ "]"
  | PDict d =>
      "{" +:+ String.concat ", "
                (map (fun kv => quote (fst kv) +:+ ": " +:+ render (snd kv)) d)
          +:+ "}"
  end.

Definition replay (book : list pyval) (s : string) : result pyval :=
  match find (fun v => String.eqb (render v) s) book with
  | Some v => Ok v
  | None => Raise JSONDecodeError
  end.

(** The value of a string of decimal digits, read after [acc]. *)
Fixpoint digits (acc : Z) (s : string) : option Z :=
  match s with
  | EmptyString => Some acc
  | String c s' =>
      let n := Z.of_N (N_of_ascii c) in
      if (48 <=? n) && (n <=? 57) then digits (10 * acc + (n - 48)) s'
      else None
  end.

(** The text before the first point, and the text after it if there is one. *)
Fixpoint split_point (s : string) : string * option string :=
  match s with
  | EmptyString => (EmptyString, None)
  | String c s' =>
      if Ascii.eqb c "."%char then (EmptyString, Some s')
      else let '(a, b) := split_point s' in (String c a, b)
  end.

Definition unsigned (s : string) : option Q :=
  let '(whole, rest) := split_point s in
  let fraction := default EmptyString rest in
  if String.eqb whole "" && String.eqb fraction "" then None
  else
    match digits 0 whole, digits 0 fraction with
    | Some i, Some f =>
        let scale := 10 ^ Z.of_nat (String.length fraction) in
        Some (Qred (Qmake (i * scale + f) (Z.to_pos scale)))
    | _, _ => None
    end.

Definition decimal (s : string) : result Q :=
  let parsed :=
    match s with
    | String "-"%char s' => Qopp <$> unsigned s'
    | String "+"%char s' => unsigned s'
    | _ => unsigned s
    end in
  match parsed with
  | Some q => Ok q
  | None => Raise (ValueError ("could not convert string to float: " +:+ s))
  end.

Definition externals (book : list pyval) : Externals :=
  {| sha256_hexdigest := fun s => s;
     json_dumps := fun v => Ok (render v);
     json_loads := replay book;
     isoformat := fun q => render (PFloat q);
     float_of_str := decimal |}.

(** A world with an empty store and table, a clock that advances by one
    per reading, and the given server behaviour. *)
Definition world (behaviour : nat -> request -> reply) : World :=
  mkWorld ∅ [] (fun _ => []) behaviour 0 (fun n => inject_Z (Z.of_nat n)) 0 [] [].

Definition healthy : World := world (fun _ _ => Served).

(** A classifier over three labels with a fixed answer per headline;
    it fails on the headline ["boom"]. *)
Definition classifier : BERT.t :=
  BERT.mk ["BUSINESS"; "SPORTS"; "TECH"]
          (fun text =>
             if String.eqb text "boom" then Raise (InferenceError "boom")
             else if String.prefix "Apple" text then Ok [1 # 10; 1 # 10; 8 # 10]%Q
             else Ok [6 # 10; 3 # 10; 1 # 10]%Q).

Definition connected_cache : RedisCache.t :=
  RedisCache.with_status true 0
    (RedisCache.with_client (RedisCache.init "redis://localhost:6379" 3600 10)).

Definition connected_logger : PostgresLogger.t :=
  PostgresLogger.with_status true 0
    (PostgresLogger.with_pool
       (PostgresLogger.init "localhost" "news_classifier" "postgres" "postgres" 5432)).

End Double.

(** ** Specification vocabulary *)

Module Spec.

(** The part of a response that must not depend on the cache: topic,
    confidence and probabilities, or the error raised instead. *)
Definition answer (r : result Api.PredictResponse)
  : result (string * Q * list (string * pyval)) :=
  match r with
  | Ok x => Ok (Api.topic x, Api.confidence x, Api.probabilities x)
  | Raise e => Raise e
  end.

(** The fields of a response are fixed by the three values it is built
    from; title, latency and the [cached] flag play no part. *)
Definition fields (t c p : pyval) : result (string * Q * list (string * pyval)) :=
  answer (Api.make_response "" t c p 0 false).

(** What the model alone answers on a text. *)
Definition model_answer (m : BERT.t) (text : string)
  : result (string * Q * list (string * pyval)) :=
  match BERT.predict m text with
  | Raise e => Raise e
  | Ok r =>
      match py_getitem r "topic" with
      | Raise e => Raise e
      | Ok t =>
          match py_getitem r "confidence" with
          | Raise e => Raise e
          | Ok c =>
              match py_getitem r "probabilities" with
              | Raise e => Raise e
              | Ok p => fields t c p
              end
          end
      end
  end.

(** The API-key check of [predict] turns the request down. *)
Definition key_rejected (g : Api.Globals) (api_key : option string) : bool :=
  match api_key with
  | Some k => str_truthy k && negb (String.eqb k (Api.api_key g))
  | None => false
  end.

(** What [predict] owes the caller, cache or no cache: the model's
    answer, its error as a 500, or the 403 of the key check. *)
Definition expected_answer (g : Api.Globals) (m : BERT.t) (text : string)
    (api_key : option string) : result (string * Q * list (string * pyval)) :=
  if key_rejected g api_key then Raise (HTTPException 403 "Invalid API key")
  else match model_answer m text with
       | Ok a => Ok a
       | Raise e => Raise (HTTPException 500 (exn_str e))
       end.

(** Whatever the store holds under the key of [text] was written by
    [set] for that text: it is the serialised dict [predict] builds from
    the model's answer on [text]. *)
Definition stored_by_set `{Externals} (m : BERT.t) (text : string) (w : World)
  : Prop :=
  forall ttl_ js,
    store w !! RedisCache._generate_key text = Some (ttl_, js) ->
    exists r v,
      BERT.predict m text = Ok r /\
      Api.prediction_result r = Ok v /\
      json_dumps v = Ok js.

(** [json.loads] gives back the prediction dict that [json.dumps]
    serialised. *)
Definition round_trips `{Externals} (m : BERT.t) (text : string) : Prop :=
  forall r v js,
    BERT.predict m text = Ok r ->
    Api.prediction_result r = Ok v ->
    json_dumps v = Ok js ->
    json_loads js = Ok v.

(** A cache-population task is for a served text and carries the dict
    [predict] builds from the model's answer on that text. *)
Definition task_from_model (served : string -> Prop) (m : BERT.t) (t : task)
  : Prop :=
  match t with
  | TaskCacheSet text v =>
      served text /\
      exists r, BERT.predict m text = Ok r /\ Api.prediction_result r = Ok v
  | TaskLogPrediction _ _ _ _ _ _ => True
  end.

(** For the served texts, the cache and the pending tasks hold only what
    the model answers. *)
Definition coherent `{Externals} (served : string -> Prop) (m : BERT.t)
    (w : World) : Prop :=
  (forall text, served text -> stored_by_set m text w) /\
  Forall (task_from_model served m) (tasks w).

(** No two served texts share a cache key. *)
Definition collision_free `{Externals} (served : string -> Prop) : Prop :=
  forall a b,
    served a -> served b ->
    RedisCache._generate_key a = RedisCache._generate_key b -> a = b.

(** What the serving process does next: it handles a [POST /predict] for
    a served text, or the event loop runs the oldest pending task. *)
Inductive step `{Externals} (served : string -> Prop) (g : Api.Globals)
  : World -> World -> Prop :=
| step_predict request api_key w :
    served (Api.title request) ->
    step served g w (snd (Api.predict g request api_key w))
| step_task w :
    step served g w (snd (Api.run_next_task g w)).

(** A PostgreSQL server that lets the client in and answers the ping
    but fails the first DDL statement, on every round trip. *)
Definition rejects_ddl (w : World) : Prop :=
  forall n,
    oracle w n ReqPgCreatePool = Served /\
    oracle w n ReqPgSelectNow = Served /\
    exists msg, oracle w n (ReqPgDDL 0) = Failed msg.

(** A Redis server whose ping never comes back truthy. *)
Definition never_pongs (w : World) : Prop :=
  forall n, oracle w n ReqRedisPing <> Served.

(** [metrics['per_class'][cls]] *)
Definition class_of (m : Batch.Metrics) (cls : string)
  : option Batch.ClassMetrics :=
  snd <$> find (fun kv => String.eqb (fst kv) cls) (Batch.per_class m).

End Spec.

(** ** Vocabulary of the further properties *)

Module Laws.

(** [i] is the first position of a maximum [m] of [l]. *)
Definition first_max (l : list Q) (i : nat) (m : Q) : Prop :=
  l !! i = Some m /\
  Forall (fun x => Qle_bool x m = true) l /\
  forall j x, (j < i)%nat -> l !! j = Some x -> Qle_bool m x = false.

(** The items of [{cls: float(prob) for cls, prob in zip(..)}] when the
    class names are pairwise distinct. *)
Definition float_items (cls : list string) (probs : list Q) : list (string * pyval) :=
  map (fun cp => (fst cp, PFloat (snd cp))) (zip cls probs).

Definition is_float (v : pyval) : Prop := exists p, v = PFloat p.
Definition is_str (v : pyval) : Prop := exists s, v = PStr s.
Definition is_int (v : pyval) : Prop := exists n, v = PInt n.

Definition conf_of (kv : string * pyval) : Q :=
  match snd kv with PFloat p => p | _ => 0%Q end.

(** [x] may stand before [y] in a list sorted by decreasing confidence. *)
Definition conf_ge (x y : string * pyval) : Prop :=
  match snd x, snd y with
  | PFloat p, PFloat q => (q <= p)%Q
  | _, _ => False
  end.

(** [x] may stand before [y] in a list sorted by increasing index. *)
Definition index_le (x y : string * pyval) : Prop :=
  match snd x, snd y with
  | PInt a, PInt b => a <= b
  | _, _ => False
  end.

(** What [predict] says about one text, in the shape of an entry of
    [predict_batch]. *)
Definition batch_entry (self : BERT.t) (t : string) : result pyval :=
  match BERT.predict self t with
  | Raise e => Raise e
  | Ok r =>
      match py_getitem r "topic" with
      | Raise e => Raise e
      | Ok topic =>
          match py_getitem r "confidence" with
          | Raise e => Raise e
          | Ok confidence =>
              Ok (PDict [ ("text", PStr (Classifier.shorten t));
                          ("topic", topic);
                          ("confidence", confidence) ])
          end
      end
  end.

(** [{str(i): cls}] and [{cls: i}] as item lists. *)
Definition index_items (classes : list string) : list (string * pyval) :=
  imap (fun i c => (pretty (Z.of_nat i), PStr c)) classes.

Definition class_items (classes : list string) : list (string * pyval) :=
  imap (fun i c => (c, PInt (Z.of_nat i))) classes.

(** [pred[k]] on the entries [predict_batch] returns. *)
Definition field (k : string) (pred : pyval) : pyval :=
  match py_getitem pred k with
  | Ok v => v
  | Raise _ => PNone
  end.

(** The logging tasks the batch endpoint creates: one per title, each
    with the batch latency divided by the number of titles. *)
Fixpoint log_tasks (titles : list string) (preds : list pyval) (latency : Q)
    (n : nat) : list task :=
  match titles, preds with
  | t :: titles', d :: preds' =>
      TaskLogPrediction t (field "topic" d) (field "confidence" d)
                        (latency / inject_Z (Z.of_nat n))%Q
                        "week4_bert_final" false
      :: log_tasks titles' preds' latency n
  | _, _ => []
  end.

(** Sums over a confusion matrix: all cells, and the diagonal. *)
Definition sum_Z (l : list Z) : Z := fold_right Z.add 0 l.

Definition cells (cm : list (list Z)) : Z := sum_Z (map sum_Z cm).

Definition trace (cm : list (list Z)) : Z :=
  sum_Z (imap (fun i row => default 0 (row !! i)) cm).

(** No server answers: every round trip times out or fails. *)
Definition unreachable (o : nat -> request -> reply) : Prop :=
  forall n rq, o n rq = TimedOut \/ exists msg, o n rq = Failed msg.

(** A number between 0 and 1. *)
Definition rate (q : Q) : Prop := (0 <= q)%Q /\ (q <= 1)%Q.

End Laws.

(** ** Concrete scenarios *)

Module Scenario.

Definition apple : string := "Apple releases iPhone".

(** The dict the classifier of [Double] yields on [apple]. *)
Definition apple_doc : pyval :=
  PDict [ ("topic", PStr "TECH"); ("confidence", PFloat (8 # 10));
          ("probabilities",
            PDict [ ("BUSINESS", PFloat (1 # 10)); ("SPORTS", PFloat (1 # 10));
                    ("TECH", PFloat (8 # 10)) ]) ].

Definition env : Externals := Double.externals [apple_doc].

(** Model loaded, cache and logger connected. *)
Definition globals : Api.Globals :=
  Api.mkGlobals (Some Double.classifier) (Some Double.connected_cache)
                (Some Double.connected_logger) "".

(** The world after one [predict] on [apple] against an empty cache,
    once the event loop has run the cache-population task. *)
Definition after_first_request : World :=
  snd (@Api.run_next_task env globals
         (snd (@Api.predict env globals (Api.mkRequest apple true) None
                 Double.healthy))).

(** Model loaded, no cache, no logger: what [startup] leaves when both
    stores were unreachable. *)
Definition globals_degraded : Api.Globals :=
  Api.mkGlobals (Some Double.classifier) None None "".

(** The scenario of the metrics property. *)
Definition truth : list string := ["TECH"; "TECH"; "TECH"].
Definition predicted : list string := ["TECH"; "BUSINESS"; "TECH"].

(** Five items; the classifier raises on the third and answers on the
    other four. *)
Definition five_items : list Batch.BatchItem :=
  [ Batch.mkItem (Some "1") "Apple unveils a new phone" (Some "TECH");
    Batch.mkItem (Some "2") "Stock market crashes" (Some "BUSINESS");
    Batch.mkItem (Some "3") "boom" (Some "SPORTS");
    Batch.mkItem (Some "4") "Apple opens a store" None;
    Batch.mkItem None "Manchester United wins" (Some "SPORTS") ].

Definition answers (m : BERT.t) (item : Batch.BatchItem) : bool :=
  match BERT.predict m (Batch.title item) with
  | Ok _ => true
  | Raise _ => false
  end.

(** A PostgreSQL server that accepts connections and answers queries but
    rejects every DDL statement (a role without CREATE privilege). *)
Definition ddl_denied : World :=
  Double.world (fun _ rq =>
                  match rq with
                  | ReqPgDDL _ => Failed "permission denied for schema public"
                  | _ => Served
                  end).

(** Servers that cannot be reached at all. *)
Definition unreachable : World :=
  Double.world (fun _ _ => Failed "connection refused").

Definition fresh_logger : PostgresLogger.t :=
  PostgresLogger.init "localhost" "news_classifier" "postgres" "postgres" 5432.

Definition fresh_cache : RedisCache.t :=
  RedisCache.init "redis://localhost:6379" 3600 10.

(** A log store whose stats query answers with two topics. *)
Definition two_topics : World :=
  mkWorld ∅ []
    (fun _ => [ mkStatRow "TECH" 3 (Some (9 # 10)) (Some 12) (Some (8 # 10))
                  (Some 1) (Some 20);
                mkStatRow "SPORTS" 1 (Some (7 # 10)) (Some 15) (Some (7 # 10))
                  (Some (7 # 10)) (Some 15) ]%Q)
    (fun _ _ => Served) 0 (fun n => inject_Z (Z.of_nat n)) 0 [] [].

(** A store holding one malformed entry, on a healthy server. *)
Definition corrupted_world : World :=
  set_store {[ "pred:Apple releases i" := (3600, "{not json") ]} Double.healthy.

End Scenario.

(** ** Further scenarios *)

Module Cases.

(** The environment of a default deployment: the classifier loads and
    every variable has its default. *)
Definition environment : Service.Environment :=
  Service.mkEnvironment (Ok Double.classifier) "redis://localhost:6379"
    (Ok 3600) (Ok 10) "localhost" "news_classifier" "postgres" "postgres"
    (Ok 5432) "".

Definition headlines : list string :=
  [ "Apple releases iPhone"; "Stock market crashes" ].

(** Batch inference that treats every text as the single-text path does. *)
Definition forward_batch (texts : list string) : result (list (list Q)) :=
  Classifier.collect (BERT.forward Double.classifier) texts.

(** What [predict_batch] answers on [headlines]. *)
Definition batch_answers : list pyval :=
  [ PDict [ ("text", PStr "Apple releases iPhone"); ("topic", PStr "TECH");
            ("confidence", PFloat (8 # 10)) ];
    PDict [ ("text", PStr "Stock market crashes"); ("topic", PStr "BUSINESS");
            ("confidence", PFloat (6 # 10)) ] ].

(** A label file of the form [{class: index}], keys in no particular order. *)
Definition class_to_index : list (string * pyval) :=
  [ ("SPORTS", PInt 1); ("BUSINESS", PInt 0) ].

(** A [config.json] that names its two labels. *)
Definition config : list (string * pyval) :=
  [ ("model_type", PStr "distilbert");
    ("id2label", PDict [ ("0", PStr "BUSINESS"); ("1", PStr "SPORTS") ]);
    ("num_labels", PInt 2) ].

Definition sync_cache : RedisCacheSync.t :=
  RedisCacheSync.init "redis://localhost:6379" 3600.

(** The world [startup] leaves on healthy servers: nine round trips (the
    ping, the pool, the test query and six DDL statements). *)
Definition started : World := set_calls 9 Double.healthy.

(** The bytes [b'\x80abc'], which are no UTF-8 text. *)
Definition invalid_utf8 : string := String "128"%char "abc".

(** Library functions whose [json.loads] decodes its input before it
    parses: on [invalid_utf8] it raises [UnicodeDecodeError], a
    [ValueError] that is no [JSONDecodeError]. *)
Definition decoding : Externals :=
  {| sha256_hexdigest := fun s => s;
     json_dumps := fun v => Ok (Double.render v);
     json_loads := fun s =>
       if String.eqb s invalid_utf8
       then Raise (ValueError "'utf-8' codec can't decode byte 0x80 in position 0")
       else Double.replay [] s;
     isoformat := fun q => Double.render (PFloat q);
     float_of_str := Double.decimal |}.

(** A store holding [invalid_utf8] under the key of [Scenario.apple], on
    a healthy server. *)
Definition undecodable_world : World :=
  set_store {[ "pred:Apple releases i" := (3600, invalid_utf8) ]} Double.healthy.

(** A cached document without its [confidence] and [probabilities], and
    a store that holds it under the key of [Scenario.apple]. *)
Definition partial_doc : pyval := PDict [ ("topic", PStr "TECH") ].

Definition partial_env : Externals := Double.externals [partial_doc].

Definition partial_hit_world : World :=
  set_store {[ "pred:Apple releases i" := (3600, Double.render partial_doc) ]}
            Double.healthy.

End Cases.

(** * Properties *)

(** ** Reasoning about the monad *)

Ltac py_unfold :=
  unfold try_except, bind, ret, raise, lift, gets, modify, round_trip,
         time_time, asyncio_sleep, create_task in *;
  cbn [fst snd] in *.

Lemma bind_ok {A B} (m : M A) (f : A -> M B) w a w' :
  m w = (Ok a, w') -> bind m f w = f a w'.
Proof. intros E. unfold bind. now rewrite E. Qed.

Lemma bind_raise {A B} (m : M A) (f : A -> M B) w e w' :
  m w = (Raise e, w') -> bind m f w = (Raise e, w').
Proof. intros E. unfold bind. now rewrite E. Qed.

Lemma try_ok {A} (m : M A) h w a w' :
  m w = (Ok a, w') -> try_except m h w = (Ok a, w').
Proof. intros E. unfold try_except. now rewrite E. Qed.

Lemma try_raise {A} (m : M A) h w e w' :
  m w = (Raise e, w') -> try_except m h w = h e w'.
Proof. intros E. unfold try_except. now rewrite E. Qed.

(** ** The cache layer: [set], [delete], [flush_all] *)

Section RedisOperations.
Context `{Externals}.

(** What [client_setex] answers, by the server's behaviour. *)
Lemma client_setex_run key ttl_ js w :
  RedisCache.client_setex key ttl_ js w =
  match oracle w (calls w) (ReqRedisSetex key ttl_ js) with
  | Served =>
      (Ok true, set_store (<[key := (ttl_, js)]> (store w)) (set_calls (S (calls w)) w))
  | Nak => (Ok false, set_calls (S (calls w)) w)
  | TimedOut => (Raise TimeoutError, set_calls (S (calls w)) w)
  | Failed m => (Raise (BackendError m), set_calls (S (calls w)) w)
  end.
Proof.
  unfold RedisCache.client_setex. py_unfold.
  destruct (oracle w (calls w) _); reflexivity.
Qed.

Lemma client_get_run key w :
  RedisCache.client_get key w =
  match oracle w (calls w) (ReqRedisGet key) with
  | Served => (Ok (snd <$> store w !! key), set_calls (S (calls w)) w)
  | Nak => (Ok None, set_calls (S (calls w)) w)
  | TimedOut => (Raise TimeoutError, set_calls (S (calls w)) w)
  | Failed m => (Raise (BackendError m), set_calls (S (calls w)) w)
  end.
Proof.
  unfold RedisCache.client_get. py_unfold.
  destruct (oracle w (calls w) _); reflexivity.
Qed.

Lemma client_delete_run key w :
  RedisCache.client_delete key w =
  match oracle w (calls w) (ReqRedisDelete key) with
  | Served =>
      (Ok (match store w !! key with Some _ => 1 | None => 0 end),
       set_store (delete key (store w)) (set_calls (S (calls w)) w))
  | Nak => (Ok 0, set_calls (S (calls w)) w)
  | TimedOut => (Raise TimeoutError, set_calls (S (calls w)) w)
  | Failed m => (Raise (BackendError m), set_calls (S (calls w)) w)
  end.
Proof.
  unfold RedisCache.client_delete. py_unfold.
  destruct (oracle w (calls w) _); reflexivity.
Qed.

(** [set] never raises. *)
Lemma set_total self text prediction w :
  exists b, fst (RedisCache.set self text prediction w) = Ok b.
Proof.
  unfold RedisCache.set.
  destruct (negb (RedisCache.usable self)); [eexists; reflexivity |].
  unfold try_except, bind, lift.
  destruct (json_dumps prediction) as [js | e]; cbn.
  - destruct (oracle w (calls w) _); cbn; eexists; reflexivity.
  - destruct e; cbn; eexists; reflexivity.
Qed.

(** C2, as amended: [set] always returns a boolean.  It is [true] when
    the layer is disconnected, when the write times out, when the client
    raises and when serialisation raises anything but a JSON decode error;
    it is [false] when the server answers the write with a falsy reply
    (and on a JSON decode error); otherwise it is [true] and the entry is
    stored. *)
Theorem set_result_by_failure_mode self text prediction w :
  fst (RedisCache.set self text prediction w) =
  Ok (if negb (RedisCache.usable self) then true
      else match json_dumps prediction with
           | Raise JSONDecodeError => false
           | Raise _ => true
           | Ok js =>
               match oracle w (calls w)
                       (ReqRedisSetex (RedisCache._generate_key text)
                                      (RedisCache.ttl self) js) with
               | Nak => false
               | Served | TimedOut | Failed _ => true
               end
           end).
Proof.
  unfold RedisCache.set.
  destruct (negb (RedisCache.usable self)); [reflexivity |].
  unfold try_except, bind, lift.
  destruct (json_dumps prediction) as [js | e]; cbn.
  - destruct (oracle w (calls w) _); reflexivity.
  - destruct e; reflexivity.
Qed.

(** C8, as amended: [delete] returns [true] in every case; [flush_all]
    returns [false] when the layer is disconnected or the client raises,
    and [true] when the call comes back. *)
Theorem delete_and_flush_all_results self text w :
  fst (RedisCache.delete self text w) = Ok true /\
  fst (RedisCache.flush_all self w) =
  Ok (RedisCache.usable self &&
      match oracle w (calls w) ReqRedisFlushdb with
      | Served | Nak => true
      | TimedOut | Failed _ => false
      end).
Proof.
  split.
  - unfold RedisCache.delete.
    destruct (negb (RedisCache.usable self)); [reflexivity |].
    unfold try_except, bind. rewrite client_delete_run.
    destruct (oracle w (calls w) _); reflexivity.
  - unfold RedisCache.flush_all.
    destruct (RedisCache.usable self); [| reflexivity]. cbn [negb andb].
    unfold RedisCache.client_flushdb. py_unfold.
    destruct (oracle w (calls w) _); reflexivity.
Qed.

End RedisOperations.

(** C2, as stated, fails: on a connected layer whose server answers the
    write with a falsy reply, [set] returns [false]. *)
Lemma set_returns_false_on_falsy_reply :
  fst (@RedisCache.set (Double.externals []) Double.connected_cache
         "Apple releases iPhone" (PDict [("topic", PStr "TECH")])
         (Double.world (fun _ _ => Nak)))
  = Ok false.
Proof. vm_compute. reflexivity. Qed.

(** C8, as stated, fails for [delete]: on a disconnected layer, and on a
    connected one whose client raises, it still returns [true]. *)
Lemma delete_returns_true_without_deleting :
  fst (@RedisCache.delete (Double.externals [])
         (RedisCache.init "redis://localhost:6379" 3600 10)
         "Apple releases iPhone" Double.healthy)
  = Ok true /\
  fst (@RedisCache.delete (Double.externals []) Double.connected_cache
         "Apple releases iPhone" (Double.world (fun _ _ => Failed "connection reset")))
  = Ok true.
Proof. split; vm_compute; reflexivity. Qed.

(** ** The cache layer: [get] *)

Section RedisGet.
Context `{Externals}.

(** [get], branch by branch. *)
Lemma get_run self text w :
  RedisCache.get self text w =
  if negb (RedisCache.usable self) then (Ok PNone, w)
  else
    match oracle w (calls w) (ReqRedisGet (RedisCache._generate_key text)) with
    | Served =>
        match store w !! RedisCache._generate_key text with
        | Some (_, js) =>
            if str_truthy js then
              match json_loads js with
              | Ok v => (Ok v, set_calls (S (calls w)) w)
              | Raise JSONDecodeError =>
                  (Ok PNone,
                   snd (RedisCache.client_delete (RedisCache._generate_key text)
                          (set_calls (S (calls w)) w)))
              | Raise _ => (Ok PNone, set_calls (S (calls w)) w)
              end
            else (Ok PNone, set_calls (S (calls w)) w)
        | None => (Ok PNone, set_calls (S (calls w)) w)
        end
    | _ => (Ok PNone, set_calls (S (calls w)) w)
    end.
Proof.
  unfold RedisCache.get.
  destruct (negb (RedisCache.usable self)); [reflexivity |].
  unfold try_except at 1. unfold bind at 1. rewrite client_get_run.
  destruct (oracle w (calls w) _); cbn -[RedisCache.client_delete]; try reflexivity.
  destruct (store w !! RedisCache._generate_key text) as [[? js] |];
    cbn -[RedisCache.client_delete]; [| reflexivity].
  destruct (str_truthy js); [| reflexivity].
  unfold lift. destruct (json_loads js) as [v | e]; [reflexivity |].
  destruct e; try reflexivity.
  unfold bind, try_except.
  destruct (RedisCache.client_delete _ _) as [[? | ?] ?]; reflexivity.
Qed.

(** [get] never raises: every failure is turned into [None]. *)
Lemma get_total self text w :
  exists v, fst (RedisCache.get self text w) = Ok v.
Proof.
  rewrite get_run.
  repeat match goal with
         | |- context [match ?x with _ => _ end] => destruct x
         end; eexists; reflexivity.
Qed.

(** [get] returns [None], or the deserialised payload stored under the key. *)
Lemma get_cases self text w :
  fst (RedisCache.get self text w) = Ok PNone \/
  exists ttl_ js v,
    store w !! RedisCache._generate_key text = Some (ttl_, js) /\
    json_loads js = Ok v /\
    fst (RedisCache.get self text w) = Ok v.
Proof.
  rewrite get_run.
  destruct (negb (RedisCache.usable self)); [left; reflexivity |].
  destruct (oracle w (calls w) _); try (left; reflexivity).
  destruct (store w !! RedisCache._generate_key text) as [[ttl_ js] |];
    [| left; reflexivity].
  destruct (str_truthy js); [| left; reflexivity].
  destruct (json_loads js) as [v | e] eqn:El.
  - right. exists ttl_, js, v. auto.
  - left. destruct e; reflexivity.
Qed.

(** A [get] that finds nothing under the key returns [None] after a
    single round trip and leaves the store alone, whatever the server
    does with that round trip. *)
Lemma get_absent self text w :
  RedisCache.usable self = true ->
  store w !! RedisCache._generate_key text = None ->
  RedisCache.get self text w = (Ok PNone, set_calls (S (calls w)) w).
Proof.
  intros Hu Hs. rewrite get_run, Hu, Hs. cbn [negb].
  destruct (oracle w (calls w) _); reflexivity.
Qed.

(** The corruption branch: the stored payload is truthy and [json.loads]
    rejects it; the server serves the read and the delete. *)
Lemma get_corrupt self text w ttl_ js :
  RedisCache.usable self = true ->
  store w !! RedisCache._generate_key text = Some (ttl_, js) ->
  str_truthy js = true ->
  json_loads js = Raise JSONDecodeError ->
  oracle w (calls w) (ReqRedisGet (RedisCache._generate_key text)) = Served ->
  oracle w (S (calls w)) (ReqRedisDelete (RedisCache._generate_key text)) = Served ->
  RedisCache.get self text w =
  (Ok PNone,
   set_store (delete (RedisCache._generate_key text) (store w))
             (set_calls (S (S (calls w))) w)).
Proof.
  intros Hu Hs Ht Hl Hg Hd. rewrite get_run, Hu, Hg, Hs, Ht, Hl. cbn [negb].
  rewrite client_delete_run. cbn [calls oracle store set_calls]. rewrite Hd. reflexivity.
Qed.

(** The delete of the corruption branch is best effort: when the server
    does not serve it, [get] still returns [None] and the entry stays. *)
Lemma get_corrupt_delete_not_served self text w ttl_ js :
  RedisCache.usable self = true ->
  store w !! RedisCache._generate_key text = Some (ttl_, js) ->
  str_truthy js = true ->
  json_loads js = Raise JSONDecodeError ->
  oracle w (calls w) (ReqRedisGet (RedisCache._generate_key text)) = Served ->
  oracle w (S (calls w)) (ReqRedisDelete (RedisCache._generate_key text)) <> Served ->
  fst (RedisCache.get self text w) = Ok PNone /\
  store (snd (RedisCache.get self text w)) = store w.
Proof.
  intros Hu Hs Ht Hl Hg Hd. rewrite get_run, Hu, Hg, Hs, Ht, Hl. cbn [negb].
  rewrite client_delete_run. cbn [calls oracle store set_calls].
  destruct (oracle w (S (calls w)) _); [contradiction | ..]; split; reflexivity.
Qed.

(** Only [JSONDecodeError] triggers the delete: a payload that
    [json.loads] rejects with another exception is reported absent and
    left in the store. *)
Lemma get_other_decoding_error_keeps_entry self text w ttl_ js e :
  RedisCache.usable self = true ->
  store w !! RedisCache._generate_key text = Some (ttl_, js) ->
  str_truthy js = true ->
  json_loads js = Raise e ->
  e <> JSONDecodeError ->
  oracle w (calls w) (ReqRedisGet (RedisCache._generate_key text)) = Served ->
  RedisCache.get self text w = (Ok PNone, set_calls (S (calls w)) w).
Proof.
  intros Hu Hs Ht Hl He Hg. rewrite get_run, Hu, Hg, Hs, Ht, Hl. cbn [negb].
  destruct e; try reflexivity. contradiction.
Qed.

(** C4, amended: when [get] finds a non-empty stored value on which
    [json.loads] raises, and the server serves the read, it returns
    [None].  If the exception is a [JSONDecodeError] and the server
    serves the delete, the entry is deleted from the store (two round
    trips: the read and the delete) and the next [get] for the same text
    returns [None] again after the read alone, with no second delete:
    the corruption branch is not taken again.  If [json.loads] raises
    another exception, or the delete is not served, the entry stays in
    the store. *)
Theorem corrupted_entry_self_heals self text w ttl_ js e :
  RedisCache.usable self = true ->
  store w !! RedisCache._generate_key text = Some (ttl_, js) ->
  str_truthy js = true ->
  json_loads js = Raise e ->
  oracle w (calls w) (ReqRedisGet (RedisCache._generate_key text)) = Served ->
  fst (RedisCache.get self text w) = Ok PNone /\
  (e = JSONDecodeError /\
   oracle w (S (calls w)) (ReqRedisDelete (RedisCache._generate_key text)) = Served ->
   store (snd (RedisCache.get self text w))
     = delete (RedisCache._generate_key text) (store w) /\
   calls (snd (RedisCache.get self text w)) = S (S (calls w)) /\
   fst (RedisCache.get self text (snd (RedisCache.get self text w))) = Ok PNone /\
   store (snd (RedisCache.get self text (snd (RedisCache.get self text w))))
     = store (snd (RedisCache.get self text w)) /\
   calls (snd (RedisCache.get self text (snd (RedisCache.get self text w))))
     = S (calls (snd (RedisCache.get self text w)))) /\
  (e <> JSONDecodeError \/
   oracle w (S (calls w)) (ReqRedisDelete (RedisCache._generate_key text)) <> Served ->
   store (snd (RedisCache.get self text w)) = store w).
Proof.
  intros Hu Hs Ht Hl Hg. split; [| split].
  - destruct (get_cases self text w) as [Hn | (ttl' & js' & v & Hs' & Hl' & _)];
      [exact Hn |].
    rewrite Hs in Hs'. injection Hs' as <- <-. congruence.
  - intros [-> Hd].
    rewrite (get_corrupt self text w ttl_ js Hu Hs Ht Hl Hg Hd). cbn [fst snd].
    rewrite get_absent; [| exact Hu | cbn; apply lookup_delete_eq].
    repeat split; reflexivity.
  - intros [He | Hd].
    + rewrite (get_other_decoding_error_keeps_entry self text w ttl_ js e
                 Hu Hs Ht Hl He Hg).
      reflexivity.
    + destruct e;
        try (rewrite (get_other_decoding_error_keeps_entry self text w ttl_ js _
                        Hu Hs Ht Hl ltac:(discriminate) Hg);
             reflexivity).
      apply (get_corrupt_delete_not_served self text w ttl_ js Hu Hs Ht Hl Hg Hd).
Qed.

(** A value written by [set] is what the next [get] for the same text
    returns, when the server serves both round trips and [json.loads]
    inverts [json.dumps] on the value. *)
Lemma set_then_get self text v js w :
  RedisCache.usable self = true ->
  json_dumps v = Ok js ->
  str_truthy js = true ->
  json_loads js = Ok v ->
  oracle w (calls w)
    (ReqRedisSetex (RedisCache._generate_key text) (RedisCache.ttl self) js)
    = Served ->
  oracle w (S (calls w)) (ReqRedisGet (RedisCache._generate_key text)) = Served ->
  fst (RedisCache.set self text v w) = Ok true /\
  fst (RedisCache.get self text (snd (RedisCache.set self text v w))) = Ok v.
Proof.
  intros Hu Hd Ht Hl Hs Hg.
  assert (Hset : RedisCache.set self text v w =
                 (Ok true,
                  set_store (<[RedisCache._generate_key text
                               := (RedisCache.ttl self, js)]> (store w))
                            (set_calls (S (calls w)) w))).
  { unfold RedisCache.set. rewrite Hu. cbn [negb].
    unfold try_except, bind, lift. rewrite Hd. rewrite client_setex_run, Hs.
    reflexivity. }
  rewrite Hset. cbn [fst snd]. split; [reflexivity |].
  rewrite get_run, Hu. cbn [negb calls oracle store set_store set_calls].
  rewrite Hg, lookup_insert_eq, Ht, Hl. reflexivity.
Qed.

End RedisGet.

Lemma corrupted_entry_self_heals_witness :
  fst (@RedisCache.get (Double.externals []) Double.connected_cache
         "Apple releases iPhone" Scenario.corrupted_world) = Ok PNone /\
  store (snd (@RedisCache.get (Double.externals []) Double.connected_cache
                "Apple releases iPhone" Scenario.corrupted_world)) = ∅.
Proof.
  destruct (@corrupted_entry_self_heals (Double.externals [])
              Double.connected_cache "Apple releases iPhone" Scenario.corrupted_world
              3600 "{not json" JSONDecodeError)
    as (H1 & H2 & _); try (vm_compute; reflexivity).
  split; [exact H1 |].
  destruct (H2 (conj eq_refl eq_refl)) as (H3 & _).
  rewrite H3. vm_compute. reflexivity.
Defined.

(** C4, as stated, fails: a stored value that is no UTF-8 text fails
    deserialisation with [UnicodeDecodeError], which the handler of
    [JSONDecodeError] does not catch.  [get] returns [None] after the
    read alone and leaves the entry in the store; the next [get] for the
    same text finds it and fails on it again. *)
Lemma undecodable_entry_is_not_deleted :
  @json_loads Cases.decoding Cases.invalid_utf8
  = Raise (ValueError "'utf-8' codec can't decode byte 0x80 in position 0") /\
  fst (@RedisCache.get Cases.decoding Double.connected_cache
         Scenario.apple Cases.undecodable_world) = Ok PNone /\
  store (snd (@RedisCache.get Cases.decoding Double.connected_cache
                Scenario.apple Cases.undecodable_world))
    !! @RedisCache._generate_key Cases.decoding Scenario.apple
  = Some (3600, Cases.invalid_utf8) /\
  calls (snd (@RedisCache.get Cases.decoding Double.connected_cache
                Scenario.apple Cases.undecodable_world)) = 1%nat /\
  fst (@RedisCache.get Cases.decoding Double.connected_cache Scenario.apple
         (snd (@RedisCache.get Cases.decoding Double.connected_cache
                 Scenario.apple Cases.undecodable_world))) = Ok PNone /\
  store (snd (@RedisCache.get Cases.decoding Double.connected_cache Scenario.apple
                (snd (@RedisCache.get Cases.decoding Double.connected_cache
                        Scenario.apple Cases.undecodable_world))))
    !! @RedisCache._generate_key Cases.decoding Scenario.apple
  = Some (3600, Cases.invalid_utf8).
Proof. vm_compute. repeat split; reflexivity. Qed.

(** ** Cache transparency of [predict] *)

Section Transparency.
Context `{Externals}.

Lemma answer_make_response title t c p latency cached :
  Spec.answer (Api.make_response title t c p latency cached) = Spec.fields t c p.
Proof.
  unfold Spec.fields, Api.make_response.
  destruct (Api.validate_str t); [| reflexivity].
  destruct (Api.validate_float c); [| reflexivity].
  destruct (Api.validate_dict p); reflexivity.
Qed.

(** The inference path answers as the model does, in any world. *)
Lemma from_model_answer g m request start_time cached w :
  Spec.answer (fst (Api.from_model g m request start_time cached w))
  = Spec.model_answer m (Api.title request).
Proof.
  unfold Api.from_model, Spec.model_answer, Api.prediction_result.
  unfold bind at 1. unfold lift at 1.
  destruct (BERT.predict m (Api.title request)) as [r | e]; [| reflexivity].
  unfold bind at 1. unfold lift at 1.
  destruct (py_getitem r "topic") as [t | e] eqn:Et; [| reflexivity].
  destruct (py_getitem r "confidence") as [c | e] eqn:Ec; [| reflexivity].
  destruct (py_getitem r "probabilities") as [p | e] eqn:Ep; [| reflexivity].
  destruct (Api.redis_cache g) as [rc |], (Api.postgres_logger g) as [pl |];
    try destruct (RedisCache.is_connected rc);
    py_unfold; rewrite ?Et, ?Ec, ?Ep; cbn;
    apply answer_make_response.
Qed.

(** With [use_cache] off the lookup step does nothing. *)
Lemma try_cache_off g text start_time w :
  Api.try_cache g (Api.mkRequest text false) start_time w
  = (Ok (None, false), w).
Proof.
  unfold Api.try_cache. destruct (Api.redis_cache g); reflexivity.
Qed.

(** The lookup step never raises; when it returns a response, that
    response carries the model's answer, provided the entry under the
    key was stored by [set] for this text. *)
Lemma try_cache_hit_answer g m text start_time w :
  Spec.round_trips m text ->
  Spec.stored_by_set m text w ->
  exists o cached w',
    Api.try_cache g (Api.mkRequest text true) start_time w
    = (Ok (o, cached), w') /\
    forall resp, o = Some resp -> Spec.answer (Ok resp) = Spec.model_answer m text.
Proof.
  intros Hrt Hst. unfold Api.try_cache. cbn [Api.use_cache Api.title andb].
  destruct (Api.redis_cache g) as [rc |];
    [| exists None, false, w; split; [reflexivity | discriminate]].
  destruct (RedisCache.is_connected rc);
    [| exists None, false, w; split; [reflexivity | discriminate]].
  unfold try_except at 1. unfold bind at 1.
  destruct (RedisCache.get rc text w) as [r1 w1] eqn:Eg.
  destruct (get_cases rc text w) as [Hn | (ttl_ & js & v & Hs & Hl & Hv)];
    rewrite Eg in *; cbn [fst] in *; subst r1.
  - cbn. exists None, false, w1. split; [reflexivity | discriminate].
  - destruct (Hst _ _ Hs) as (r & v' & Hp & Hr & Hd).
    assert (v = v') as <-.
    { specialize (Hrt r v' js Hp Hr Hd). congruence. }
    unfold Api.prediction_result in Hr.
    destruct (py_getitem r "topic") as [t | e] eqn:Et; [| discriminate].
    destruct (py_getitem r "confidence") as [c | e] eqn:Ec; [| discriminate].
    destruct (py_getitem r "probabilities") as [p | e] eqn:Ep; [| discriminate].
    injection Hr as <-. cbn. unfold try_except, bind, lift, time_time. cbn.
    destruct (Api.make_response text t c p _ true) as [resp | e] eqn:Em.
    + eexists _, _, _. split; [reflexivity |].
      intros resp' [= <-].
      change (Spec.answer (Ok resp) = Spec.model_answer m text).
      rewrite <- Em, answer_make_response.
      unfold Spec.model_answer. now rewrite Hp, Et, Ec, Ep.
    + eexists None, _, _. split; [reflexivity | discriminate].
Qed.

(** The API-key check, run. *)
Lemma key_check_run g (api_key : option string) w :
  match api_key with
  | Some k =>
      if str_truthy k && negb (String.eqb k (Api.api_key g))
      then raise (HTTPException 403 "Invalid API key")
      else ret tt
  | None => ret tt
  end w
  = (if Spec.key_rejected g api_key
     then Raise (HTTPException 403 "Invalid API key") else Ok tt, w).
Proof.
  unfold Spec.key_rejected.
  destruct api_key as [k |]; [destruct (_ && _) |]; reflexivity.
Qed.

(** [predict], stage by stage. *)
Lemma predict_run g m request api_key w :
  Api.model g = Some m ->
  Api.predict g request api_key w =
  if Spec.key_rejected g api_key
  then (Raise (HTTPException 403 "Invalid API key"), w)
  else
    match Api.try_cache g request (clock w (reads w))
                        (set_reads (S (reads w)) w) with
    | (Ok (Some r, _), w1) => (Ok r, w1)
    | (Ok (None, cached), w1) =>
        match Api.from_model g m request (clock w (reads w)) cached w1 with
        | (Ok r, w2) => (Ok r, w2)
        | (Raise e, w2) => (Raise (HTTPException 500 (exn_str e)), w2)
        end
    | (Raise e, w1) => (Raise (HTTPException 500 (exn_str e)), w1)
    end.
Proof.
  intros Hm. unfold Api.predict. rewrite Hm.
  unfold bind at 1. rewrite key_check_run.
  destruct (Spec.key_rejected g api_key); [reflexivity |].
  unfold try_except.
  rewrite (bind_ok time_time _ w _ _ eq_refl).
  unfold bind.
  destruct (Api.try_cache g request _ _) as [[[[r |] cached] | e] w1];
    reflexivity.
Qed.

(** With [use_cache] off, [predict] answers as the model does. *)
Lemma predict_answer_uncached g m text api_key w :
  Api.model g = Some m ->
  Spec.answer (fst (Api.predict g (Api.mkRequest text false) api_key w))
  = Spec.expected_answer g m text api_key.
Proof.
  intros Hm. rewrite (predict_run g m _ api_key w Hm).
  unfold Spec.expected_answer.
  destruct (Spec.key_rejected g api_key); [reflexivity |].
  rewrite try_cache_off.
  pose proof (from_model_answer g m (Api.mkRequest text false)
                (clock w (reads w)) false (set_reads (S (reads w)) w)) as Hoff.
  cbn [Api.title] in Hoff. rewrite <- Hoff.
  destruct (Api.from_model g m (Api.mkRequest text false) _ _ _) as [[r | e] w2];
    reflexivity.
Qed.

(** With [use_cache] on, [predict] answers as the model does whenever
    the entry under the text's key was stored by [set] for that text. *)
Lemma predict_answer_cached g m text api_key w :
  Api.model g = Some m ->
  Spec.round_trips m text ->
  Spec.stored_by_set m text w ->
  Spec.answer (fst (Api.predict g (Api.mkRequest text true) api_key w))
  = Spec.expected_answer g m text api_key.
Proof.
  intros Hm Hrt Hst. rewrite (predict_run g m _ api_key w Hm).
  unfold Spec.expected_answer.
  destruct (Spec.key_rejected g api_key); [reflexivity |].
  destruct (try_cache_hit_answer g m text (clock w (reads w))
              (set_reads (S (reads w)) w) Hrt Hst)
    as (o & cached & w' & -> & Ho).
  destruct o as [resp |].
  - rewrite <- (Ho resp eq_refl). reflexivity.
  - pose proof (from_model_answer g m (Api.mkRequest text true)
                  (clock w (reads w)) cached w') as Hon.
    cbn [Api.title] in Hon. rewrite <- Hon.
    destruct (Api.from_model g m (Api.mkRequest text true) _ _ _) as [[r | e] w2];
      reflexivity.
Qed.

(** C1: for every text, [predict] answers with the same topic,
    confidence and probabilities (or the same error) with [use_cache]
    on and off, whenever the value cached under the text's key, if any,
    was stored by [set] for that text; only [cached] and [latency_ms]
    differ.  A cache hit in particular equals what the model produces. *)
Theorem cache_transparency g m text api_key w :
  Api.model g = Some m ->
  Spec.round_trips m text ->
  Spec.stored_by_set m text w ->
  Spec.answer (fst (Api.predict g (Api.mkRequest text true) api_key w))
  = Spec.answer (fst (Api.predict g (Api.mkRequest text false) api_key w)).
Proof.
  intros Hm Hrt Hst.
  rewrite (predict_answer_cached g m text api_key w Hm Hrt Hst).
  rewrite (predict_answer_uncached g m text api_key w Hm).
  reflexivity.
Qed.

(** The store after [set]: the entry is written exactly when the layer
    is connected, the value serialises and the server serves the write. *)
Lemma set_store_after self text v w :
  store (snd (RedisCache.set self text v w)) =
  if negb (RedisCache.usable self) then store w
  else match json_dumps v with
       | Ok js =>
           match oracle w (calls w)
                   (ReqRedisSetex (RedisCache._generate_key text)
                                  (RedisCache.ttl self) js) with
           | Served =>
               <[RedisCache._generate_key text := (RedisCache.ttl self, js)]>
                 (store w)
           | _ => store w
           end
       | Raise _ => store w
       end.
Proof.
  unfold RedisCache.set.
  destruct (negb (RedisCache.usable self)); [reflexivity |].
  unfold try_except, bind, lift.
  destruct (json_dumps v) as [js | e]; cbn.
  - destruct (oracle w (calls w) _); reflexivity.
  - destruct e; reflexivity.
Qed.

(** An empty cache holds nothing that [set] did not store. *)
Lemma stored_by_set_empty m text w :
  store w = ∅ -> Spec.stored_by_set m text w.
Proof. intros E ttl_ js Hs. rewrite E, lookup_empty in Hs. discriminate. Qed.

(** Populating the cache for a text with the model's answer on that text
    keeps the entry under its key one that [set] stored for it. *)
Lemma set_keeps_stored_by_set self m text r v w :
  BERT.predict m text = Ok r ->
  Api.prediction_result r = Ok v ->
  Spec.stored_by_set m text w ->
  Spec.stored_by_set m text (snd (RedisCache.set self text v w)).
Proof.
  intros Hp Hr Hst ttl_ js. rewrite set_store_after.
  destruct (negb (RedisCache.usable self)); [apply Hst |].
  destruct (json_dumps v) as [js' | e] eqn:Ed; [| apply Hst].
  destruct (oracle w (calls w) _); try apply Hst.
  rewrite lookup_insert_eq. intros [= <- <-]. eauto.
Qed.

(** *** The invariant behind the hypothesis

    From an empty cache, requests and background tasks only ever put the
    model's own answers under a text's key, as long as keys do not
    collide. *)

Lemma get_effect self text w :
  (forall k v, store (snd (RedisCache.get self text w)) !! k = Some v ->
               store w !! k = Some v) /\
  tasks (snd (RedisCache.get self text w)) = tasks w.
Proof.
  rewrite get_run.
  destruct (negb (RedisCache.usable self)); [split; auto |].
  destruct (oracle w (calls w) _); try (split; auto; fail).
  destruct (store w !! RedisCache._generate_key text) as [[ttl_ js] |];
    [| split; auto].
  destruct (str_truthy js); [| split; auto].
  destruct (json_loads js) as [v | e]; [split; auto |].
  destruct e; try (split; auto; fail).
  rewrite client_delete_run. cbn [oracle calls store set_calls].
  destruct (oracle w (S (calls w)) _); cbn; split; auto.
  intros k v Hk. apply lookup_delete_Some in Hk. tauto.
Qed.

Lemma try_cache_effect g request start_time w :
  (forall k v, store (snd (Api.try_cache g request start_time w)) !! k = Some v ->
               store w !! k = Some v) /\
  tasks (snd (Api.try_cache g request start_time w)) = tasks w.
Proof.
  unfold Api.try_cache.
  destruct (Api.redis_cache g) as [rc |]; [| split; auto].
  destruct (_ && _); [| split; auto].
  destruct (get_effect rc (Api.title request) w) as [Hs Ht].
  unfold try_except, bind.
  destruct (RedisCache.get rc (Api.title request) w) as [[v | e] w1];
    cbn [snd] in *; [| split; auto].
  destruct (truthy v); [| split; auto].
  unfold try_except, bind, time_time, lift.
  destruct (py_getitem v "topic"); cbn; [| split; auto].
  destruct (py_getitem v "confidence"); cbn; [| split; auto].
  destruct (py_getitem v "probabilities"); cbn; [| split; auto].
  destruct (Api.make_response _ _ _ _ _ _); cbn; split; auto.
Qed.

Lemma from_model_effect served g m request start_time cached w :
  served (Api.title request) ->
  store (snd (Api.from_model g m request start_time cached w)) = store w /\
  exists new,
    tasks (snd (Api.from_model g m request start_time cached w))
    = (tasks w ++ new)%list /\
    Forall (Spec.task_from_model served m) new.
Proof.
  intros Hserved.
  assert (Hnil : forall w0 : World, exists new,
             tasks w0 = (tasks w0 ++ new)%list /\
             Forall (Spec.task_from_model served m) new).
  { intros w0. exists []. split; [now rewrite app_nil_r | constructor]. }
  unfold Api.from_model. py_unfold.
  destruct (BERT.predict m (Api.title request)) as [r | e] eqn:Ep;
    [| split; [reflexivity | apply Hnil]].
  destruct (Api.prediction_result r) as [v | e] eqn:Er;
    [| split; [reflexivity | apply Hnil]].
  assert (Hgood : Spec.task_from_model served m
                    (TaskCacheSet (Api.title request) v))
    by (cbn; eauto).
  unfold Api.prediction_result in Er.
  destruct (py_getitem r "topic") as [t | ?]; [| discriminate].
  destruct (py_getitem r "confidence") as [c | ?]; [| discriminate].
  destruct (py_getitem r "probabilities") as [p0 | ?]; [| discriminate].
  destruct (Api.redis_cache g) as [rc |], (Api.postgres_logger g) as [pl |];
    try destruct (RedisCache.is_connected rc);
    cbn -[Api.make_response];
    (split; [reflexivity |]);
    first [ apply Hnil
          | rewrite <- ?app_assoc; eexists; split;
            [ reflexivity
            | repeat (apply List.Forall_cons; [first [exact Hgood | exact I] |]);
              apply List.Forall_nil ] ].
Qed.

Lemma predict_effect served g m request api_key w :
  Api.model g = Some m ->
  served (Api.title request) ->
  (forall k v, store (snd (Api.predict g request api_key w)) !! k = Some v ->
               store w !! k = Some v) /\
  exists new,
    tasks (snd (Api.predict g request api_key w)) = (tasks w ++ new)%list /\
    Forall (Spec.task_from_model served m) new.
Proof.
  intros Hm Hserved.
  assert (Hnil : exists new,
             tasks w = (tasks w ++ new)%list /\
             Forall (Spec.task_from_model served m) new).
  { exists []. split; [now rewrite app_nil_r | constructor]. }
  rewrite (predict_run g m request api_key w Hm).
  destruct (Spec.key_rejected g api_key); [split; auto |].
  destruct (try_cache_effect g request (clock w (reads w))
              (set_reads (S (reads w)) w)) as [Hs Ht].
  destruct (Api.try_cache g request _ _) as [[[[resp |] cached] | e] w1];
    cbn [snd store tasks set_reads] in *.
  - split; [exact Hs |]. rewrite Ht. apply Hnil.
  - destruct (from_model_effect served g m request (clock w (reads w)) cached w1
                Hserved) as [Hs2 (new & Ht2 & Hnew)].
    destruct (Api.from_model g m request _ _ w1) as [[r | e] w2];
      cbn [snd] in *; (split; [rewrite Hs2; exact Hs |]);
      exists new; rewrite Ht2, Ht; auto.
  - split; [exact Hs |]. rewrite Ht. apply Hnil.
Qed.

(** The logger's write touches neither the cache nor the task list. *)
Lemma log_prediction_effect pl text p c latency ip ua version cached w :
  store (snd (PostgresLogger.log_prediction pl text p c latency ip ua version
                cached w)) = store w /\
  tasks (snd (PostgresLogger.log_prediction pl text p c latency ip ua version
                cached w)) = tasks w.
Proof.
  unfold PostgresLogger.log_prediction.
  destruct (negb (PostgresLogger.usable pl)); [split; reflexivity |].
  unfold try_except, bind, lift.
  destruct p; try (split; reflexivity).
  destruct (PostgresLogger.py_float c) as [q | e];
    [| destruct e; split; reflexivity].
  unfold PostgresLogger.pg_insert, PostgresLogger.pg_command. py_unfold.
  destruct (oracle w (calls w) _), (PostgresLogger.format_percent c) as [[] | []];
    split; reflexivity.
Qed.

(** [set] leaves the task list alone. *)
Lemma set_tasks_after self text v w :
  tasks (snd (RedisCache.set self text v w)) = tasks w.
Proof.
  unfold RedisCache.set.
  destruct (negb (RedisCache.usable self)); [reflexivity |].
  unfold try_except, bind, lift.
  destruct (json_dumps v) as [js | e]; cbn.
  - destruct (oracle w (calls w) _); reflexivity.
  - destruct e; reflexivity.
Qed.

(** Every step of the serving process keeps the cache coherent with the
    model. *)
Lemma step_keeps_coherent served g m w w' :
  Api.model g = Some m ->
  Spec.collision_free served ->
  Spec.coherent served m w ->
  Spec.step served g w w' ->
  Spec.coherent served m w'.
Proof.
  intros Hm Hcf [Hst Htk] Hstep.
  destruct Hstep as [request api_key w Hserved | w].
  - destruct (predict_effect served g m request api_key w Hm Hserved)
      as [Hs (new & Ht & Hnew)].
    split.
    + intros text Hp ttl_ js Hk. apply (Hst text Hp ttl_ js), Hs, Hk.
    + rewrite Ht. apply Forall_app. auto.
  - unfold Api.run_next_task. unfold bind at 1. unfold gets at 1.
    destruct (tasks w) as [| t rest] eqn:Etasks.
    { cbn. split; [exact Hst | rewrite Etasks; constructor]. }
    apply Forall_cons in Htk as [Ht Hrest].
    unfold bind, modify, Api.run_task.
    destruct t as [text v | text p c latency version cached].
    + destruct (Api.redis_cache g) as [rc |];
        [| split; [exact Hst | exact Hrest]].
      unfold try_except, bind.
      pose proof (set_store_after rc text v (set_tasks rest w)) as Hstore.
      pose proof (set_tasks_after rc text v (set_tasks rest w)) as Htasks.
      cbn [tasks set_tasks] in Htasks.
      destruct (RedisCache.set rc text v (set_tasks rest w)) as [[b | e] w1];
        cbn [snd] in *.
      all: split; [| cbn; rewrite Htasks; exact Hrest].
      all: intros text' Hp' ttl_ js; cbn; rewrite Hstore; cbn [store set_tasks].
      all: destruct (negb (RedisCache.usable rc)); [apply Hst, Hp' |].
      all: destruct (json_dumps v) as [js' | e'] eqn:Ed; [| apply Hst, Hp'].
      all: destruct (oracle _ _ _); try apply Hst, Hp'.
      all: destruct (decide (RedisCache._generate_key text
                             = RedisCache._generate_key text')) as [Hk | Hk].
      all: try (rewrite lookup_insert_ne by exact Hk; apply Hst, Hp').
      all: rewrite Hk, lookup_insert_eq; intros [= <- <-];
        destruct Ht as (Hp & r & Hr1 & Hr2);
        apply (Hcf text text' Hp Hp') in Hk; subst text'; eauto.
    + destruct (Api.postgres_logger g) as [pl |];
        [| split; [exact Hst | exact Hrest]].
      unfold try_except, bind.
      destruct (log_prediction_effect pl text p c latency None None version
                  cached (set_tasks rest w)) as [Hstore Htasks].
      cbn [tasks set_tasks] in Htasks.
      destruct (PostgresLogger.log_prediction _ _ _ _ _ _ _ _ _ _)
        as [[b | e] w1]; cbn [snd] in *.
      all: split; [| cbn; rewrite Htasks; exact Hrest].
      all: intros text' Hp' ttl_ js; cbn; rewrite Hstore; apply Hst, Hp'.
Qed.

(** Hence, in every world the process reaches from a coherent one (an
    empty cache with no pending task, say) by serving texts whose keys do
    not collide, caching is transparent for every served text. *)
Lemma reachable_worlds_are_transparent served g m w w' text api_key :
  Api.model g = Some m ->
  Spec.collision_free served ->
  (forall t, served t -> Spec.round_trips m t) ->
  Spec.coherent served m w ->
  rtc (Spec.step served g) w w' ->
  served text ->
  Spec.answer (fst (Api.predict g (Api.mkRequest text true) api_key w'))
  = Spec.answer (fst (Api.predict g (Api.mkRequest text false) api_key w')).
Proof.
  intros Hm Hcf Hrt Hco Hreach Hserved.
  assert (Hco' : Spec.coherent served m w').
  { induction Hreach as [| x y z Hxy _ IH]; [exact Hco |].
    apply IH. eapply step_keeps_coherent; eauto. }
  destruct Hco' as [Hst _].
  rewrite (predict_answer_cached g m text api_key w' Hm (Hrt text Hserved)
             (Hst text Hserved)).
  rewrite (predict_answer_uncached g m text api_key w' Hm).
  reflexivity.
Qed.

End Transparency.

(** The variable [cached] of [predict] outlives a failed hit: when the
    cached document is truthy but a response cannot be built from it,
    the request falls through to the model, the response says
    [cached = false], and the logging task is created with
    [cached = true]. *)
Lemma failed_hit_is_logged_as_cached :
  match fst (@Api.predict Cases.partial_env Scenario.globals
               (Api.mkRequest Scenario.apple true) None Cases.partial_hit_world) with
  | Ok r => Some (Api.cached r)
  | Raise _ => None
  end = Some false /\
  tasks (snd (@Api.predict Cases.partial_env Scenario.globals
                (Api.mkRequest Scenario.apple true) None Cases.partial_hit_world))
  = [ TaskCacheSet Scenario.apple Scenario.apple_doc;
      TaskLogPrediction Scenario.apple (PStr "TECH") (PFloat (8 # 10)) 2000
        "week4_bert_final" true ].
Proof. vm_compute. split; reflexivity. Qed.

(** The scenario's hypotheses hold: the double's codec round-trips the
    document of [apple], and the world after the first request is reached
    from the empty one in two steps. *)
Lemma apple_round_trips : @Spec.round_trips Scenario.env Double.classifier Scenario.apple.
Proof.
  intros r v js Hp Hr Hd.
  vm_compute in Hp. injection Hp as <-.
  vm_compute in Hr. injection Hr as <-.
  vm_compute in Hd. injection Hd as <-.
  vm_compute. reflexivity.
Qed.

Lemma after_first_request_reached :
  rtc (@Spec.step Scenario.env (eq Scenario.apple) Scenario.globals)
      Double.healthy Scenario.after_first_request.
Proof.
  eapply rtc_l; [| eapply rtc_l; [| apply rtc_refl]].
  - apply (@Spec.step_predict Scenario.env (eq Scenario.apple) Scenario.globals
             (Api.mkRequest Scenario.apple true) None Double.healthy).
    reflexivity.
  - apply (@Spec.step_task Scenario.env).
Qed.

Lemma after_first_request_transparent :
  Spec.answer (fst (@Api.predict Scenario.env Scenario.globals
                      (Api.mkRequest Scenario.apple true) None
                      Scenario.after_first_request))
  = Spec.answer (fst (@Api.predict Scenario.env Scenario.globals
                        (Api.mkRequest Scenario.apple false) None
                        Scenario.after_first_request)).
Proof.
  apply (@reachable_worlds_are_transparent Scenario.env (eq Scenario.apple)
           Scenario.globals Double.classifier Double.healthy).
  - reflexivity.
  - intros a b <- <- _. reflexivity.
  - intros t <-. apply apple_round_trips.
  - split.
    + intros text _. apply stored_by_set_empty. reflexivity.
    + constructor.
  - apply after_first_request_reached.
  - reflexivity.
Defined.

Lemma cache_transparency_witness :
  Spec.answer (fst (@Api.predict Scenario.env Scenario.globals
                      (Api.mkRequest Scenario.apple true) None
                      Scenario.after_first_request))
  = Spec.answer (fst (@Api.predict Scenario.env Scenario.globals
                        (Api.mkRequest Scenario.apple false) None
                        Scenario.after_first_request)) /\
  (Api.cached <$> match fst (@Api.predict Scenario.env Scenario.globals
                               (Api.mkRequest Scenario.apple true) None
                               Scenario.after_first_request) with
                  | Ok r => Some r
                  | Raise _ => None
                  end) = Some true.
Proof.
  split; [| vm_compute; reflexivity].
  apply (@cache_transparency Scenario.env Scenario.globals Double.classifier).
  - reflexivity.
  - intros r v js Hp Hr Hd.
    vm_compute in Hp. injection Hp as <-.
    vm_compute in Hr. injection Hr as <-.
    vm_compute in Hd. injection Hd as <-.
    vm_compute. reflexivity.
  - intros ttl_ js Hs. vm_compute in Hs. injection Hs as <- <-.
    exists Scenario.apple_doc, Scenario.apple_doc.
    repeat split; vm_compute; reflexivity.
Defined.

(** ** Batch metrics *)

Section Metrics.

Lemma ratio_zero_den num : Batch.ratio num 0 = 0%Q.
Proof. reflexivity. Qed.

(** No pair is counted when the second list never satisfies the test. *)
Lemma count_pairs_none {A B} (f : A -> B -> bool) (l1 : list A) (l2 : list B) :
  (forall a b, b ∈ l2 -> f a b = false) ->
  Batch.count_pairs f l1 l2 = 0.
Proof.
  unfold Batch.count_pairs. revert l2.
  induction l1 as [| a l1 IH]; intros [| b l2] Hf; try reflexivity.
  cbn [zip zip_with filter list_filter]. cbn.
  rewrite (Hf a b) by apply list_elem_of_here.
  destruct (decide _) as [Hd | _]; [destruct Hd |].
  apply IH. intros a' b' Hin. apply Hf. now apply list_elem_of_further.
Qed.

Lemma count_pairs_none_l {A B} (f : A -> B -> bool) (l1 : list A) (l2 : list B) :
  (forall a b, a ∈ l1 -> f a b = false) ->
  Batch.count_pairs f l1 l2 = 0.
Proof.
  unfold Batch.count_pairs. revert l2.
  induction l1 as [| a l1 IH]; intros [| b l2] Hf; try reflexivity.
  cbn [zip zip_with filter list_filter]. cbn.
  rewrite (Hf a b) by apply list_elem_of_here.
  destruct (decide _) as [Hd | _]; [destruct Hd |].
  apply IH. intros a' b' Hin. apply Hf. now apply list_elem_of_further.
Qed.

(** The indicator list of a class that does not occur holds no 1. *)
Lemma indicator_absent cls l x :
  cls ∉ l -> x ∈ Batch.indicator cls l -> (x =? 1) = false.
Proof.
  intros Hn Hx. unfold Batch.indicator in Hx.
  apply list_elem_of_fmap in Hx as (y & -> & Hy).
  destruct (String.eqb_spec y cls) as [-> | _]; [contradiction | reflexivity].
Qed.

(** A class never predicted has precision 0. *)
Lemma precision_zero_when_never_predicted cls y_true y_pred :
  cls ∉ y_pred ->
  Batch.precision_score (Batch.indicator cls y_true) (Batch.indicator cls y_pred)
  = 0%Q.
Proof.
  intros Hn. unfold Batch.precision_score, Batch.true_pos, Batch.false_pos.
  rewrite !count_pairs_none; [reflexivity | |];
    intros a b Hb; rewrite (indicator_absent _ _ _ Hn Hb);
    apply andb_false_r.
Qed.

(** A class with no true instance has recall 0. *)
Lemma recall_zero_when_never_true cls y_true y_pred :
  cls ∉ y_true ->
  Batch.recall_score (Batch.indicator cls y_true) (Batch.indicator cls y_pred)
  = 0%Q.
Proof.
  intros Hn. unfold Batch.recall_score, Batch.true_pos, Batch.false_neg.
  rewrite !count_pairs_none_l; [reflexivity | |];
    intros a b Ha; rewrite (indicator_absent _ _ _ Hn Ha); reflexivity.
Qed.

Lemma find_class_metrics y_true y_pred classes cls cm :
  snd <$> find (fun kv : string * Batch.ClassMetrics => String.eqb (fst kv) cls)
               (map (Batch.class_metrics y_true y_pred) classes) = Some cm ->
  cm = snd (Batch.class_metrics y_true y_pred cls).
Proof.
  induction classes as [| c cs IH]; [discriminate |].
  cbn [map find]. cbn [Batch.class_metrics fst].
  destruct (String.eqb_spec c cls) as [-> | _].
  - cbn. now intros [= <-].
  - apply IH.
Qed.

(** An entry of [per_class] is the metrics of its class. *)
Lemma class_of_calculate y_true y_pred m cls cm :
  Batch.calculate_metrics y_true y_pred = Batch.MOk m ->
  Spec.class_of m cls = Some cm ->
  cm = snd (Batch.class_metrics y_true y_pred cls).
Proof.
  intros Hc Hl. unfold Batch.calculate_metrics in Hc.
  destruct y_true as [| a yt]; [discriminate |].
  destruct y_pred as [| b yp]; [discriminate |].
  destruct (negb _); [discriminate |].
  injection Hc as <-. unfold Spec.class_of in Hl.
  eapply find_class_metrics, Hl.
Qed.

(** [calculate_metrics] answers with metrics, not an error, on every
    pair of non-empty lists of equal length. *)
Lemma calculate_metrics_total y_true y_pred :
  y_true <> [] -> length y_true = length y_pred ->
  exists m, Batch.calculate_metrics y_true y_pred = Batch.MOk m.
Proof.
  intros Hne Hlen. unfold Batch.calculate_metrics.
  destruct y_true as [| a yt]; [contradiction |].
  destruct y_pred as [| b yp]; [discriminate |].
  rewrite Hlen, Nat.eqb_refl. cbn [negb]. eexists; reflexivity.
Qed.

(** C5, as amended: on predictions [TECH, BUSINESS, TECH] against ground
    truth [TECH, TECH, TECH] the accuracy is 2/3; class TECH has precision
    2/2 = 1 and recall 2/3; class BUSINESS has precision 0 and recall 0.
    In general a class that is never predicted gets precision 0 and a
    class with no true instance gets recall 0, and the metrics are
    computed (no error) for all non-empty lists of equal length. *)
Theorem metrics_scenario_and_zero_division :
  (exists m,
      Batch.calculate_metrics Scenario.truth Scenario.predicted = Batch.MOk m /\
      Batch.accuracy (Batch.overall m) = (2 # 3)%Q /\
      Spec.class_of m "TECH"
        = Some (Batch.mkClassMetrics 1 (2 # 3) (4 # 5) 3) /\
      Spec.class_of m "BUSINESS" = Some (Batch.mkClassMetrics 0 0 0 0)) /\
  (forall y_true y_pred m cls cm,
      Batch.calculate_metrics y_true y_pred = Batch.MOk m ->
      Spec.class_of m cls = Some cm ->
      (cls ∉ y_pred -> Batch.precision cm = 0%Q) /\
      (cls ∉ y_true -> Batch.recall cm = 0%Q)) /\
  (forall y_true y_pred,
      y_true <> [] -> length y_true = length y_pred ->
      exists m, Batch.calculate_metrics y_true y_pred = Batch.MOk m).
Proof.
  split; [| split].
  - eexists. repeat split; vm_compute; reflexivity.
  - intros y_true y_pred m cls cm Hc Hl.
    rewrite (class_of_calculate _ _ _ _ _ Hc Hl). cbn [Batch.class_metrics snd].
    split; intros Hn.
    + now apply precision_zero_when_never_predicted.
    + now apply recall_zero_when_never_true.
  - apply calculate_metrics_total.
Qed.

End Metrics.

(** C5, as stated, fails: on the scenario class TECH has recall 2/3 and
    precision 1, not recall 1 and precision 2/3. *)
Lemma scenario_tech_recall_is_two_thirds :
  exists m,
    Batch.calculate_metrics Scenario.truth Scenario.predicted = Batch.MOk m /\
    (Batch.recall <$> Spec.class_of m "TECH") = Some (2 # 3)%Q /\
    (Batch.precision <$> Spec.class_of m "TECH") = Some 1%Q /\
    Qeq_bool (2 # 3) 1 = false.
Proof. eexists. repeat split; vm_compute; reflexivity. Qed.

(** ** Statistics and readiness endpoints *)

Section Endpoints.
Context `{Externals}.

(** C6, as amended: with a logger that is disconnected, [get_stats]
    returns the empty dict and so does [GET /stats]; with a connected
    logger whose query times out or raises, both return the empty dict
    too; with no logger at all, [GET /stats] returns the one-entry object
    [{"error": "PostgreSQL not available"}].  In no case is an error
    raised. *)
Theorem stats_when_store_unavailable g hours w :
  match Api.postgres_logger g with
  | None =>
      Api.stats g hours w
      = (Ok (PDict [("error", PStr "PostgreSQL not available")]), w)
  | Some pl =>
      if PostgresLogger.usable pl then
        match oracle w (calls w) (ReqPgStats hours) with
        | TimedOut | Failed _ =>
            fst (PostgresLogger.get_stats pl hours w) = Ok (PDict []) /\
            fst (Api.stats g hours w) = Ok (PDict [])
        | Served | Nak =>
            exists d, fst (Api.stats g hours w) = Ok (PDict d)
        end
      else
        PostgresLogger.get_stats pl hours w = (Ok (PDict []), w) /\
        Api.stats g hours w = (Ok (PDict []), w)
  end.
Proof.
  unfold Api.stats.
  destruct (Api.postgres_logger g) as [pl |]; [| reflexivity].
  unfold PostgresLogger.get_stats.
  destruct (PostgresLogger.usable pl); cbn [negb]; [| split; reflexivity].
  unfold PostgresLogger.pg_fetch_stats, PostgresLogger.pg_command.
  py_unfold.
  destruct (oracle w (calls w) _); cbn;
    try (split; reflexivity);
    try destruct (PostgresLogger.stats_loop _ _ _); eexists; reflexivity.
Qed.

(** C10: with the model loaded, [GET /readiness] answers (it does not
    raise) with [postgres_connected = false] and [ready = false],
    whatever the state of the cache and of the logger. *)
Theorem readiness_never_ready g m w :
  Api.model g = Some m ->
  exists r,
    Api.readiness g w = (Ok r, w) /\
    Api.postgres_connected r = false /\
    Api.ready r = false.
Proof.
  intros Hm. unfold Api.readiness. rewrite Hm. py_unfold.
  destruct (Api.postgres_logger g) as [pl |]; cbn.
  - eexists. split; [reflexivity |]. cbn. split; [reflexivity |].
    apply andb_false_r.
  - eexists. split; [reflexivity |]. cbn. split; [reflexivity |].
    apply andb_false_r.
Qed.

(** [log_prediction] returns [true] whatever happens. *)
Lemma log_prediction_always_true pl text p c latency ip ua version cached w :
  fst (PostgresLogger.log_prediction pl text p c latency ip ua version cached w)
  = Ok true.
Proof.
  unfold PostgresLogger.log_prediction.
  destruct (negb (PostgresLogger.usable pl)); [reflexivity |].
  unfold try_except, bind, lift.
  destruct p; try reflexivity.
  destruct (PostgresLogger.py_float c) as [q | e]; [| destruct e; reflexivity].
  unfold PostgresLogger.pg_insert, PostgresLogger.pg_command. py_unfold.
  destruct (oracle w (calls w) _), (PostgresLogger.format_percent c) as [[] | []];
    reflexivity.
Qed.

(** A fresh key makes the dict one entry longer. *)
Lemma dict_set_length_fresh k v d :
  dict_get k d = None -> length (dict_set k v d) = S (length d).
Proof.
  induction d as [| [k' v'] d IH]; cbn; [reflexivity |].
  destruct (String.eqb k k'); [discriminate |].
  intros Hd. cbn. now rewrite IH.
Qed.

Lemma dict_get_set_other k k' v d :
  k <> k' -> dict_get k (dict_set k' v d) = dict_get k d.
Proof.
  intros Hne. induction d as [| [k0 v0] d IH]; cbn.
  - destruct (String.eqb_spec k k'); [contradiction | reflexivity].
  - destruct (String.eqb_spec k' k0) as [-> | Hk]; cbn.
    + destruct (String.eqb_spec k k0); [contradiction | reflexivity].
    + destruct (String.eqb k k0); [reflexivity | exact IH].
Qed.

(** With distinct topics the loop of [get_stats] yields one entry per row. *)
Lemma stats_loop_length rows : forall stats total,
  NoDup (map row_topic rows) ->
  (forall r, r ∈ rows -> dict_get (row_topic r) stats = None) ->
  length (fst (PostgresLogger.stats_loop rows stats total))
  = (length stats + length rows)%nat.
Proof.
  induction rows as [| row rows IH]; intros stats total Hnd Hfresh;
    cbn [PostgresLogger.stats_loop length].
  - cbn. lia.
  - cbn [map] in Hnd. apply NoDup_cons in Hnd as [Hnotin Hnd].
    rewrite IH; [| exact Hnd |].
    + rewrite dict_set_length_fresh by (apply Hfresh; left). lia.
    + intros r Hr. rewrite dict_get_set_other.
      * apply Hfresh. now right.
      * intros Heq. apply Hnotin. rewrite <- Heq.
        apply list_elem_of_fmap. eauto.
Qed.

(** The summary of [get_stats] reports one topic fewer than there are:
    [len(stats)] is read before ['_summary'] is inserted, and 1 is
    subtracted all the same. *)
Lemma get_stats_num_topics pl hours w :
  PostgresLogger.usable pl = true ->
  oracle w (calls w) (ReqPgStats hours) = Served ->
  NoDup (map row_topic (aggregate w hours)) ->
  exists stats summary,
    fst (PostgresLogger.get_stats pl hours w) = Ok (PDict stats) /\
    dict_get "_summary" stats = Some summary /\
    py_getitem summary "num_topics"
    = Ok (PInt (Z.of_nat (length (aggregate w hours)) - 1)).
Proof.
  intros Hu Ho Hnd. unfold PostgresLogger.get_stats. rewrite Hu. cbn [negb].
  unfold PostgresLogger.pg_fetch_stats, PostgresLogger.pg_command. py_unfold.
  rewrite Ho. cbn.
  pose proof (stats_loop_length (aggregate w hours) [] 0 Hnd
                (fun _ _ => eq_refl)) as Hlen.
  destruct (PostgresLogger.stats_loop (aggregate w hours) [] 0) as [stats total].
  cbn in Hlen |- *. eexists _, _. split; [reflexivity |].
  assert (Hget : forall k v d, dict_get k (dict_set k v d) = Some v).
  { intros k v d. induction d as [| [k0 v0] d IH]; cbn.
    - now rewrite String.eqb_refl.
    - destruct (String.eqb_spec k k0) as [-> | Hk]; cbn.
      + now rewrite String.eqb_refl.
      + destruct (String.eqb_spec k k0); [contradiction | exact IH]. }
  split; [apply Hget |]. cbn. now rewrite Hlen.
Qed.

End Endpoints.

Lemma readiness_never_ready_witness :
  Api.ready <$> (match fst (Api.readiness Scenario.globals Double.healthy) with
                 | Ok r => Some r
                 | Raise _ => None
                 end) = Some false /\
  PostgresLogger._connected Double.connected_logger = true /\
  RedisCache.is_connected Double.connected_cache = true.
Proof.
  destruct (readiness_never_ready Scenario.globals Double.classifier
              Double.healthy eq_refl) as (r & Hr & _ & Hready).
  rewrite Hr. cbn. rewrite Hready. repeat split.
Defined.

(** C6, as stated, fails when the logger is absent: [GET /stats] answers
    with an object holding an [error] entry, not with the empty object. *)
Lemma stats_without_logger_is_not_empty :
  fst (@Api.stats Scenario.env Scenario.globals_degraded 24 Double.healthy)
  = Ok (PDict [("error", PStr "PostgreSQL not available")]).
Proof. reflexivity. Qed.

(** ** The batch evaluator *)

Section BatchPredict.
Context `{Externals}.

(** The dict [BERTNewsClassifier.predict] returns has the keys [topic],
    [confidence] and [probabilities], and no key [prediction]. *)
Lemma predict_has_no_prediction_key m text r :
  BERT.predict m text = Ok r ->
  py_getitem r "prediction" = Raise (KeyError "prediction").
Proof.
  unfold BERT.predict.
  destruct (BERT.forward m text) as [probs | ?]; [| discriminate].
  destruct (BERT.argmax probs) as [i | ?]; [| discriminate].
  destruct (BERT.index (BERT.classes m) i) as [topic | ?]; [| discriminate].
  destruct (BERT.index probs i) as [c | ?]; [| discriminate].
  intros [= <-]. reflexivity.
Qed.

(** Without that key nothing is appended for the item. *)
Lemma record_item_without_key idx item r latency acc e :
  py_getitem r "prediction" = Raise e ->
  Batch.record_item idx item r latency acc = acc.
Proof.
  intros Hk. unfold Batch.record_item. rewrite Hk.
  destruct (Batch.opt_truthy (Batch.ground_truth item)); reflexivity.
Qed.

Lemma process_item_appends_nothing m idx item acc w :
  exists w', Batch.process_item m idx item acc w = (Ok acc, w').
Proof.
  unfold Batch.process_item. py_unfold.
  destruct (BERT.predict m (Batch.title item)) as [r | e] eqn:Ep.
  - erewrite record_item_without_key
      by (eapply predict_has_no_prediction_key, Ep).
    eexists; reflexivity.
  - eexists; reflexivity.
Qed.

Lemma process_items_appends_nothing m l : forall idx acc w,
  exists w', Batch.process_items m idx l acc w = (Ok acc, w').
Proof.
  induction l as [| item l IH]; intros idx acc w; cbn [Batch.process_items].
  - eexists; reflexivity.
  - destruct (process_item_appends_nothing m idx item acc w) as (w1 & E1).
    rewrite (bind_ok _ _ _ _ _ E1). apply IH.
Qed.

(** C9: with the model loaded, every extended batch request is answered
    (no error) with [successful = 0], [failed = total_items], an empty
    [predictions] list and no metrics: each item raises [KeyError] on
    [result['prediction']] inside its [try] block. *)
Theorem batch_records_every_item_as_failed m request w :
  exists resp w',
    Batch.batch_predict (Some m) request w = (Ok resp, w') /\
    Batch.total_items resp = Z.of_nat (length (Batch.items request)) /\
    Batch.successful resp = 0 /\
    Batch.failed resp = Batch.total_items resp /\
    Batch.predictions resp = [] /\
    Batch.metrics resp = None.
Proof.
  unfold Batch.batch_predict.
  rewrite (bind_ok time_time _ w _ _ eq_refl).
  destruct (process_items_appends_nothing m (Batch.items request) 0%nat
              (Batch.mkAcc [] [] []) (set_reads (S (reads w)) w)) as (w1 & E1).
  rewrite (bind_ok _ _ _ _ _ E1).
  cbn [Batch.ground_truths Batch.predictions_ Batch.predictions_list andb].
  rewrite andb_false_r. cbn [andb].
  py_unfold. eexists _, _. split; [reflexivity |].
  cbn. repeat split; lia.
Qed.

End BatchPredict.

(** C3 on the code: a batch of five items in which the classifier raises
    on the third only is answered with [successful = 0] and [failed = 5]
    and an empty [predictions] list, although the classifier answered on
    four of the items. *)
Theorem batch_of_five_with_one_inference_error :
  length (filter (Scenario.answers Double.classifier) Scenario.five_items) = 4%nat /\
  exists resp,
    fst (@Batch.batch_predict Scenario.env (Some Double.classifier)
           (Batch.mkBatchRequest Scenario.five_items true false) Double.healthy)
    = Ok resp /\
    Batch.total_items resp = 5 /\
    Batch.successful resp = 0 /\
    Batch.failed resp = 5 /\
    Batch.predictions resp = [].
Proof.
  split; [vm_compute; reflexivity |].
  eexists. repeat split; vm_compute; reflexivity.
Qed.

(** ** Connection retries *)

Section Connect.

(** One failed attempt of the cache layer costs one round trip. *)
Lemma redis_connect_try_fails self w :
  oracle w (calls w) ReqRedisPing <> Served ->
  exists e, RedisCache.connect_try self w = (Raise e, set_calls (S (calls w)) w).
Proof.
  intros Hp. unfold RedisCache.connect_try, RedisCache.client_ping. py_unfold.
  destruct (oracle w (calls w) ReqRedisPing); [contradiction | ..];
    eexists; reflexivity.
Qed.

(** The cache layer's [connect] always returns a boolean. *)
Lemma redis_connect_returns self w :
  exists b self' w', RedisCache.connect self w = (Ok (b, self'), w').
Proof.
  funelim (RedisCache.connect self w); eauto.
Qed.

(** [connect] of the cache layer, one call unfolded. *)
Lemma redis_connect_unfold self w :
  RedisCache.connect self w =
  match RedisCache.connect_try self w with
  | (Ok self', w1) => (Ok (true, self'), w1)
  | (Raise _, w1) =>
      let self2 :=
        RedisCache.with_status false (RedisCache._connection_attempts self + 1)
                               (RedisCache.with_client self) in
      if Z_lt_dec (RedisCache._connection_attempts self + 1)
                  (RedisCache._max_retry_attempts self)
      then RedisCache.connect self2
             (snd (asyncio_sleep (2 ^ (RedisCache._connection_attempts self + 1)) w1))
      else (Ok (false, self2), w1)
  end.
Proof.
  simp connect.
  destruct (RedisCache.connect_try self w) as [[self' | e] w1]; simp connect;
    [reflexivity |].
  destruct (Z_lt_dec _ _); simp connect; reflexivity.
Qed.

(** From a fresh instance, against a server that never answers the ping,
    the cache layer's [connect] makes three attempts, sleeps 2 and then 4
    seconds between them, and returns [false]. *)
Lemma redis_connect_gives_up_after_three url ttl_ size w :
  Spec.never_pongs w ->
  exists self' w',
    RedisCache.connect (RedisCache.init url ttl_ size) w = (Ok (false, self'), w') /\
    RedisCache._connected self' = false /\
    calls w' = (calls w + 3)%nat /\
    slept w' = (slept w ++ [2; 4])%list.
Proof.
  intros Hn.
  destruct (redis_connect_try_fails (RedisCache.init url ttl_ size) w (Hn _))
    as (e1 & E1).
  rewrite redis_connect_unfold, E1. cbn -[RedisCache.connect Z_lt_dec].
  destruct (Z_lt_dec _ _) as [_ | Hc]; [| lia].
  match goal with
  | |- context [RedisCache.connect ?s ?w1] =>
      destruct (redis_connect_try_fails s w1 (Hn _)) as (e2 & E2);
      rewrite (redis_connect_unfold s w1), E2
  end.
  cbn -[RedisCache.connect Z_lt_dec].
  destruct (Z_lt_dec _ _) as [_ | Hc]; [| lia].
  match goal with
  | |- context [RedisCache.connect ?s ?w1] =>
      destruct (redis_connect_try_fails s w1 (Hn _)) as (e3 & E3);
      rewrite (redis_connect_unfold s w1), E3
  end.
  cbn -[RedisCache.connect Z_lt_dec].
  destruct (Z_lt_dec _ _) as [Hc | _]; [lia |].
  eexists _, _. split; [reflexivity |]. cbn.
  repeat split; [lia |]. now rewrite <- app_assoc.
Qed.

(** An attempt of the logger against a server that rejects DDL: the
    flags are set and the counter reset before [_create_tables] raises. *)
Lemma pg_connect_try_ddl_denied self w :
  Spec.rejects_ddl w ->
  exists e w',
    PostgresLogger.connect_try self w
    = (Raise e,
       PostgresLogger.with_status true 0 (PostgresLogger.with_pool self), w') /\
    oracle w' = oracle w.
Proof.
  intros Hr. unfold PostgresLogger.connect_try, PostgresLogger.pg_command.
  py_unfold.
  destruct (Hr (calls w)) as (-> & _ & _). cbn.
  destruct (Hr (S (calls w))) as (_ & -> & _). cbn.
  unfold PostgresLogger._create_tables, PostgresLogger.pg_command. py_unfold. cbn.
  destruct (Hr (S (S (calls w)))) as (_ & _ & msg & ->). cbn.
  eexists _, _. split; reflexivity.
Qed.

(** Against such a server the logger's [connect] is still running at
    every depth: the attempt counter reads 1 after each failure. *)
Lemma pg_connect_diverges depth : forall self w,
  Spec.rejects_ddl w ->
  1 < PostgresLogger._max_retry_attempts self ->
  PostgresLogger.connect depth self w = None.
Proof.
  induction depth as [| depth IH]; intros self w Hr Hmax; [reflexivity |].
  cbn [PostgresLogger.connect].
  destruct (pg_connect_try_ddl_denied self w Hr) as (e & w' & -> & Ho).
  cbn -[Z.pow Z.add PostgresLogger.connect].
  destruct (Z.ltb_spec (0 + 1) (PostgresLogger._max_retry_attempts self));
    [| lia].
  apply IH; [| exact Hmax].
  intros n. cbn. rewrite Ho. apply Hr.
Qed.

End Connect.

(** C7 on the code, analytics logger: against a server that accepts the
    connection and answers the ping but rejects the schema creation,
    [connect] never returns: for every depth the call is still retrying,
    so neither the bound of three attempts nor the final [false] holds. *)
Theorem logger_connect_retries_without_bound :
  forall depth,
    PostgresLogger.connect depth Scenario.fresh_logger Scenario.ddl_denied = None.
Proof.
  intros depth. apply pg_connect_diverges.
  - intros n. repeat split. eexists. reflexivity.
  - reflexivity.
Qed.

(** The same logger against a server that cannot be reached gives up
    after three attempts, having slept 2 and 4 seconds. *)
Lemma logger_connect_gives_up_when_unreachable :
  (fun o => match o with
            | Some (Ok (b, _), w') => Some (b, calls w', slept w')
            | _ => None
            end)
    (PostgresLogger.connect 3 Scenario.fresh_logger Scenario.unreachable)
  = Some (false, 3%nat, [2; 4]).
Proof. vm_compute. reflexivity. Qed.

(** ** The side results on the concrete scenarios *)

Lemma redis_connect_gives_up_after_three_witness :
  fst (RedisCache.connect Scenario.fresh_cache Scenario.unreachable)
  = Ok (false,
        RedisCache.with_status false 3 (RedisCache.with_client Scenario.fresh_cache))
  /\ slept (snd (RedisCache.connect Scenario.fresh_cache Scenario.unreachable))
     = [2; 4].
Proof.
  destruct (redis_connect_gives_up_after_three "redis://localhost:6379" 3600 10
              Scenario.unreachable)
    as (self' & w' & Hc & _ & _ & Hs); [intros n; discriminate |].
  split; [vm_compute; reflexivity |].
  change (RedisCache.init "redis://localhost:6379" 3600 10)
    with Scenario.fresh_cache in Hc.
  rewrite Hc. exact Hs.
Defined.

Lemma set_then_get_witness :
  fst (@RedisCache.get Scenario.env Double.connected_cache Scenario.apple
         (snd (@RedisCache.set Scenario.env Double.connected_cache Scenario.apple
                 Scenario.apple_doc Double.healthy)))
  = Ok Scenario.apple_doc.
Proof.
  apply (@set_then_get Scenario.env Double.connected_cache Scenario.apple
           Scenario.apple_doc (Double.render Scenario.apple_doc) Double.healthy);
    vm_compute; reflexivity.
Defined.

Lemma get_stats_num_topics_witness :
  exists stats summary,
    fst (@PostgresLogger.get_stats Scenario.env Double.connected_logger 24
           Scenario.two_topics) = Ok (PDict stats) /\
    dict_get "_summary" stats = Some summary /\
    py_getitem summary "num_topics" = Ok (PInt 1).
Proof.
  apply (@get_stats_num_topics Scenario.env Double.connected_logger 24
           Scenario.two_topics).
  - reflexivity.
  - reflexivity.
  - apply (bool_decide_unpack
             (NoDup (map row_topic (aggregate Scenario.two_topics 24)))).
    vm_compute. exact I.
Defined.

(** ** The classifier: [predict], [predict_top_k], [predict_batch] *)

Section Dicts.

Lemma dict_set_fresh k v d :
  dict_get k d = None -> dict_set k v d = (d ++ [(k, v)])%list.
Proof.
  induction d as [|[k' v'] d IH]; cbn; [reflexivity|].
  destruct (String.eqb k k'); [discriminate|].
  intros H. now rewrite IH.
Qed.

Lemma dict_get_app k d1 d2 :
  dict_get k (d1 ++ d2)%list =
  match dict_get k d1 with Some v => Some v | None => dict_get k d2 end.
Proof.
  induction d1 as [|[k' v'] d1 IH]; cbn; [reflexivity|].
  destruct (String.eqb k k'); [reflexivity|exact IH].
Qed.

Lemma dict_get_none_notin k d :
  dict_get k d = None <-> k ∉ map fst d.
Proof.
  induction d as [|[k' v'] d IH]; cbn.
  - split; [intros _; apply not_elem_of_nil | reflexivity].
  - rewrite not_elem_of_cons. destruct (String.eqb_spec k k') as [->|Hne].
    + split; [discriminate | intros [H _]; now destruct H].
    + rewrite IH. tauto.
Qed.

Lemma dict_get_nodup_lookup d i k v :
  NoDup (map fst d) -> d !! i = Some (k, v) -> dict_get k d = Some v.
Proof.
  revert i. induction d as [|[k' v'] d IH]; intros i Hnd Hi; [discriminate|].
  cbn in *. apply NoDup_cons in Hnd as [Hnotin Hnd].
  destruct i as [|i]; cbn in Hi.
  - inversion Hi; subst. now rewrite String.eqb_refl.
  - destruct (String.eqb_spec k k') as [->|Hne]; [|eauto].
    exfalso. apply Hnotin. change (map fst d) with (fst <$> d).
    apply (list_elem_of_fmap_2' fst _ (k', v)); [|reflexivity].
    eapply list_elem_of_lookup_2. exact Hi.
Qed.

Lemma dict_get_elem k v d : dict_get k d = Some v -> (k, v) ∈ d.
Proof.
  induction d as [|[k' v'] d IH]; cbn; [discriminate|].
  destruct (String.eqb_spec k k') as [->|Hne].
  - intros [= ->]. apply elem_of_cons. now left.
  - intros H. apply elem_of_cons. right. auto.
Qed.

Lemma probabilities_dict_items_from cls : forall probs acc,
  NoDup (map fst acc ++ cls) ->
  fold_left (fun d '(c, p) => dict_set c (PFloat p) d) (zip cls probs) acc
  = (acc ++ Laws.float_items cls probs)%list.
Proof.
  induction cls as [|c cls IH]; intros probs acc Hnd.
  - cbn. now rewrite app_nil_r.
  - destruct probs as [|p probs]; [cbn; now rewrite app_nil_r|].
    cbn [zip zip_with fold_left]. rewrite dict_set_fresh.
    + rewrite IH.
      * unfold Laws.float_items. cbn. now rewrite <- app_assoc.
      * rewrite map_app. cbn. rewrite <- app_assoc. exact Hnd.
    + apply dict_get_none_notin. apply NoDup_app in Hnd as (_ & Hd & _).
      intros Hin. apply (Hd _ Hin). apply elem_of_cons. now left.
Qed.

Lemma probabilities_dict_items cls probs :
  NoDup cls -> BERT.probabilities_dict cls probs = Laws.float_items cls probs.
Proof.
  intros Hnd. unfold BERT.probabilities_dict.
  now rewrite probabilities_dict_items_from.
Qed.

Lemma float_items_keys cls probs :
  map fst (Laws.float_items cls probs) = take (length probs) cls.
Proof.
  unfold Laws.float_items. revert probs.
  induction cls as [|c cls IH]; intros [|p probs]; cbn; try reflexivity.
  now rewrite IH.
Qed.

Lemma float_items_lookup cls probs i c p :
  cls !! i = Some c -> probs !! i = Some p ->
  Laws.float_items cls probs !! i = Some (c, PFloat p).
Proof.
  intros Hc Hp. unfold Laws.float_items.
  rewrite list_lookup_fmap.
  assert (zip cls probs !! i = Some (c, p)) as ->; [|reflexivity].
  revert i probs Hc Hp. induction cls as [|c' cls IH]; intros [|i] [|p' probs] Hc Hp;
    try discriminate; cbn in *.
  - congruence.
  - eauto.
Qed.

Lemma float_items_elem cls probs c v :
  (c, v) ∈ Laws.float_items cls probs -> exists p, v = PFloat p /\ p ∈ probs.
Proof.
  unfold Laws.float_items. intros H. apply list_elem_of_fmap in H as ([c' p] & Heq & Hin).
  cbn in Heq. inversion Heq; subst. exists p. split; [reflexivity|].
  apply elem_of_zip_r in Hin. exact Hin.
Qed.

End Dicts.

Section Argmax.

Lemma Qle_bool_trans x y z :
  Qle_bool x y = true -> Qle_bool y z = true -> Qle_bool x z = true.
Proof. rewrite !Qle_bool_iff. apply Qle_trans. Qed.

Lemma Qle_bool_false_lt x y : Qle_bool x y = false <-> (y < x)%Q.
Proof.
  split; intros H.
  - apply Qnot_le_lt. intros Hle. apply Qle_bool_iff in Hle. congruence.
  - destruct (Qle_bool x y) eqn:E; [|reflexivity].
    apply Qle_bool_iff in E. exfalso. exact (Qlt_not_le _ _ H E).
Qed.

Lemma argmax_from_first_max l : forall pre bi b,
  Laws.first_max pre bi b ->
  exists m, Laws.first_max (pre ++ l) (BERT.argmax_from bi b (length pre) l) m.
Proof.
  induction l as [|x l IH]; intros pre bi b (Hb & Hall & Hfirst).
  - cbn. rewrite app_nil_r. exists b. repeat split; assumption.
  - cbn [BERT.argmax_from]. destruct (Qle_bool x b) eqn:E.
    + specialize (IH (pre ++ [x])%list bi b).
      rewrite length_app, Nat.add_1_r, <- app_assoc in IH. apply IH.
      repeat split.
      * apply lookup_app_l_Some. exact Hb.
      * apply Forall_app. split; [exact Hall|]. repeat constructor. exact E.
      * intros j y Hj Hy. apply (Hfirst j y Hj).
        rewrite lookup_app_l in Hy; [exact Hy|].
        apply lookup_lt_Some in Hb. lia.
    + specialize (IH (pre ++ [x])%list (length pre) x).
      rewrite length_app, Nat.add_1_r, <- app_assoc in IH. apply IH.
      apply Qle_bool_false_lt in E.
      repeat split.
      * rewrite lookup_app_r by lia. now rewrite Nat.sub_diag.
      * apply Forall_app. split.
        -- eapply Forall_impl; [exact Hall|]. cbn. intros y Hy.
           apply Qle_bool_iff. apply Qle_bool_iff in Hy.
           apply Qlt_le_weak. eapply Qle_lt_trans; eassumption.
        -- repeat constructor. apply Qle_bool_iff. apply Qle_refl.
      * intros j y Hj Hy. rewrite lookup_app_l in Hy by lia.
        apply Qle_bool_false_lt.
        eapply Qle_lt_trans; [|exact E].
        apply Qle_bool_iff. eapply Forall_lookup_1 in Hall; [exact Hall|exact Hy].
Qed.

Lemma argmax_first_max l i :
  BERT.argmax l = Ok i -> exists m, Laws.first_max l i m.
Proof.
  destruct l as [|x l]; cbn; [discriminate|]. intros [= <-].
  apply (argmax_from_first_max l [x] 0%nat x).
  repeat split.
  - repeat constructor. apply Qle_bool_iff. apply Qle_refl.
  - intros j y Hj. lia.
Qed.

Lemma first_max_unique l i j m n :
  Laws.first_max l i m -> Laws.first_max l j n -> i = j.
Proof.
  intros (Hi & Hai & Hfi) (Hj & Haj & Hfj).
  destruct (Nat.lt_trichotomy i j) as [Hlt|[Heq|Hlt]]; [|exact Heq|].
  - exfalso. pose proof (Hfj i m Hlt Hi) as H1.
    eapply Forall_lookup_1 in Hai; [|exact Hj]. cbn in Hai.
    apply Qle_bool_false_lt in H1. apply Qle_bool_iff in Hai.
    exact (Qlt_not_le _ _ H1 Hai).
  - exfalso. pose proof (Hfi j n Hlt Hj) as H1.
    eapply Forall_lookup_1 in Haj; [|exact Hi]. cbn in Haj.
    apply Qle_bool_false_lt in H1. apply Qle_bool_iff in Haj.
    exact (Qlt_not_le _ _ H1 Haj).
Qed.

End Argmax.

Lemma predict_inv self text r :
  BERT.predict self text = Ok r ->
  exists probs idx topic conf,
    BERT.forward self text = Ok probs /\
    BERT.argmax probs = Ok idx /\
    BERT.classes self !! idx = Some topic /\
    probs !! idx = Some conf /\
    r = PDict [ ("topic", PStr topic); ("confidence", PFloat conf);
                ("probabilities",
                  PDict (BERT.probabilities_dict (BERT.classes self) probs)) ].
Proof.
  unfold BERT.predict, BERT.index. intros H.
  destruct (BERT.forward self text) as [probs|] eqn:Hf; [|discriminate].
  destruct (BERT.argmax probs) as [idx|] eqn:Ha; [|discriminate].
  destruct (BERT.classes self !! idx) as [topic|] eqn:Ht; [|discriminate].
  destruct (probs !! idx) as [conf|] eqn:Hc; [|discriminate].
  inversion H. exists probs, idx, topic, conf. repeat split; auto.
Qed.

(** What [predict] reports is the most probable class: with pairwise
    distinct class names, the reported confidence is the entry of the
    reported topic in [probabilities], and no entry of [probabilities]
    exceeds it. *)
Theorem predict_reports_the_most_probable_class self text r :
  NoDup (BERT.classes self) ->
  BERT.predict self text = Ok r ->
  exists topic conf probs,
    BERT.forward self text = Ok probs /\
    py_getitem r "topic" = Ok (PStr topic) /\
    py_getitem r "confidence" = Ok (PFloat conf) /\
    py_getitem r "probabilities" =
      Ok (PDict (BERT.probabilities_dict (BERT.classes self) probs)) /\
    dict_get topic (BERT.probabilities_dict (BERT.classes self) probs)
      = Some (PFloat conf) /\
    forall c v, dict_get c (BERT.probabilities_dict (BERT.classes self) probs) = Some v ->
      exists p, v = PFloat p /\ (p <= conf)%Q.
Proof.
  intros Hnd H. apply predict_inv in H as (probs & idx & topic & conf & Hf & Ha & Ht & Hc & ->).
  exists topic, conf, probs. repeat split; try assumption; try reflexivity.
  - rewrite probabilities_dict_items by assumption.
    apply (dict_get_nodup_lookup _ idx).
    + rewrite float_items_keys. eapply sublist_NoDup; [exact Hnd | apply sublist_take].
    + now apply float_items_lookup.
  - intros c v Hv. rewrite probabilities_dict_items in Hv by assumption.
    apply dict_get_elem, float_items_elem in Hv as (p & -> & Hin).
    exists p. split; [reflexivity|].
    apply argmax_first_max in Ha as (m & Hm & Hall & _).
    assert (m = conf) by congruence. subst m.
    apply Qle_bool_iff. rewrite Forall_forall in Hall. now apply Hall.
Qed.

Lemma predict_reports_the_most_probable_class_witness :
  exists topic conf probs,
    BERT.forward Double.classifier Scenario.apple = Ok probs /\
    py_getitem Scenario.apple_doc "topic" = Ok (PStr topic) /\
    py_getitem Scenario.apple_doc "confidence" = Ok (PFloat conf) /\
    py_getitem Scenario.apple_doc "probabilities" =
      Ok (PDict (BERT.probabilities_dict (BERT.classes Double.classifier) probs)) /\
    dict_get topic (BERT.probabilities_dict (BERT.classes Double.classifier) probs)
      = Some (PFloat conf) /\
    forall c v,
      dict_get c (BERT.probabilities_dict (BERT.classes Double.classifier) probs)
      = Some v ->
      exists p, v = PFloat p /\ (p <= conf)%Q.
Proof.
  apply (predict_reports_the_most_probable_class Double.classifier Scenario.apple
           Scenario.apple_doc).
  - apply (bool_decide_unpack (NoDup (BERT.classes Double.classifier))).
    vm_compute. exact I.
  - vm_compute. reflexivity.
Defined.

Section Sorting.

Variable reverse : bool.
Variable P : pyval -> Prop.
Hypothesis comparable : forall a b, P a -> P b -> exists c, Classifier.py_lt a b = Ok c.

Lemma insert_item_perm x l :
  P (snd x) -> Forall (fun kv => P (snd kv)) l ->
  exists r, Classifier.insert_item reverse x l = Ok r /\ r ≡ₚ x :: l.
Proof.
  intros Hx. induction l as [|y l IH]; intros Hl.
  - exists [x]. split; reflexivity.
  - apply Forall_cons in Hl as [Hy Hl]. cbn [Classifier.insert_item].
    assert (exists c, (if reverse then Classifier.py_lt (snd x) (snd y)
                       else Classifier.py_lt (snd y) (snd x)) = Ok c) as [c ->].
    { destruct reverse; auto. }
    destruct c.
    + destruct (IH Hl) as (r & -> & Hr). exists (y :: r). split; [reflexivity|].
      rewrite Hr. apply perm_swap.
    + eexists. split; reflexivity.
Qed.

Lemma sorted_items_perm l :
  Forall (fun kv => P (snd kv)) l ->
  exists s, Classifier.sorted_items reverse l = Ok s /\ s ≡ₚ l.
Proof.
  induction l as [|x l IH]; intros Hl.
  - exists []. split; reflexivity.
  - apply Forall_cons in Hl as [Hx Hl]. cbn [Classifier.sorted_items].
    destruct (IH Hl) as (s & -> & Hs).
    destruct (insert_item_perm x s Hx) as (r & -> & Hr).
    + rewrite Hs. exact Hl.
    + exists r. split; [reflexivity|]. now rewrite Hr, Hs.
Qed.

Variable R : relation (string * pyval).
Hypothesis R_trans : forall x y z, R x y -> R y z -> R x z.
Hypothesis cmp_R : forall x y c, P (snd x) -> P (snd y) ->
  (if reverse then Classifier.py_lt (snd x) (snd y)
   else Classifier.py_lt (snd y) (snd x)) = Ok c ->
  if c then R y x else R x y.

Lemma insert_item_sorted x l r :
  P (snd x) -> Forall (fun kv => P (snd kv)) l ->
  StronglySorted R l ->
  Classifier.insert_item reverse x l = Ok r -> StronglySorted R r.
Proof.
  intros Hx. revert r. induction l as [|y l IH]; intros r Hl Hs Hr.
  - cbn in Hr. inversion Hr. repeat constructor.
  - apply Forall_cons in Hl as [Hy Hl]. cbn [Classifier.insert_item] in Hr.
    apply StronglySorted_inv in Hs as [Hs Hyl].
    destruct (if reverse then Classifier.py_lt (snd x) (snd y)
              else Classifier.py_lt (snd y) (snd x)) as [c|] eqn:E; [|discriminate].
    pose proof (cmp_R x y c Hx Hy E) as HR.
    destruct c.
    + destruct (insert_item_perm x l Hx Hl) as (r' & Hr' & Hp).
      rewrite Hr' in Hr. inversion Hr; subst r.
      constructor; [eauto|].
      rewrite Hp. constructor; assumption.
    + inversion Hr; subst r. constructor.
      * constructor; assumption.
      * constructor; [exact HR|].
        eapply Forall_impl; [exact Hyl|]. cbn. eauto.
Qed.

Lemma sorted_items_sorted l s :
  Forall (fun kv => P (snd kv)) l ->
  Classifier.sorted_items reverse l = Ok s -> StronglySorted R s.
Proof.
  revert s. induction l as [|x l IH]; intros s Hl Hs.
  - inversion Hs. constructor.
  - apply Forall_cons in Hl as [Hx Hl]. cbn [Classifier.sorted_items] in Hs.
    destruct (sorted_items_perm l Hl) as (s' & Hs' & Hp).
    rewrite Hs' in Hs.
    eapply insert_item_sorted; [exact Hx| |eauto|exact Hs].
    rewrite Hp. exact Hl.
Qed.

End Sorting.

Section TopK.

Lemma floats_comparable a b :
  Laws.is_float a -> Laws.is_float b -> exists c, Classifier.py_lt a b = Ok c.
Proof. intros [p ->] [q ->]. cbn. eauto. Qed.

Lemma conf_ge_trans x y z : Laws.conf_ge x y -> Laws.conf_ge y z -> Laws.conf_ge x z.
Proof.
  unfold Laws.conf_ge. destruct (snd x), (snd y), (snd z); try tauto.
  intros H1 H2. eapply Qle_trans; eassumption.
Qed.

Lemma floats_cmp x y c :
  Laws.is_float (snd x) -> Laws.is_float (snd y) ->
  Classifier.py_lt (snd x) (snd y) = Ok c ->
  if c then Laws.conf_ge y x else Laws.conf_ge x y.
Proof.
  unfold Laws.conf_ge. intros [p ->] [q ->]. cbn. intros [= <-].
  destruct (Qle_bool q p) eqn:E; cbn.
  - now apply Qle_bool_iff.
  - apply Qle_bool_false_lt in E. now apply Qlt_le_weak.
Qed.

Lemma dict_set_floats k p d :
  Forall (fun kv => Laws.is_float (snd kv)) d ->
  Forall (fun kv => Laws.is_float (snd kv)) (dict_set k (PFloat p) d).
Proof.
  induction d as [|[k' v'] d IH]; intros H; cbn.
  - repeat constructor. now exists p.
  - apply Forall_cons in H as [H1 H2]. destruct (String.eqb k k').
    + constructor; [now exists p | exact H2].
    + constructor; [exact H1 | auto].
Qed.

Lemma probabilities_dict_floats cls probs :
  Forall (fun kv => Laws.is_float (snd kv)) (BERT.probabilities_dict cls probs).
Proof.
  unfold BERT.probabilities_dict.
  assert (forall l acc, Forall (fun kv => Laws.is_float (snd kv)) acc ->
            Forall (fun kv => Laws.is_float (snd kv))
              (fold_left (fun d '(c, p) => dict_set c (PFloat p) d) l acc)) as H.
  { induction l as [|[c p] l IH]; intros acc Hacc; cbn; [exact Hacc|].
    apply IH. now apply dict_set_floats. }
  apply H. constructor.
Qed.

Lemma sorted_head_first_max l :
  Forall (fun kv => Laws.is_float (snd kv)) l -> l <> [] ->
  exists h t i m,
    Classifier.sorted_items true l = Ok (h :: t) /\
    l !! i = Some h /\ snd h = PFloat m /\
    Laws.first_max (map Laws.conf_of l) i m.
Proof.
  induction l as [|x l IH]; intros Hl Hne; [congruence|].
  apply Forall_cons in Hl as [[p Hx] Hl]. cbn [Classifier.sorted_items].
  destruct l as [|y l].
  - cbn. exists x, [], 0%nat, p. repeat split; auto.
    + unfold Laws.conf_of. rewrite Hx. reflexivity.
    + unfold Laws.conf_of. rewrite Hx. repeat constructor.
      apply Qle_bool_iff, Qle_refl.
    + intros j z Hj. lia.
  - destruct (IH Hl) as (h & t & i & m & Hs & Hi & Hh & Hm & Hall & Hfirst);
      [discriminate|].
    rewrite Hs.
    destruct (sorted_items_perm true Laws.is_float floats_comparable (y :: l) Hl)
      as (s & Hs' & Hp).
    assert (s = h :: t) by congruence. subst s.
    destruct (insert_item_perm true Laws.is_float floats_comparable x (h :: t))
      as (r & Hr & _); [now exists p | now rewrite Hp |].
    rewrite Hr. cbn [Classifier.insert_item] in Hr.
    rewrite Hx, Hh in Hr. cbn [Classifier.py_lt Classifier.number] in Hr.
    assert (Hcx : Laws.conf_of x = p) by (unfold Laws.conf_of; now rewrite Hx).
    destruct (Qle_bool m p) eqn:E; cbn [negb] in Hr.
    + inversion Hr; subst r.
      exists x, (h :: t), 0%nat, p. repeat split; auto.
      * cbn. now rewrite Hcx.
      * cbn [map]. constructor; [rewrite Hcx; apply Qle_bool_iff, Qle_refl|].
        eapply Forall_impl; [exact Hall|]. cbn. intros z Hz.
        eapply Qle_bool_trans; eassumption.
      * intros j z Hj. lia.
    + destruct (Classifier.insert_item true x t) as [r'|]; [|discriminate].
      inversion Hr; subst r.
      exists h, r', (S i), m. repeat split; auto.
      * cbn [map]. constructor; [|exact Hall].
        rewrite Hcx. apply Qle_bool_iff, Qlt_le_weak.
        now apply Qle_bool_false_lt.
      * intros [|j] z Hj Hz; cbn in Hz.
        -- inversion Hz; subst z. now rewrite Hcx.
        -- apply (Hfirst j z); [lia | exact Hz].
Qed.

Lemma first_max_take l n i m :
  (i < n)%nat -> Laws.first_max l i m -> Laws.first_max (take n l) i m.
Proof.
  intros Hin (Hi & Hall & Hfirst). repeat split.
  - rewrite lookup_take_lt by exact Hin. exact Hi.
  - now apply Forall_take.
  - intros j x Hj Hx. apply (Hfirst j x Hj).
    rewrite lookup_take_lt in Hx by lia. exact Hx.
Qed.

Lemma float_items_confs cls probs :
  map Laws.conf_of (Laws.float_items cls probs) = take (length cls) probs.
Proof.
  unfold Laws.float_items. revert probs.
  induction cls as [|c cls IH]; intros [|p probs]; cbn; try reflexivity.
  now rewrite IH.
Qed.

End TopK.

(** [predict_top_k] never fails once [predict] has answered: it returns
    the first [k] of the entries of [probabilities] sorted by
    non-increasing probability, that is [min k n] entries for a
    non-negative [k] and [n] classes. *)
Theorem predict_top_k_is_a_sorted_prefix self text k r :
  BERT.predict self text = Ok r ->
  exists probs s,
    BERT.forward self text = Ok probs /\
    Classifier.predict_top_k self text k = Ok (Classifier.slice_to k s) /\
    s ≡ₚ BERT.probabilities_dict (BERT.classes self) probs /\
    StronglySorted Laws.conf_ge s /\
    (0 <= k ->
     length (Classifier.slice_to k s) =
       Nat.min (Z.to_nat k)
               (length (BERT.probabilities_dict (BERT.classes self) probs))).
Proof.
  intros H. unfold Classifier.predict_top_k. rewrite H.
  apply predict_inv in H as (probs & idx & topic & conf & Hf & Ha & Ht & Hc & ->).
  cbn [py_getitem dict_get String.eqb Ascii.eqb Bool.eqb].
  pose proof (probabilities_dict_floats (BERT.classes self) probs) as Hfl.
  destruct (sorted_items_perm true Laws.is_float floats_comparable _ Hfl)
    as (s & Hs & Hp).
  exists probs, s. rewrite Hs. repeat split; auto.
  - eapply (sorted_items_sorted true Laws.is_float floats_comparable);
      [exact conf_ge_trans | | exact Hfl | exact Hs].
    intros x y c Hx Hy. apply floats_cmp; assumption.
  - intros Hk. unfold Classifier.slice_to.
    destruct (Z.leb_spec 0 k); [|lia].
    rewrite length_take, Hp. reflexivity.
Qed.

Lemma predict_top_k_is_a_sorted_prefix_witness :
  exists probs s,
    BERT.forward Double.classifier Scenario.apple = Ok probs /\
    Classifier.predict_top_k Double.classifier Scenario.apple 2
    = Ok (Classifier.slice_to 2 s) /\
    s ≡ₚ BERT.probabilities_dict (BERT.classes Double.classifier) probs /\
    StronglySorted Laws.conf_ge s /\
    (0 <= 2 ->
     length (Classifier.slice_to 2 s) =
       Nat.min (Z.to_nat 2)
               (length (BERT.probabilities_dict (BERT.classes Double.classifier)
                                                probs))).
Proof.
  apply (predict_top_k_is_a_sorted_prefix Double.classifier Scenario.apple 2
           Scenario.apple_doc).
  vm_compute. reflexivity.
Defined.

(** The first entry of [predict_top_k], for [k >= 1], is the topic and
    confidence [predict] reports: ties are broken the same way by
    [np.argmax] and by the stable sort. *)
Theorem predict_top_1_is_predict self text k r :
  NoDup (BERT.classes self) -> 1 <= k ->
  BERT.predict self text = Ok r ->
  exists topic conf rest,
    py_getitem r "topic" = Ok (PStr topic) /\
    py_getitem r "confidence" = Ok (PFloat conf) /\
    Classifier.predict_top_k self text k = Ok ((topic, PFloat conf) :: rest).
Proof.
  intros Hnd Hk H. unfold Classifier.predict_top_k. rewrite H.
  apply predict_inv in H as (probs & idx & topic & conf & Hf & Ha & Ht & Hc & ->).
  cbn [py_getitem dict_get String.eqb Ascii.eqb Bool.eqb].
  rewrite probabilities_dict_items by exact Hnd.
  pose proof (float_items_lookup _ _ _ _ _ Ht Hc) as Hidx.
  destruct (sorted_head_first_max (Laws.float_items (BERT.classes self) probs))
    as (h & t & i & m & Hs & Hi & Hh & Hm).
  { rewrite <- probabilities_dict_items by exact Hnd. apply probabilities_dict_floats. }
  { intros E. rewrite E in Hidx. discriminate. }
  rewrite Hs. rewrite float_items_confs in Hm.
  apply argmax_first_max in Ha as (m' & Hm').
  assert (m' = conf) by (destruct Hm' as (? & _); congruence). subst m'.
  apply (first_max_take _ (length (BERT.classes self))) in Hm';
    [|now apply lookup_lt_Some in Ht].
  pose proof (first_max_unique _ _ _ _ _ Hm Hm') as ->.
  assert (h = (topic, PFloat conf)) by congruence. subst h.
  exists topic, conf, (take (Z.to_nat k - 1) t). repeat split.
  unfold Classifier.slice_to. destruct (Z.leb_spec 0 k); [|lia].
  replace (Z.to_nat k) with (S (Z.to_nat k - 1)) at 1 by lia. reflexivity.
Qed.

Lemma predict_top_1_is_predict_witness :
  exists topic conf rest,
    py_getitem Scenario.apple_doc "topic" = Ok (PStr topic) /\
    py_getitem Scenario.apple_doc "confidence" = Ok (PFloat conf) /\
    Classifier.predict_top_k Double.classifier Scenario.apple 1
    = Ok ((topic, PFloat conf) :: rest).
Proof.
  apply (predict_top_1_is_predict Double.classifier Scenario.apple 1
           Scenario.apple_doc).
  - apply (bool_decide_unpack (NoDup (BERT.classes Double.classifier))).
    vm_compute. exact I.
  - lia.
  - vm_compute. reflexivity.
Defined.

Section PredictBatch.

Lemma batch_row_entry self pre t texts row :
  BERT.forward self t = Ok row ->
  Classifier.batch_row self (pre ++ t :: texts) (length pre) row
  = Laws.batch_entry self t.
Proof.
  intros Hf. unfold Classifier.batch_row, Laws.batch_entry, BERT.predict.
  rewrite Hf. destruct (BERT.argmax row) as [idx|]; [|reflexivity].
  destruct (BERT.index (BERT.classes self) idx) as [topic|]; [|reflexivity].
  destruct (BERT.index row idx) as [conf|]; [|reflexivity].
  unfold BERT.index at 1. rewrite list_lookup_middle by reflexivity.
  reflexivity.
Qed.

Lemma batch_rows_entries self texts rows :
  Forall2 (fun t row => BERT.forward self t = Ok row) texts rows ->
  forall pre,
    Classifier.batch_rows self (pre ++ texts) (length pre) rows
    = Classifier.collect (Laws.batch_entry self) texts.
Proof.
  induction 1 as [|t row texts rows Hf _ IH]; intros pre; [reflexivity|].
  cbn [Classifier.batch_rows Classifier.collect].
  rewrite (batch_row_entry _ _ _ _ _ Hf).
  destruct (Laws.batch_entry self t) as [d|]; [|reflexivity].
  specialize (IH (pre ++ [t])%list).
  rewrite length_app, Nat.add_1_r, <- app_assoc in IH. cbn in IH.
  now rewrite IH.
Qed.

End PredictBatch.

(** [predict_batch] agrees with [predict]: when the network gives a text
    the same probability row in a batch as alone, the batch result lists,
    title by title, the topic and confidence [predict] reports (with the
    text cut to 50 characters), and raises what the first failing
    [predict] raises. *)
Theorem predict_batch_agrees_with_predict self forward_batch texts rows :
  forward_batch texts = Ok rows ->
  Forall2 (fun t row => BERT.forward self t = Ok row) texts rows ->
  Classifier.predict_batch self forward_batch texts
  = Classifier.collect (Laws.batch_entry self) texts.
Proof.
  intros Hfb Hrows. unfold Classifier.predict_batch. rewrite Hfb.
  exact (batch_rows_entries self texts rows Hrows []).
Qed.

Lemma predict_batch_agrees_with_predict_witness :
  Classifier.predict_batch Double.classifier Cases.forward_batch Cases.headlines
  = Classifier.collect (Laws.batch_entry Double.classifier) Cases.headlines.
Proof.
  apply (predict_batch_agrees_with_predict Double.classifier Cases.forward_batch
           Cases.headlines
           [ [1 # 10; 1 # 10; 8 # 10]; [6 # 10; 3 # 10; 1 # 10] ]%Q).
  - vm_compute. reflexivity.
  - constructor; [vm_compute; reflexivity |].
    constructor; [vm_compute; reflexivity |].
    constructor.
Defined.

(** ** The label mapping *)

Section LabelMapping.

Lemma fold_dict_set_fresh {A} (key : A -> string) (val : A -> pyval) l : forall acc,
  NoDup (map fst acc ++ map key l) ->
  fold_left (fun d x => dict_set (key x) (val x) d) l acc
  = (acc ++ map (fun x => (key x, val x)) l)%list.
Proof.
  induction l as [|x l IH]; intros acc Hnd; cbn.
  - now rewrite app_nil_r.
  - rewrite dict_set_fresh.
    + rewrite IH; [now rewrite <- app_assoc|].
      rewrite map_app. cbn. rewrite <- app_assoc. exact Hnd.
    + apply dict_get_none_notin. apply NoDup_app in Hnd as (_ & Hd & _).
      intros Hin. apply (Hd _ Hin). apply elem_of_cons. now left.
Qed.

Lemma index_keys_nodup {A} (l : list A) :
  NoDup (map (fun ic : nat * A => pretty (Z.of_nat (fst ic)))
             (imap (fun i c => (i, c)) l)).
Proof.
  change (NoDup ((fun ic : nat * A => pretty (Z.of_nat (fst ic)))
                   <$> imap (fun i c => (i, c)) l)).
  rewrite fmap_imap.
  rewrite (imap_ext _ (fun j _ => pretty (Z.of_nat j))) by reflexivity.
  rewrite imap_seq_0. apply NoDup_fmap_2; [|apply NoDup_seq].
  intros i j Hij. apply (inj pretty) in Hij. lia.
Qed.

Lemma save_label_mapping_items classes :
  Classifier.save_label_mapping classes = PDict (Laws.index_items classes).
Proof.
  unfold Classifier.save_label_mapping, Laws.index_items. f_equal.
  rewrite (fold_dict_set_fresh (fun ic : nat * string => pretty (Z.of_nat (fst ic)))
                               (fun ic => PStr (snd ic))).
  - cbn [app].
    change (map ?f ?l) with (f <$> l).
    rewrite fmap_imap. apply imap_ext. reflexivity.
  - cbn [map app]. apply index_keys_nodup.
Qed.

Lemma strings_comparable a b :
  Laws.is_str a -> Laws.is_str b -> exists c, Classifier.py_lt a b = Ok c.
Proof. intros [p ->] [q ->]. cbn. eauto. Qed.

Lemma index_items_strs classes :
  Forall (fun kv => Laws.is_str (snd kv)) (Laws.index_items classes).
Proof.
  unfold Laws.index_items. apply Forall_forall. intros x Hx.
  apply elem_of_lookup_imap in Hx as (i & c & -> & _). now exists c.
Qed.

Lemma load_dict d rest in_model_dir config :
  Classifier._load_label_mapping (Some (Ok (PDict (d :: rest)))) in_model_dir config
  = match Classifier.sorted_items false (d :: rest) with
    | Raise e => Raise e
    | Ok s => Ok (map (fun kv => PStr (fst kv)) s)
    end.
Proof. reflexivity. Qed.

Lemma ints_comparable a b :
  Laws.is_int a -> Laws.is_int b -> exists c, Classifier.py_lt a b = Ok c.
Proof. intros [p ->] [q ->]. cbn. eauto. Qed.

Lemma index_le_trans x y z : Laws.index_le x y -> Laws.index_le y z -> Laws.index_le x z.
Proof.
  unfold Laws.index_le. destruct (snd x), (snd y), (snd z); try tauto. lia.
Qed.

Lemma ints_cmp x y c :
  Laws.is_int (snd x) -> Laws.is_int (snd y) ->
  Classifier.py_lt (snd y) (snd x) = Ok c ->
  if c then Laws.index_le y x else Laws.index_le x y.
Proof.
  unfold Laws.index_le. intros [p ->] [q ->]. cbn. intros [= <-].
  unfold Qle_bool. cbn. rewrite !Z.mul_1_r.
  destruct (Z.leb_spec p q); cbn; lia.
Qed.

Lemma class_items_sorted classes :
  StronglySorted Laws.index_le (Laws.class_items classes).
Proof.
  unfold Laws.class_items.
  assert (forall n, StronglySorted Laws.index_le
            (imap (fun i c => (c, PInt (Z.of_nat (n + i)))) classes)) as H.
  { induction classes as [|c classes IH]; intros n; cbn; constructor.
    - rewrite (imap_ext _ (fun i c => (c, PInt (Z.of_nat (S n + i))))).
      + apply IH.
      + intros i x _. cbn. do 3 f_equal. lia.
    - apply Forall_forall. intros x Hx.
      apply elem_of_lookup_imap in Hx as (i & c' & -> & _).
      unfold Laws.index_le. cbn. lia. }
  exact (H 0%nat).
Qed.

End LabelMapping.

(** A label file written by [save_label_mapping] does not load back:
    from the file [{"0": c0, "1": c1, ..}], given by path or found in the
    model directory, [_load_label_mapping] sets the classes to the index
    strings ["0"], ["1"], .. in some order, not to the class names. *)
Theorem saved_label_mapping_loads_as_index_strings classes in_model_dir config :
  exists cs,
    Classifier._load_label_mapping
      (Some (Ok (Classifier.save_label_mapping classes))) in_model_dir config = Ok cs /\
    Classifier._load_label_mapping
      None (Some (Ok (Classifier.save_label_mapping classes))) config = Ok cs /\
    cs ≡ₚ map (fun i => PStr (pretty (Z.of_nat i))) (seq 0 (length classes)).
Proof.
  rewrite save_label_mapping_items.
  destruct (sorted_items_perm false Laws.is_str strings_comparable
              (Laws.index_items classes) (index_items_strs classes)) as (s & Hs & Hp).
  exists (map (fun kv => PStr (fst kv)) s).
  assert (Hperm : map (fun kv : string * pyval => PStr (fst kv)) s
                  ≡ₚ map (fun i => PStr (pretty (Z.of_nat i))) (seq 0 (length classes))).
  { change (map ?f ?l) with (f <$> l). rewrite Hp. unfold Laws.index_items.
    rewrite fmap_imap.
    rewrite (imap_ext _ (fun j _ => PStr (pretty (Z.of_nat j)))) by reflexivity.
    now rewrite imap_seq_0. }
  destruct (Laws.index_items classes) as [|d rest] eqn:E.
  - cbn in Hs. inversion Hs; subst s. repeat split; [reflexivity..|exact Hperm].
  - unfold Classifier._load_label_mapping. cbn [Classifier.is_none].
    rewrite Hs. repeat split; [reflexivity..|exact Hperm].
Qed.

(** A label file of the form [{class: index}], whatever the order of its
    keys, loads as the class names in index order. *)
Theorem class_to_index_mapping_loads_in_index_order classes d in_model_dir config :
  d ≡ₚ Laws.class_items classes ->
  Classifier._load_label_mapping (Some (Ok (PDict d))) in_model_dir config
  = Ok (map PStr classes).
Proof.
  intros Hd.
  assert (Hints : Forall (fun kv => Laws.is_int (snd kv)) d).
  { rewrite Hd. unfold Laws.class_items. apply Forall_forall. intros x Hx.
    apply elem_of_lookup_imap in Hx as (i & c & -> & _). now eexists. }
  destruct (sorted_items_perm false Laws.is_int ints_comparable d Hints) as (s & Hs & Hp).
  assert (Hsorted : StronglySorted Laws.index_le s).
  { eapply (sorted_items_sorted false Laws.is_int ints_comparable);
      [exact index_le_trans | | exact Hints | exact Hs].
    intros x y c Hx Hy. apply ints_cmp; assumption. }
  assert (s = Laws.class_items classes) as ->.
  { apply (StronglySorted_unique_strong Laws.index_le);
      [| exact Hsorted | apply class_items_sorted | now rewrite Hp].
    intros x1 x2 H1 H2 H12 H21.
    rewrite Hp, Hd in H1. unfold Laws.class_items in H1, H2.
    apply elem_of_lookup_imap in H1 as (i & c1 & -> & Hi).
    apply elem_of_lookup_imap in H2 as (j & c2 & -> & Hj).
    unfold Laws.index_le in H12, H21. cbn in H12, H21.
    assert (i = j) by lia. subst j. congruence. }
  assert (Hmap : map (fun kv : string * pyval => PStr (fst kv)) (Laws.class_items classes)
                 = map PStr classes).
  { unfold Laws.class_items. change (map ?f ?l) with (f <$> l).
    rewrite fmap_imap. apply imap_const. }
  destruct d as [|x d].
  - apply Permutation_nil_l in Hd. cbn. rewrite <- Hmap, <- Hd. reflexivity.
  - rewrite load_dict. rewrite Hs, Hmap. reflexivity.
Qed.

Lemma class_to_index_mapping_loads_in_index_order_witness :
  Classifier._load_label_mapping (Some (Ok (PDict Cases.class_to_index))) None
    (Raise (ValueError "no config"))
  = Ok [PStr "BUSINESS"; PStr "SPORTS"].
Proof.
  apply (class_to_index_mapping_loads_in_index_order ["BUSINESS"; "SPORTS"]
           Cases.class_to_index None (Raise (ValueError "no config"))).
  apply perm_swap.
Defined.

Section ConfigLabels.

Lemma collect_map {A B C} (h : A -> B) (f : B -> result C) l :
  Classifier.collect f (map h l) = Classifier.collect (fun x => f (h x)) l.
Proof.
  induction l as [|x l IH]; [reflexivity|]. cbn. now rewrite IH.
Qed.

Lemma collect_seq {B} (f : nat -> result B) (out : list B) : forall start,
  (forall i x, out !! i = Some x -> f (start + i)%nat = Ok x) ->
  Classifier.collect f (seq start (length out)) = Ok out.
Proof.
  induction out as [|y out IH]; intros start Hf; [reflexivity|].
  cbn [length seq Classifier.collect].
  rewrite <- (Nat.add_0_r start) at 1. rewrite (Hf 0%nat y eq_refl).
  rewrite (IH (S start)); [reflexivity|].
  intros i x Hi. replace (S start + i)%nat with (start + S i)%nat by lia.
  now apply Hf.
Qed.

Lemma index_items_get classes i c :
  classes !! i = Some c ->
  dict_get (pretty (Z.of_nat i)) (Laws.index_items classes) = Some (PStr c).
Proof.
  intros Hi. apply (dict_get_nodup_lookup _ i).
  - unfold Laws.index_items.
    change (NoDup (fst <$> imap (fun i c => (pretty (Z.of_nat i), PStr c)) classes)).
    rewrite fmap_imap.
    rewrite (imap_ext _ (fun j _ => pretty (Z.of_nat j))) by reflexivity.
    rewrite imap_seq_0. apply NoDup_fmap_2; [|apply NoDup_seq].
    intros a b Hab. apply (inj pretty) in Hab. lia.
  - unfold Laws.index_items. rewrite list_lookup_imap, Hi. reflexivity.
Qed.

End ConfigLabels.

(** Without a label file the classes come from [config.json]: an
    [id2label] table with an entry for every index below [num_labels]
    gives the labels in index order; and whatever [config.json] holds,
    or if it cannot be read, the call does not raise. *)
Theorem config_labels_load_in_index_order classes d :
  dict_get "id2label" d = Some (PDict (Laws.index_items classes)) ->
  dict_get "num_labels" d = Some (PInt (Z.of_nat (length classes))) ->
  Classifier._load_label_mapping None None (Ok (PDict d)) = Ok (map PStr classes) /\
  forall config, exists cs, Classifier._load_label_mapping None None config = Ok cs.
Proof.
  intros Hid Hn. split.
  - unfold Classifier._load_label_mapping. cbn [Classifier.is_none].
    unfold Classifier.classes_from_config. rewrite Hid.
    cbn [py_getitem]. rewrite Hn. cbn [Classifier.py_range].
    rewrite Nat2Z.id, collect_map.
    rewrite <- (length_map PStr classes).
    rewrite (collect_seq _ (map PStr classes) 0); [reflexivity|].
    intros i x Hi. cbn [Nat.add].
    change (map PStr classes) with (PStr <$> classes) in Hi.
    rewrite list_lookup_fmap in Hi.
    destruct (classes !! i) as [c|] eqn:Hc; [|discriminate].
    cbn in Hi. inversion Hi; subst x.
    cbn [py_getitem]. now rewrite (index_items_get _ _ _ Hc).
  - intros config. unfold Classifier._load_label_mapping. cbn [Classifier.is_none].
    destruct config as [c|e]; [|eexists; reflexivity].
    destruct (Classifier.classes_from_config c); eexists; reflexivity.
Qed.

Lemma config_labels_load_in_index_order_witness :
  Classifier._load_label_mapping None None (Ok (PDict Cases.config))
  = Ok [PStr "BUSINESS"; PStr "SPORTS"] /\
  forall config, exists cs, Classifier._load_label_mapping None None config = Ok cs.
Proof.
  apply (config_labels_load_in_index_order ["BUSINESS"; "SPORTS"] Cases.config);
    reflexivity.
Defined.

(** ** The synchronous cache client *)

Section SyncCache.
Context `{Externals}.

(** The synchronous [get] never raises, makes exactly one round trip and
    never writes: unlike the asynchronous [get] it leaves a corrupted
    entry in the store. *)
Theorem sync_get_reads_and_never_repairs (self : RedisCacheSync.t) text w :
  (exists v, fst (RedisCacheSync.get self text w) = Ok v) /\
  store (snd (RedisCacheSync.get self text w)) = store w /\
  calls (snd (RedisCacheSync.get self text w)) = S (calls w).
Proof.
  unfold RedisCacheSync.get, try_except, bind.
  rewrite client_get_run.
  destruct (oracle w (calls w) _); cbn; eauto.
  destruct (store w !! RedisCache._generate_key text) as [[ttl_ js]|]; cbn; eauto.
  destruct (str_truthy js); cbn; eauto.
  unfold lift. destruct (json_loads js); cbn; eauto.
Qed.

(** The two cache clients share their entries: a value written by the
    synchronous [set] is what the asynchronous [get] returns for the same
    text, and the other way round, when the server serves both round
    trips and [json.loads] inverts [json.dumps] on the value. *)
Theorem sync_and_async_caches_interoperate
    (sc : RedisCacheSync.t) (rc : RedisCache.t) text v js w :
  RedisCache.usable rc = true ->
  json_dumps v = Ok js ->
  str_truthy js = true ->
  json_loads js = Ok v ->
  (forall ttl_,
     oracle w (calls w) (ReqRedisSetex (RedisCache._generate_key text) ttl_ js)
     = Served) ->
  oracle w (S (calls w)) (ReqRedisGet (RedisCache._generate_key text)) = Served ->
  fst (RedisCache.get rc text (snd (RedisCacheSync.set sc text v w))) = Ok v /\
  fst (RedisCacheSync.get sc text (snd (RedisCache.set rc text v w))) = Ok v.
Proof.
  intros Hu Hd Ht Hl Hs Hg. split.
  - assert (Hset : RedisCacheSync.set sc text v w =
                   (Ok true,
                    set_store (<[RedisCache._generate_key text
                                 := (RedisCacheSync.ttl sc, js)]> (store w))
                              (set_calls (S (calls w)) w))).
    { unfold RedisCacheSync.set, try_except, bind, lift. rewrite Hd.
      rewrite client_setex_run, Hs. reflexivity. }
    rewrite Hset. cbn [snd].
    rewrite get_run, Hu. cbn [negb calls oracle store set_store set_calls].
    rewrite Hg, lookup_insert_eq, Ht, Hl. reflexivity.
  - assert (Hset : RedisCache.set rc text v w =
                   (Ok true,
                    set_store (<[RedisCache._generate_key text
                                 := (RedisCache.ttl rc, js)]> (store w))
                              (set_calls (S (calls w)) w))).
    { unfold RedisCache.set. rewrite Hu. cbn [negb].
      unfold try_except, bind, lift. rewrite Hd. rewrite client_setex_run, Hs.
      reflexivity. }
    rewrite Hset. cbn [snd].
    unfold RedisCacheSync.get, try_except, bind. rewrite client_get_run.
    cbn [calls oracle store set_store set_calls].
    rewrite Hg, lookup_insert_eq. cbn. rewrite Ht. unfold lift. rewrite Hl.
    reflexivity.
Qed.

End SyncCache.

Lemma sync_and_async_caches_interoperate_witness :
  fst (@RedisCache.get Scenario.env Double.connected_cache Scenario.apple
         (snd (@RedisCacheSync.set Scenario.env Cases.sync_cache Scenario.apple
                 Scenario.apple_doc Double.healthy)))
  = Ok Scenario.apple_doc /\
  fst (@RedisCacheSync.get Scenario.env Cases.sync_cache Scenario.apple
         (snd (@RedisCache.set Scenario.env Double.connected_cache Scenario.apple
                 Scenario.apple_doc Double.healthy)))
  = Ok Scenario.apple_doc.
Proof.
  apply (@sync_and_async_caches_interoperate Scenario.env Cases.sync_cache
           Double.connected_cache Scenario.apple Scenario.apple_doc
           (Double.render Scenario.apple_doc) Double.healthy);
    intros; vm_compute; reflexivity.
Defined.

(** ** Startup, shutdown and the endpoints of [main.py] *)

Section Startup.

Lemma redis_connect_true self w rc w' :
  RedisCache.connect self w = (Ok (true, rc), w') ->
  RedisCache.usable rc = true.
Proof.
  funelim (RedisCache.connect self w); intros Hc.
  - inversion Hc; subst. clear Hc.
    unfold RedisCache.connect_try, RedisCache.client_ping in Heq. py_unfold.
    destruct (oracle w (calls w) ReqRedisPing); inversion Heq. reflexivity.
  - eauto.
  - inversion Hc.
Qed.

Lemma pg_connect_true depth : forall self w pl w',
  PostgresLogger.connect depth self w = Some (Ok (true, pl), w') ->
  PostgresLogger.usable pl = true.
Proof.
  induction depth as [|depth IH]; intros self w pl w' Hc; [discriminate|].
  cbn [PostgresLogger.connect] in Hc.
  destruct (PostgresLogger.connect_try self w) as [[[b|e] self1] w1] eqn:Et.
  - inversion Hc; subst. clear Hc.
    unfold PostgresLogger.connect_try in Et.
    destruct (PostgresLogger.pg_command ReqPgCreatePool w) as [[?|?] ?];
      [|inversion Et].
    destruct (PostgresLogger.pg_command ReqPgSelectNow w0) as [[[|]|?] ?];
      [|inversion Et..].
    destruct (PostgresLogger._create_tables _ _) as [[?|?] ?]; inversion Et.
    reflexivity.
  - destruct (_ <? _); [eauto|]. inversion Hc.
Qed.

End Startup.

(** When [startup] returns, it fails only with the error of the model
    load, before any round trip; otherwise the model is installed, and a
    cache or logger it installs is connected and has its client or pool:
    an instance whose [connect] gave up is replaced by [None]. *)
Theorem startup_installs_only_connected_stores depth env w r w' :
  Service.startup depth env w = Some (r, w') ->
  match r with
  | Raise e => Service.load_model env = Raise e /\ w' = w
  | Ok g =>
      (exists m, Service.load_model env = Ok m /\ Api.model g = Some m) /\
      match Api.redis_cache g with
      | Some rc => RedisCache.usable rc = true
      | None => True
      end /\
      match Api.postgres_logger g with
      | Some pl => PostgresLogger.usable pl = true
      | None => True
      end
  end.
Proof.
  unfold Service.startup. intros Hs.
  destruct (Service.load_model env) as [m|e]; [|inversion Hs; auto].
  assert (Hr : exists rc w1, Service.init_redis env w = (Ok rc, w1) /\
                 match rc with
                 | Some rc => RedisCache.usable rc = true
                 | None => True
                 end).
  { unfold Service.init_redis, try_except, bind, lift, ret.
    destruct (Service.CACHE_TTL env) as [ttl_|];
      [|exists None; eexists; split; [reflexivity | exact I]].
    destruct (Service.REDIS_POOL_SIZE env) as [size|];
      [|exists None; eexists; split; [reflexivity | exact I]].
    destruct (redis_connect_returns
                (RedisCache.init (Service.REDIS_URL env) ttl_ size) w)
      as (b & rc & w1 & Hc).
    rewrite Hc. cbn [fst snd].
    destruct b; [|exists None; eexists; split; [reflexivity | exact I]].
    eexists _, _. split; [reflexivity|].
    eapply redis_connect_true. exact Hc. }
  destruct Hr as (rc & w1 & Hr & Hrc). rewrite Hr in Hs.
  unfold Service.init_postgres in Hs.
  destruct (Service.POSTGRES_PORT env) as [port_|].
  - destruct (PostgresLogger.connect depth _ w1) as [[[[[|] pl]|e] w2]|] eqn:Hc;
      inversion Hs; subst; cbn; (split; [eauto|]); split; auto.
    eapply pg_connect_true. exact Hc.
  - inversion Hs; subst; cbn; (split; [eauto|]); split; auto.
Qed.

Lemma startup_installs_only_connected_stores_witness :
  (exists m, Service.load_model Cases.environment = Ok m /\
             Api.model Scenario.globals = Some m) /\
  RedisCache.usable Double.connected_cache = true /\
  PostgresLogger.usable Double.connected_logger = true.
Proof.
  apply (startup_installs_only_connected_stores 1 Cases.environment Double.healthy
           (Ok Scenario.globals) Cases.started).
  vm_compute. reflexivity.
Defined.

Section BatchEndpoint.

Lemma batch_rows_shape self texts : forall rows i ds,
  Classifier.batch_rows self texts i rows = Ok ds ->
  Forall (fun d => exists t c, py_getitem d "topic" = Ok t /\
                               py_getitem d "confidence" = Ok c) ds /\
  length ds = length rows.
Proof.
  induction rows as [|row rows IH]; intros i ds Hr; cbn in Hr.
  - inversion Hr. split; [constructor | reflexivity].
  - destruct (Classifier.batch_row self texts i row) as [d|] eqn:Ed; [|discriminate].
    destruct (Classifier.batch_rows self texts (S i) rows) as [ds'|] eqn:Eds;
      [|discriminate].
    inversion Hr; subst. destruct (IH _ _ Eds) as [IH1 IH2].
    split; [|cbn; now rewrite IH2].
    constructor; [|exact IH1].
    unfold Classifier.batch_row in Ed.
    destruct (BERT.argmax row) as [idx|]; [|discriminate].
    destruct (BERT.index (BERT.classes self) idx); [|discriminate].
    destruct (BERT.index row idx); [|discriminate].
    destruct (BERT.index texts i); [|discriminate].
    inversion Ed. eexists _, _. split; reflexivity.
Qed.

Lemma log_batch_run latency n : forall titles preds w,
  Forall (fun d => exists t c, py_getitem d "topic" = Ok t /\
                               py_getitem d "confidence" = Ok c) preds ->
  Service.log_batch titles preds latency n w
  = (Ok tt, set_tasks (tasks w ++ Laws.log_tasks titles preds latency n) w).
Proof.
  induction titles as [|t titles IH]; intros preds w Hp.
  - cbn. unfold ret, set_tasks. rewrite app_nil_r. now destruct w.
  - destruct preds as [|d preds].
    + cbn. unfold ret, set_tasks. rewrite app_nil_r. now destruct w.
    + apply Forall_cons in Hp as [(tp & c & Ht & Hc) Hp].
      cbn [Service.log_batch Laws.log_tasks]. unfold bind at 1, lift at 1.
      rewrite Ht. unfold bind at 1, lift at 1. rewrite Hc.
      unfold bind at 1, create_task, modify.
      rewrite IH by exact Hp. cbn [tasks set_tasks].
      unfold Laws.field. rewrite Ht, Hc.
      rewrite <- app_assoc. reflexivity.
Qed.

End BatchEndpoint.

(** [POST /predict/batch] of [main.py], once [predict_batch] has
    answered: the response counts and carries the predictions; with a
    logger one logging task is created per title, each with the batch
    latency divided by the number of titles, and none without; the
    request itself makes no round trip and touches neither store. *)
Theorem batch_endpoint_logs_one_task_per_title g m forward_batch titles preds w :
  Api.model g = Some m ->
  Classifier.predict_batch m forward_batch titles = Ok preds ->
  exists latency,
    Service.batch_predict g forward_batch titles w
    = (Ok (Service.mkBatchPredictionResponse (Z.of_nat (length preds)) preds latency),
       set_tasks
         (tasks w ++
          match Api.postgres_logger g with
          | Some _ => Laws.log_tasks titles preds latency (length titles)
          | None => []
          end)
         (set_reads (S (S (reads w))) w)).
Proof.
  intros Hm Hp. unfold Service.batch_predict. rewrite Hm.
  exists (Api.elapsed_ms (clock w (reads w)) (clock w (S (reads w)))).
  unfold try_except. unfold bind at 1. unfold time_time at 1.
  unfold bind at 1. unfold lift at 1. rewrite Hp.
  unfold bind at 1. unfold time_time at 1. cbn [clock reads set_reads].
  assert (Hshape : Forall (fun d => exists t c, py_getitem d "topic" = Ok t /\
                                     py_getitem d "confidence" = Ok c) preds).
  { unfold Classifier.predict_batch in Hp.
    destruct (forward_batch titles) as [rows|]; [|discriminate].
    apply batch_rows_shape in Hp. tauto. }
  destruct (Api.postgres_logger g).
  - unfold bind at 1. unfold try_except.
    rewrite log_batch_run by exact Hshape. reflexivity.
  - unfold bind, ret. cbn. rewrite app_nil_r.
    unfold set_tasks, set_reads. cbn. reflexivity.
Qed.

Lemma batch_endpoint_logs_one_task_per_title_witness :
  exists latency,
    Service.batch_predict Scenario.globals Cases.forward_batch Cases.headlines
      Double.healthy
    = (Ok (Service.mkBatchPredictionResponse
             (Z.of_nat (length Cases.batch_answers)) Cases.batch_answers latency),
       set_tasks
         (tasks Double.healthy ++
          Laws.log_tasks Cases.headlines Cases.batch_answers latency
            (length Cases.headlines))
         (set_reads (S (S (reads Double.healthy))) Double.healthy)).
Proof.
  apply (batch_endpoint_logs_one_task_per_title Scenario.globals Double.classifier
           Cases.forward_batch Cases.headlines Cases.batch_answers Double.healthy).
  - reflexivity.
  - vm_compute. reflexivity.
Defined.

Section Admin.
Context `{Externals}.

(** [GET /cache/clear] answers ["cleared"] whenever a cache object
    exists, whatever the flush did: the store is emptied only when the
    cache is connected and the server serves the flush, and is left as
    it was otherwise. *)
Theorem cache_clear_reports_cleared_whatever_happened m rc pl key w :
  (exists stamp,
     fst (Api.cache_clear (Api.mkGlobals m (Some rc) pl key) w)
     = Ok (PDict [ ("status", PStr "cleared"); ("timestamp", PStr stamp) ])) /\
  (RedisCache.usable rc = false ->
   store (snd (Api.cache_clear (Api.mkGlobals m (Some rc) pl key) w)) = store w) /\
  (RedisCache.usable rc = true ->
   store (snd (Api.cache_clear (Api.mkGlobals m (Some rc) pl key) w))
   = match oracle w (calls w) ReqRedisFlushdb with
     | Served => ∅
     | _ => store w
     end).
Proof.
  unfold Api.cache_clear. cbn [Api.redis_cache].
  unfold RedisCache.flush_all.
  destruct (RedisCache.usable rc); cbn [negb].
  - unfold RedisCache.client_flushdb. py_unfold.
    destruct (oracle w (calls w) ReqRedisFlushdb); cbn;
      (split; [eexists; reflexivity | split; [discriminate | reflexivity]]).
  - py_unfold. cbn.
    split; [eexists; reflexivity | split; [reflexivity | discriminate]].
Qed.

End Admin.

Section AfterShutdown.
Context `{Externals}.

Lemma try_cache_disconnected g request start_time w :
  match Api.redis_cache g with
  | Some rc => RedisCache.is_connected rc = false
  | None => True
  end ->
  Api.try_cache g request start_time w = (Ok (None, false), w).
Proof.
  unfold Api.try_cache. destruct (Api.redis_cache g) as [rc|]; [|reflexivity].
  intros ->. rewrite andb_false_r. reflexivity.
Qed.

Lemma from_model_disconnected g m request start_time cached w :
  match Api.redis_cache g with
  | Some rc => RedisCache.is_connected rc = false
  | None => True
  end ->
  calls (snd (Api.from_model g m request start_time cached w)) = calls w /\
  store (snd (Api.from_model g m request start_time cached w)) = store w /\
  table (snd (Api.from_model g m request start_time cached w)) = table w.
Proof.
  intros Hd. unfold Api.from_model. py_unfold.
  destruct (BERT.predict m (Api.title request)) as [r|]; [|auto].
  destruct (Api.prediction_result r) as [pr|] eqn:Er; [|auto].
  unfold Api.prediction_result in Er.
  destruct (py_getitem r "topic") as [t|]; [|discriminate].
  destruct (py_getitem r "confidence") as [c|]; [|discriminate].
  destruct (py_getitem r "probabilities") as [p0|]; [|discriminate].
  destruct (Api.redis_cache g) as [rc|], (Api.postgres_logger g) as [pl|];
    try rewrite Hd; cbn -[Api.make_response]; auto.
Qed.

Lemma shutdown_disconnects g :
  match Api.redis_cache (Service.shutdown g (Ok tt) (Ok tt) (Ok tt)) with
  | Some rc => RedisCache.is_connected rc = false
  | None => True
  end.
Proof.
  unfold Service.shutdown. cbn. destruct (Api.redis_cache g) as [rc|]; cbn; [|exact I].
  unfold Service.redis_close.
  destruct (RedisCache.client rc), (RedisCache.connection_pool rc); reflexivity.
Qed.

(** After a [shutdown] whose close calls return, the instances stay in
    the globals but are disconnected: a late [predict] still answers as
    the model does, makes no round trip and changes neither store, and a
    pending background task runs without any effect. *)
Theorem requests_after_shutdown_reach_no_store g m request api_key w t w0 :
  Api.model g = Some m ->
  Spec.answer (fst (Api.predict (Service.shutdown g (Ok tt) (Ok tt) (Ok tt))
                      request api_key w))
  = Spec.expected_answer g m (Api.title request) api_key /\
  calls (snd (Api.predict (Service.shutdown g (Ok tt) (Ok tt) (Ok tt))
                request api_key w)) = calls w /\
  store (snd (Api.predict (Service.shutdown g (Ok tt) (Ok tt) (Ok tt))
                request api_key w)) = store w /\
  table (snd (Api.predict (Service.shutdown g (Ok tt) (Ok tt) (Ok tt))
                request api_key w)) = table w /\
  Api.run_task (Service.shutdown g (Ok tt) (Ok tt) (Ok tt)) t w0 = (Ok tt, w0).
Proof.
  intros Hm.
  pose proof (shutdown_disconnects g) as Hd.
  assert (Hrun : Api.run_task (Service.shutdown g (Ok tt) (Ok tt) (Ok tt)) t w0
                 = (Ok tt, w0)).
  { unfold Api.run_task, Service.shutdown. cbn [Api.redis_cache Api.postgres_logger].
    destruct t.
    - destruct (Api.redis_cache g) as [rc|]; [|reflexivity]. cbn [fmap option_fmap option_map].
      unfold RedisCache.set.
      assert (RedisCache.usable (Service.redis_close rc (Ok tt) (Ok tt)) = false) as ->.
      { unfold Service.redis_close.
        destruct (RedisCache.client rc), (RedisCache.connection_pool rc); reflexivity. }
      reflexivity.
    - destruct (Api.postgres_logger g) as [pl|]; [|reflexivity].
      cbn [fmap option_fmap option_map].
      unfold PostgresLogger.log_prediction.
      assert (PostgresLogger.usable (Service.postgres_close pl (Ok tt)) = false) as ->.
      { unfold Service.postgres_close. destruct (PostgresLogger.pool pl); reflexivity. }
      reflexivity. }
  set (g' := Service.shutdown g (Ok tt) (Ok tt) (Ok tt)) in *.
  assert (Hm' : Api.model g' = Some m) by exact Hm.
  rewrite (predict_run g' m request api_key w Hm').
  unfold Spec.expected_answer.
  change (Spec.key_rejected g' api_key) with (Spec.key_rejected g api_key).
  destruct (Spec.key_rejected g api_key).
  - repeat split; try reflexivity. exact Hrun.
  - rewrite (try_cache_disconnected g' request _ _ Hd).
    pose proof (from_model_answer g' m request (clock w (reads w)) false
                  (set_reads (S (reads w)) w)) as Ha.
    pose proof (from_model_disconnected g' m request (clock w (reads w)) false
                  (set_reads (S (reads w)) w) Hd) as (Hc & Hs & Ht).
    rewrite <- Ha.
    destruct (Api.from_model g' m request _ _ _) as [[r|e] w2]; cbn in *;
      repeat split; auto.
Qed.

End AfterShutdown.

Lemma requests_after_shutdown_reach_no_store_witness :
  Spec.answer
    (fst (@Api.predict Scenario.env
            (Service.shutdown Scenario.globals (Ok tt) (Ok tt) (Ok tt))
            (Api.mkRequest Scenario.apple true) None Double.healthy))
  = Spec.expected_answer Scenario.globals Double.classifier Scenario.apple None /\
  calls (snd (@Api.predict Scenario.env
                (Service.shutdown Scenario.globals (Ok tt) (Ok tt) (Ok tt))
                (Api.mkRequest Scenario.apple true) None Double.healthy))
  = calls Double.healthy /\
  store (snd (@Api.predict Scenario.env
                (Service.shutdown Scenario.globals (Ok tt) (Ok tt) (Ok tt))
                (Api.mkRequest Scenario.apple true) None Double.healthy))
  = store Double.healthy /\
  table (snd (@Api.predict Scenario.env
                (Service.shutdown Scenario.globals (Ok tt) (Ok tt) (Ok tt))
                (Api.mkRequest Scenario.apple true) None Double.healthy))
  = table Double.healthy /\
  @Api.run_task Scenario.env
    (Service.shutdown Scenario.globals (Ok tt) (Ok tt) (Ok tt))
    (TaskCacheSet Scenario.apple Scenario.apple_doc) Double.healthy
  = (Ok tt, Double.healthy).
Proof.
  apply (@requests_after_shutdown_reach_no_store Scenario.env Scenario.globals
           Double.classifier (Api.mkRequest Scenario.apple true) None
           Double.healthy (TaskCacheSet Scenario.apple Scenario.apple_doc)
           Double.healthy).
  reflexivity.
Defined.

(** ** The log table *)

Section LogRows.
Context `{Externals}.

Lemma prefix_substring n : forall s,
  String.prefix (String.substring 0 n s) s = true /\
  (String.length (String.substring 0 n s) <= n)%nat.
Proof.
  induction n as [|n IH]; intros [|a s]; cbn; try (split; [reflexivity | lia]).
  destruct (IH s) as [Hp Hl]. rewrite Hp.
  destruct (Ascii.ascii_dec a a) as [_|Hne]; [|congruence].
  split; [reflexivity | lia].
Qed.

Lemma prefix_refl s : String.prefix s s = true.
Proof.
  induction s as [|a s IH]; [reflexivity|]. cbn.
  destruct (Ascii.ascii_dec a a) as [_|Hne]; [exact IH | congruence].
Qed.

(** [log_prediction] never touches the cache and never changes a logged
    record: it leaves the table as it is or has one record appended, the
    one its INSERT carries.  The values sent are the hash of the full
    text, at most the first 200 characters of it, the topic, [float] of
    the confidence (a number converted, a string parsed), and the
    latency and flags it was given.  The record is the one sent: the
    rounding of the [NUMERIC(4,3)] and [NUMERIC(8,2)] columns happens in
    the server and is no part of it. *)
Theorem log_prediction_appends_at_most_one_row
    pl text p c latency ip ua version cached w :
  store (snd (PostgresLogger.log_prediction pl text p c latency ip ua version
                cached w)) = store w /\
  (table (snd (PostgresLogger.log_prediction pl text p c latency ip ua version
                 cached w)) = table w \/
   exists row,
     table (snd (PostgresLogger.log_prediction pl text p c latency ip ua version
                   cached w)) = (table w ++ [row])%list /\
     text_hash row = sha256_hexdigest text /\
     String.prefix (text_preview row) text = true /\
     (String.length (text_preview row) <= 200)%nat /\
     p = PStr (predicted_topic row) /\
     PostgresLogger.py_float c = Ok (lr_confidence row) /\
     lr_latency_ms row = latency /\
     ip_address row = ip /\ user_agent row = ua /\
     model_version row = version /\
     lr_cached row = cached).
Proof.
  split; [apply log_prediction_effect|].
  unfold PostgresLogger.log_prediction.
  destruct (negb (PostgresLogger.usable pl)); [left; reflexivity|].
  unfold try_except, bind, lift.
  destruct p as [| | | |topic| |]; try (left; reflexivity).
  destruct (PostgresLogger.py_float c) as [q|e] eqn:Ec;
    [|destruct e; left; reflexivity].
  unfold PostgresLogger.pg_insert, PostgresLogger.pg_command. py_unfold.
  destruct (oracle w (calls w) ReqPgInsert);
    try (destruct (PostgresLogger.format_percent c) as [[] | []];
         left; reflexivity).
  right. eexists.
  split; [destruct (PostgresLogger.format_percent c) as [[] | []]; reflexivity|].
  cbn [text_hash text_preview predicted_topic lr_confidence lr_latency_ms
       ip_address user_agent model_version lr_cached].
  repeat split; try reflexivity.
  - destruct (200 <? _); [apply prefix_substring | apply prefix_refl].
  - destruct (Z.ltb_spec 200 (Z.of_nat (String.length text)));
      [apply prefix_substring | lia].
Qed.

End LogRows.

(** A confidence given as a numeric string is parsed and sent. *)
Lemma log_prediction_parses_a_string_confidence :
  @PostgresLogger.log_prediction Scenario.env Double.connected_logger
    Scenario.apple (PStr "TECH") (PStr "0.5") 12 None None "week4_bert_final"
    false Double.healthy
  = (Ok true,
     set_table
       [ mkLogRecord Scenario.apple Scenario.apple "TECH" (1 # 2) 12 None None
           "week4_bert_final" false ]
       (set_calls 1 Double.healthy)).
Proof. vm_compute. reflexivity. Qed.

(** ** Graceful degradation *)

Section DegradedStartup.
Context `{Externals}.

Lemma redis_connect_unreachable self w :
  Laws.unreachable (oracle w) ->
  RedisCache._connection_attempts self = 0 ->
  RedisCache._max_retry_attempts self = 3 ->
  exists self',
    RedisCache.connect self w
    = (Ok (false, self'),
       set_slept (slept w ++ [2; 4]) (set_calls (calls w + 3) w)).
Proof.
  intros Hun Ha Hm.
  assert (Htry : forall s w0, oracle w0 = oracle w ->
            exists e, RedisCache.connect_try s w0
                      = (Raise e, set_calls (S (calls w0)) w0)).
  { intros s w0 Ho. apply redis_connect_try_fails. rewrite Ho.
    destruct (Hun (calls w0) ReqRedisPing) as [E|[msg E]]; rewrite E; discriminate. }
  destruct (Htry self w eq_refl) as (e1 & E1).
  rewrite redis_connect_unfold, E1. cbn -[RedisCache.connect Z_lt_dec].
  rewrite Ha, Hm.
  destruct (Z_lt_dec _ _) as [_|Hc]; [|lia].
  match goal with
  | |- context [RedisCache.connect ?s ?w1] =>
      destruct (Htry s w1 eq_refl) as (e2 & E2);
      rewrite (redis_connect_unfold s w1), E2
  end.
  cbn -[RedisCache.connect Z_lt_dec]. rewrite Hm.
  destruct (Z_lt_dec _ _) as [_|Hc]; [|lia].
  match goal with
  | |- context [RedisCache.connect ?s ?w1] =>
      destruct (Htry s w1 eq_refl) as (e3 & E3);
      rewrite (redis_connect_unfold s w1), E3
  end.
  cbn -[RedisCache.connect Z_lt_dec]. rewrite Hm.
  destruct (Z_lt_dec _ _) as [Hc|_]; [lia|].
  eexists. f_equal. unfold set_slept, set_calls. cbn.
  rewrite <- app_assoc. f_equal. lia.
Qed.

Lemma pg_connect_try_unreachable self w :
  Laws.unreachable (oracle w) ->
  exists e, PostgresLogger.connect_try self w
            = (Raise e, self, set_calls (S (calls w)) w).
Proof.
  intros Hun. unfold PostgresLogger.connect_try, PostgresLogger.pg_command.
  py_unfold.
  destruct (Hun (calls w) ReqPgCreatePool) as [E|[msg E]]; rewrite E;
    eexists; reflexivity.
Qed.

Lemma pg_connect_unreachable self w :
  Laws.unreachable (oracle w) ->
  PostgresLogger._connection_attempts self = 0 ->
  PostgresLogger._max_retry_attempts self = 3 ->
  exists self',
    PostgresLogger.connect 3 self w
    = Some (Ok (false, self'),
            set_slept (slept w ++ [2; 4]) (set_calls (calls w + 3) w)).
Proof.
  intros Hun Ha Hm.
  cbn [PostgresLogger.connect].
  destruct (pg_connect_try_unreachable self w Hun) as (e1 & ->).
  cbn -[PostgresLogger.connect_try Z.ltb Z.pow]. rewrite Ha, Hm. cbn [Z.add Z.ltb Z.compare Pos.compare Pos.compare_cont].
  match goal with
  | |- context [PostgresLogger.connect_try ?s ?w1] =>
      destruct (pg_connect_try_unreachable s w1 Hun) as (e2 & ->)
  end.
  cbn -[PostgresLogger.connect_try Z.ltb Z.pow]. rewrite Hm.
  cbn [Z.add Z.ltb Z.compare Pos.compare Pos.compare_cont Pos.add Pos.succ].
  match goal with
  | |- context [PostgresLogger.connect_try ?s ?w1] =>
      destruct (pg_connect_try_unreachable s w1 Hun) as (e3 & ->)
  end.
  cbn -[PostgresLogger.connect_try Z.pow]. rewrite Hm. cbn.
  eexists. do 2 f_equal. unfold set_slept, set_calls. cbn.
  rewrite <- app_assoc. f_equal. lia.
Qed.

End DegradedStartup.

Section DegradedService.
Context `{Externals}.

(** Graceful degradation end to end: with the model loaded and no server
    reachable, [startup] returns after six attempts and sleeps of 2, 4, 2
    and 4 seconds with neither cache nor logger installed, and [predict]
    on these globals answers as the model does without a round trip and
    without creating a task. *)
Theorem startup_without_stores_serves_degraded
    env m ttl_ size port_ w request api_key w0 :
  Service.load_model env = Ok m ->
  Service.CACHE_TTL env = Ok ttl_ ->
  Service.REDIS_POOL_SIZE env = Ok size ->
  Service.POSTGRES_PORT env = Ok port_ ->
  Laws.unreachable (oracle w) ->
  Service.startup 3 env w
  = Some (Ok (Api.mkGlobals (Some m) None None (Service.API_KEY env)),
          set_slept (slept w ++ [2; 4; 2; 4]) (set_calls (calls w + 6) w)) /\
  Spec.answer
    (fst (Api.predict (Api.mkGlobals (Some m) None None (Service.API_KEY env))
            request api_key w0))
  = Spec.expected_answer (Api.mkGlobals (Some m) None None (Service.API_KEY env))
      m (Api.title request) api_key /\
  calls (snd (Api.predict (Api.mkGlobals (Some m) None None (Service.API_KEY env))
                request api_key w0)) = calls w0 /\
  tasks (snd (Api.predict (Api.mkGlobals (Some m) None None (Service.API_KEY env))
                request api_key w0)) = tasks w0.
Proof.
  intros Hm Httl Hsize Hport Hun. split.
  - unfold Service.startup. rewrite Hm.
    unfold Service.init_redis, try_except, bind, lift. rewrite Httl, Hsize.
    destruct (redis_connect_unreachable
                (RedisCache.init (Service.REDIS_URL env) ttl_ size) w Hun
                eq_refl eq_refl) as (rc & ->).
    cbn [fst snd]. unfold ret.
    unfold Service.init_postgres. rewrite Hport.
    match goal with
    | |- context [PostgresLogger.connect 3 ?s ?w1] =>
        destruct (pg_connect_unreachable s w1 Hun eq_refl eq_refl) as (pl & ->)
    end.
    do 2 f_equal. unfold set_slept, set_calls. cbn.
    rewrite <- app_assoc. f_equal. lia.
  - set (g := Api.mkGlobals (Some m) None None (Service.API_KEY env)).
    rewrite (predict_run g m request api_key w0 eq_refl).
    unfold Spec.expected_answer.
    destruct (Spec.key_rejected g api_key); [repeat split; reflexivity|].
    rewrite (try_cache_disconnected g request _ _ I).
    pose proof (from_model_answer g m request (clock w0 (reads w0)) false
                  (set_reads (S (reads w0)) w0)) as Ha.
    pose proof (from_model_disconnected g m request (clock w0 (reads w0)) false
                  (set_reads (S (reads w0)) w0) I) as (Hc & _ & _).
    assert (Ht : tasks (snd (Api.from_model g m request (clock w0 (reads w0)) false
                               (set_reads (S (reads w0)) w0))) = tasks w0).
    { unfold Api.from_model. py_unfold.
      destruct (BERT.predict m (Api.title request)) as [r|]; [|reflexivity].
      destruct (Api.prediction_result r) as [pr|] eqn:Er; [|reflexivity].
      unfold Api.prediction_result in Er.
      destruct (py_getitem r "topic") as [t|]; [|discriminate].
      destruct (py_getitem r "confidence") as [c|]; [|discriminate].
      destruct (py_getitem r "probabilities") as [p0|]; [|discriminate].
      cbn -[Api.make_response]. reflexivity. }
    rewrite <- Ha.
    destruct (Api.from_model g m request _ _ _) as [[r|e] w2]; cbn in *;
      repeat split; auto.
Qed.

End DegradedService.

Lemma startup_without_stores_serves_degraded_witness :
  Service.startup 3 Cases.environment Scenario.unreachable
  = Some (Ok Scenario.globals_degraded,
          set_slept (slept Scenario.unreachable ++ [2; 4; 2; 4])
                    (set_calls (calls Scenario.unreachable + 6)
                               Scenario.unreachable)) /\
  Spec.answer
    (fst (@Api.predict Scenario.env Scenario.globals_degraded
            (Api.mkRequest Scenario.apple true) None Double.healthy))
  = Spec.expected_answer Scenario.globals_degraded Double.classifier
      Scenario.apple None /\
  calls (snd (@Api.predict Scenario.env Scenario.globals_degraded
                (Api.mkRequest Scenario.apple true) None Double.healthy))
  = calls Double.healthy /\
  tasks (snd (@Api.predict Scenario.env Scenario.globals_degraded
                (Api.mkRequest Scenario.apple true) None Double.healthy))
  = tasks Double.healthy.
Proof.
  apply (@startup_without_stores_serves_degraded Scenario.env Cases.environment
           Double.classifier 3600 10 5432 Scenario.unreachable
           (Api.mkRequest Scenario.apple true) None Double.healthy);
    try reflexivity.
  intros n rq. right. eexists. reflexivity.
Defined.

(** ** Invariants of the batch metrics *)

Section ConfusionMatrix.

Lemma count_pairs_cons {A B} (f : A -> B -> bool) a b l1 l2 :
  Batch.count_pairs f (a :: l1) (b :: l2)
  = (if f a b then 1 else 0) + Batch.count_pairs f l1 l2.
Proof.
  unfold Batch.count_pairs. cbn [zip zip_with]. rewrite filter_cons.
  destruct (decide _) as [Hd|Hd]; cbn in Hd; destruct (f a b); cbn [length];
    try (exfalso; apply Hd; exact I); try (destruct Hd; fail); lia.
Qed.

Lemma count_pairs_nil_r {A B} (f : A -> B -> bool) l1 :
  Batch.count_pairs f l1 [] = 0.
Proof. unfold Batch.count_pairs. now destruct l1. Qed.

Lemma sum_Z_map_add {A} (f g : A -> Z) l :
  Laws.sum_Z (map (fun x => f x + g x) l)
  = Laws.sum_Z (map f l) + Laws.sum_Z (map g l).
Proof.
  unfold Laws.sum_Z. induction l as [|x l IH]; cbn; [reflexivity | rewrite IH; lia].
Qed.

Lemma sum_Z_map_zero {A} (l : list A) : Laws.sum_Z (map (fun _ => 0) l) = 0.
Proof.
  unfold Laws.sum_Z. induction l as [|x l IH]; cbn; [reflexivity | exact IH].
Qed.

Lemma sum_Z_map_ext {A} (f g : A -> Z) l :
  (forall x, x ∈ l -> f x = g x) -> Laws.sum_Z (map f l) = Laws.sum_Z (map g l).
Proof.
  unfold Laws.sum_Z. induction l as [|x l IH]; intros Hfg; cbn; [reflexivity|].
  rewrite (Hfg x) by apply list_elem_of_here.
  rewrite IH; [reflexivity|]. intros y Hy. apply Hfg. now apply list_elem_of_further.
Qed.

(** Summing over duplicate-free labels picks the one that matches. *)
Lemma sum_Z_pick (a : string) (g : string -> Z) L :
  NoDup L ->
  Laws.sum_Z (map (fun r => if String.eqb a r then g r else 0) L)
  = if bool_decide (a ∈ L) then g a else 0.
Proof.
  unfold Laws.sum_Z. induction 1 as [|r L Hnotin Hnd IH]; [reflexivity|].
  cbn [map fold_right]. rewrite IH. destruct (String.eqb_spec a r) as [->|Hne].
  - rewrite (bool_decide_eq_false_2 _ Hnotin).
    rewrite bool_decide_eq_true_2 by apply list_elem_of_here. lia.
  - destruct (bool_decide (a ∈ L)) eqn:E.
    + apply bool_decide_eq_true_1 in E.
      rewrite bool_decide_eq_true_2 by now apply list_elem_of_further. lia.
    + apply bool_decide_eq_false_1 in E.
      rewrite bool_decide_eq_false_2; [lia|].
      intros Hin. apply elem_of_cons in Hin as [?|?]; [congruence | contradiction].
Qed.

(** A row of the matrix sums to the number of samples of its class. *)
Lemma row_sum L r : NoDup L -> forall y_true y_pred,
  Forall (fun b => b ∈ L) y_pred ->
  Laws.sum_Z (map (fun c => Batch.count_pairs
                              (fun a b => String.eqb a r && String.eqb b c)
                              y_true y_pred) L)
  = Batch.count_pairs (fun a _ => String.eqb a r) y_true y_pred.
Proof.
  intros Hnd. induction y_true as [|a y_true IH]; intros [|b y_pred] Hb.
  - cbn. apply sum_Z_map_zero.
  - cbn. apply sum_Z_map_zero.
  - rewrite count_pairs_nil_r.
    rewrite (sum_Z_map_ext _ (fun _ => 0)); [apply sum_Z_map_zero|].
    intros c _. apply count_pairs_nil_r.
  - apply Forall_cons in Hb as [Hb Hbs].
    rewrite count_pairs_cons.
    rewrite (sum_Z_map_ext _
               (fun c => (if String.eqb b c then (if String.eqb a r then 1 else 0) else 0)
                         + Batch.count_pairs
                             (fun a b => String.eqb a r && String.eqb b c)
                             y_true y_pred)).
    + rewrite (sum_Z_map_add
                 (fun c => if String.eqb b c then (if String.eqb a r then 1 else 0) else 0)
                 (fun c => Batch.count_pairs
                             (fun a b => String.eqb a r && String.eqb b c)
                             y_true y_pred)).
      rewrite IH by exact Hbs.
      rewrite (sum_Z_pick b (fun _ => if String.eqb a r then 1 else 0)) by exact Hnd.
      now rewrite bool_decide_eq_true_2 by exact Hb.
    + intros c _. rewrite count_pairs_cons.
      destruct (String.eqb a r), (String.eqb b c); reflexivity.
Qed.

(** The rows together account for every pair. *)
Lemma rows_sum L : NoDup L -> forall y_true y_pred,
  Forall (fun a => a ∈ L) y_true ->
  Laws.sum_Z (map (fun r => Batch.count_pairs (fun a (_ : string) => String.eqb a r)
                              y_true y_pred) L)
  = Z.of_nat (length (zip y_true y_pred)).
Proof.
  intros Hnd. induction y_true as [|a y_true IH]; intros [|b y_pred] Ha.
  - cbn. apply sum_Z_map_zero.
  - cbn. apply sum_Z_map_zero.
  - cbn [zip zip_with length].
    rewrite (sum_Z_map_ext _ (fun _ => 0)); [apply sum_Z_map_zero|].
    intros c _. apply count_pairs_nil_r.
  - apply Forall_cons in Ha as [Ha Has].
    rewrite (sum_Z_map_ext _
               (fun r => (if String.eqb a r then 1 else 0)
                         + Batch.count_pairs (fun a (_ : string) => String.eqb a r)
                                             y_true y_pred)).
    + rewrite (sum_Z_map_add
                 (fun r => if String.eqb a r then 1 else 0)
                 (fun r => Batch.count_pairs (fun a (_ : string) => String.eqb a r)
                                             y_true y_pred)).
      rewrite IH by exact Has.
      rewrite (sum_Z_pick a (fun _ => 1)) by exact Hnd.
      rewrite bool_decide_eq_true_2 by exact Ha.
      cbn [zip zip_with length]. lia.
    + intros r _.
      exact (count_pairs_cons (fun a (_ : string) => String.eqb a r) a b y_true y_pred).
Qed.

(** The diagonal accounts for the pairs that agree. *)
Lemma diagonal_sum L : NoDup L -> forall y_true y_pred,
  Forall (fun a => a ∈ L) y_true ->
  Laws.sum_Z (map (fun r => Batch.count_pairs
                              (fun a b => String.eqb a r && String.eqb b r)
                              y_true y_pred) L)
  = Batch.count_pairs String.eqb y_true y_pred.
Proof.
  intros Hnd. induction y_true as [|a y_true IH]; intros [|b y_pred] Ha.
  - cbn. apply sum_Z_map_zero.
  - cbn. apply sum_Z_map_zero.
  - rewrite count_pairs_nil_r.
    rewrite (sum_Z_map_ext _ (fun _ => 0)); [apply sum_Z_map_zero|].
    intros c _. apply count_pairs_nil_r.
  - apply Forall_cons in Ha as [Ha Has].
    rewrite count_pairs_cons.
    rewrite (sum_Z_map_ext _
               (fun r => (if String.eqb a r then (if String.eqb b r then 1 else 0) else 0)
                         + Batch.count_pairs
                             (fun a b => String.eqb a r && String.eqb b r)
                             y_true y_pred)).
    + rewrite (sum_Z_map_add
                 (fun r => if String.eqb a r then (if String.eqb b r then 1 else 0) else 0)
                 (fun r => Batch.count_pairs
                             (fun a b => String.eqb a r && String.eqb b r)
                             y_true y_pred)).
      rewrite IH by exact Has.
      rewrite (sum_Z_pick a (fun r => if String.eqb b r then 1 else 0)) by exact Hnd.
      rewrite bool_decide_eq_true_2 by exact Ha.
      rewrite (String.eqb_sym b a). reflexivity.
    + intros r _. rewrite count_pairs_cons.
      destruct (String.eqb a r), (String.eqb b r); reflexivity.
Qed.

Lemma diagonal_of_table {A} (F : A -> A -> Z) (L : list A) : forall pre L',
  L = (pre ++ L')%list ->
  imap (fun i row => default 0 (row !! (length pre + i)%nat))
       (map (fun r => map (F r) L) L')
  = map (fun r => F r r) L'.
Proof.
  intros pre L'. revert pre. induction L' as [|r L' IH]; intros pre HL; [reflexivity|].
  cbn [map imap]. f_equal.
  - rewrite Nat.add_0_r. change (map (F r) L) with (F r <$> L).
    rewrite list_lookup_fmap, HL, list_lookup_middle by reflexivity. reflexivity.
  - specialize (IH (pre ++ [r])%list).
    rewrite <- IH by (rewrite <- app_assoc; exact HL).
    apply imap_ext. intros i row _. cbn.
    rewrite length_app. cbn. do 2 f_equal. lia.
Qed.

(** The support of a class is the number of its samples. *)
Lemma support_counts cls : forall y_true y_pred : list string,
  length y_true = length y_pred ->
  fold_right Z.add 0 (Batch.indicator cls y_true)
  = Batch.count_pairs (fun a (_ : string) => String.eqb a cls) y_true y_pred.
Proof.
  induction y_true as [|a y_true IH]; intros [|b y_pred] Hlen; try discriminate.
  - reflexivity.
  - rewrite count_pairs_cons. cbn [Batch.indicator map fold_right].
    fold (Batch.indicator cls y_true). rewrite (IH y_pred) by (cbn in Hlen; lia).
    reflexivity.
Qed.

(** [sorted(set(l))]: strictly increasing, with the elements of [l]. *)
Lemma insert_sorted_elem x y l :
  y ∈ Batch.insert_sorted x l <-> y = x \/ y ∈ l.
Proof.
  induction l as [|z l IH]; cbn.
  - rewrite list_elem_of_singleton. split; [auto | intros [?|H]; [auto | inversion H]].
  - destruct (String.compare x z) eqn:E.
    + apply OrderedTypeEx.String_as_OT.cmp_eq in E. subst z.
      rewrite elem_of_cons. tauto.
    + rewrite !elem_of_cons. tauto.
    + rewrite !elem_of_cons, IH. tauto.
Qed.

Lemma insert_sorted_sorted x l :
  StronglySorted OrderedTypeEx.String_as_OT.lt l ->
  StronglySorted OrderedTypeEx.String_as_OT.lt (Batch.insert_sorted x l).
Proof.
  induction 1 as [|z l Hs IH Hz]; cbn; [repeat constructor|].
  destruct (String.compare x z) eqn:E.
  - now constructor.
  - apply OrderedTypeEx.String_as_OT.cmp_lt in E.
    constructor; [now constructor|].
    constructor; [exact E|].
    eapply Forall_impl; [exact Hz|]. cbn. intros y Hy.
    eapply OrderedTypeEx.String_as_OT.lt_trans; eassumption.
  - assert (OrderedTypeEx.String_as_OT.lt z x) as Hlt.
    { apply OrderedTypeEx.String_as_OT.cmp_lt.
      unfold OrderedTypeEx.String_as_OT.cmp.
      rewrite OrderedTypeEx.String_as_OT.cmp_antisym.
      unfold OrderedTypeEx.String_as_OT.cmp. now rewrite E. }
    constructor; [exact IH|].
    apply Forall_forall. intros y Hy. apply insert_sorted_elem in Hy as [->|Hy];
      [exact Hlt|]. rewrite Forall_forall in Hz. now apply Hz.
Qed.

Lemma sorted_set_elem x l : x ∈ Batch.sorted_set l <-> x ∈ l.
Proof.
  induction l as [|y l IH]; cbn; [reflexivity|].
  rewrite insert_sorted_elem, elem_of_cons, IH. reflexivity.
Qed.

Lemma sorted_set_sorted l :
  StronglySorted OrderedTypeEx.String_as_OT.lt (Batch.sorted_set l).
Proof.
  induction l as [|y l IH]; cbn; [constructor|]. now apply insert_sorted_sorted.
Qed.

Lemma sorted_set_nodup l : NoDup (Batch.sorted_set l).
Proof.
  pose proof (sorted_set_sorted l) as Hs.
  induction Hs as [|z s Hs IH Hz]; constructor; [|exact IH].
  intros Hin. rewrite Forall_forall in Hz.
  exact (OrderedTypeEx.String_as_OT.lt_not_eq _ _ (Hz _ Hin) eq_refl).
Qed.

Lemma calculate_metrics_ok y_true y_pred m :
  Batch.calculate_metrics y_true y_pred = Batch.MOk m ->
  length y_true = length y_pred /\
  m = Batch.mkMetrics
        (Batch.mkOverall (Batch.accuracy_score y_true y_pred)
                         (Batch.macro Batch.precision_score y_true y_pred)
                         (Batch.macro Batch.recall_score y_true y_pred)
                         (Batch.macro Batch.f1_score y_true y_pred)
                         (Z.of_nat (length y_true))
                         (Batch.count_pairs String.eqb y_true y_pred))
        (map (Batch.class_metrics y_true y_pred)
             (Batch.sorted_set (y_true ++ y_pred)))
        (Batch.sorted_set (y_true ++ y_pred))
        (Batch.confusion_matrix y_true y_pred
           (Batch.sorted_set (y_true ++ y_pred))).
Proof.
  intros Hc. unfold Batch.calculate_metrics in Hc.
  destruct y_true as [|a0 yt]; [discriminate|].
  destruct y_pred as [|b0 yp]; [discriminate|].
  destruct (negb _) eqn:Hlen; [discriminate|].
  apply negb_false_iff, Nat.eqb_eq in Hlen.
  injection Hc as <-. split; [exact Hlen | reflexivity].
Qed.

End ConfusionMatrix.

(** The confusion matrix of [calculate_metrics] accounts for every
    sample: its labels are duplicate-free and are exactly the labels that
    occur, its cells sum to [total_samples], its diagonal to
    [correct_predictions], and each row to the support of its class. *)
Theorem confusion_matrix_accounts_for_every_sample y_true y_pred m :
  Batch.calculate_metrics y_true y_pred = Batch.MOk m ->
  NoDup (Batch.cm_labels m) /\
  (forall x, x ∈ Batch.cm_labels m <-> x ∈ y_true \/ x ∈ y_pred) /\
  Laws.cells (Batch.cm_matrix m) = Batch.total_samples (Batch.overall m) /\
  Laws.trace (Batch.cm_matrix m) = Batch.correct_predictions (Batch.overall m) /\
  map Laws.sum_Z (Batch.cm_matrix m)
  = map (fun kv => Batch.support (snd kv)) (Batch.per_class m) /\
  Batch.total_samples (Batch.overall m) = Z.of_nat (length y_true).
Proof.
  intros Hc. apply calculate_metrics_ok in Hc as [Hlen ->].
  cbn [Batch.cm_labels Batch.cm_matrix Batch.overall Batch.per_class
       Batch.total_samples Batch.correct_predictions].
  set (L := Batch.sorted_set (y_true ++ y_pred)).
  assert (Hnd : NoDup L) by apply sorted_set_nodup.
  assert (Hel : forall x, x ∈ L <-> x ∈ y_true \/ x ∈ y_pred).
  { intros x. unfold L. rewrite sorted_set_elem. apply elem_of_app. }
  assert (Ht : Forall (fun a => a ∈ L) y_true).
  { apply Forall_forall. intros x Hx. apply Hel. now left. }
  assert (Hp : Forall (fun a => a ∈ L) y_pred).
  { apply Forall_forall. intros x Hx. apply Hel. now right. }
  assert (Hrows : map Laws.sum_Z (Batch.confusion_matrix y_true y_pred L)
                  = map (fun r => Batch.count_pairs
                                    (fun a (_ : string) => String.eqb a r)
                                    y_true y_pred) L).
  { unfold Batch.confusion_matrix. rewrite map_map.
    apply map_ext. intros r. now apply row_sum. }
  repeat split.
  - exact Hnd.
  - apply Hel.
  - apply Hel.
  - unfold Laws.cells. rewrite Hrows, rows_sum by assumption.
    rewrite length_zip_with_l_eq by exact Hlen. reflexivity.
  - unfold Laws.trace, Batch.confusion_matrix.
    pose proof (diagonal_of_table
                  (fun r c => Batch.count_pairs
                                (fun a b => String.eqb a r && String.eqb b c)
                                y_true y_pred) L [] L eq_refl) as Hd.
    cbn [length Nat.add] in Hd. rewrite Hd.
    now apply diagonal_sum.
  - rewrite Hrows, map_map. apply map_ext. intros r.
    cbn [Batch.class_metrics snd Batch.support].
    symmetry. now apply support_counts.
Qed.

Lemma confusion_matrix_accounts_for_every_sample_witness :
  exists m,
    Batch.calculate_metrics Scenario.truth Scenario.predicted = Batch.MOk m /\
    NoDup (Batch.cm_labels m) /\
    (forall x, x ∈ Batch.cm_labels m <-> x ∈ Scenario.truth \/ x ∈ Scenario.predicted) /\
    Laws.cells (Batch.cm_matrix m) = Batch.total_samples (Batch.overall m) /\
    Laws.trace (Batch.cm_matrix m) = Batch.correct_predictions (Batch.overall m) /\
    map Laws.sum_Z (Batch.cm_matrix m)
    = map (fun kv => Batch.support (snd kv)) (Batch.per_class m) /\
    Batch.total_samples (Batch.overall m) = Z.of_nat (length Scenario.truth).
Proof.
  eexists. split; [vm_compute; reflexivity |].
  apply (confusion_matrix_accounts_for_every_sample Scenario.truth Scenario.predicted).
  vm_compute. reflexivity.
Defined.

Section Rates.

Lemma count_pairs_bounds {A B} (f : A -> B -> bool) l1 l2 :
  0 <= Batch.count_pairs f l1 l2 <= Z.of_nat (length l1).
Proof.
  unfold Batch.count_pairs. split; [lia|].
  apply inj_le. etransitivity; [apply length_filter|].
  rewrite length_zip_with. lia.
Qed.

Lemma ratio_rate num den : 0 <= num <= den -> Laws.rate (Batch.ratio num den).
Proof.
  intros Hn. unfold Batch.ratio, Laws.rate.
  destruct (Z.eqb_spec den 0) as [->|Hne].
  - split; [apply Qle_refl | discriminate].
  - rewrite !Qred_correct. unfold Qle. cbn.
    rewrite Z2Pos.id by lia. lia.
Qed.

Lemma precision_rate t p : Laws.rate (Batch.precision_score t p).
Proof.
  apply ratio_rate. unfold Batch.true_pos, Batch.false_pos.
  pose proof (count_pairs_bounds (fun a b => (a =? 1) && (b =? 1)) t p).
  pose proof (count_pairs_bounds (fun a b => negb (a =? 1) && (b =? 1)) t p).
  lia.
Qed.

Lemma recall_rate t p : Laws.rate (Batch.recall_score t p).
Proof.
  apply ratio_rate. unfold Batch.true_pos, Batch.false_neg.
  pose proof (count_pairs_bounds (fun a b => (a =? 1) && (b =? 1)) t p).
  pose proof (count_pairs_bounds (fun a b => (a =? 1) && negb (b =? 1)) t p).
  lia.
Qed.

Lemma f1_rate t p : Laws.rate (Batch.f1_score t p).
Proof.
  apply ratio_rate. unfold Batch.true_pos, Batch.false_pos, Batch.false_neg.
  pose proof (count_pairs_bounds (fun a b => (a =? 1) && (b =? 1)) t p).
  pose proof (count_pairs_bounds (fun a b => negb (a =? 1) && (b =? 1)) t p).
  pose proof (count_pairs_bounds (fun a b => (a =? 1) && negb (b =? 1)) t p).
  lia.
Qed.

Lemma sum_rates l :
  Forall Laws.rate l ->
  (0 <= fold_right Qplus 0 l)%Q /\
  (fold_right Qplus 0 l <= inject_Z (Z.of_nat (length l)))%Q.
Proof.
  induction 1 as [|x l [Hx0 Hx1] _ [IH0 IH1]]; cbn [fold_right length].
  - split; apply Qle_refl.
  - split.
    + replace 0%Q with (0 + 0)%Q by reflexivity. now apply Qplus_le_compat.
    + rewrite Nat2Z.inj_succ, <- Z.add_1_l, inject_Z_plus.
      now apply Qplus_le_compat.
Qed.

Lemma mean_rate l : Forall Laws.rate l -> Laws.rate (Batch.mean l).
Proof.
  intros Hl. unfold Batch.mean. destruct l as [|x l].
  - split; [apply Qle_refl | discriminate].
  - destruct (sum_rates _ Hl) as [H0 H1].
    set (s := fold_right Qplus 0%Q (x :: l)) in *.
    set (n := inject_Z (Z.of_nat (length (x :: l)))) in *.
    assert (Hn : (0 < n)%Q).
    { unfold n, Qlt. cbn. lia. }
    unfold Laws.rate. rewrite !Qred_correct. split.
    + apply Qle_shift_div_l; [exact Hn|]. now rewrite Qmult_0_l.
    + apply Qle_shift_div_r; [exact Hn|]. now rewrite Qmult_1_l.
Qed.

Lemma macro_rate score y_true y_pred :
  (forall t p, Laws.rate (score t p)) ->
  Laws.rate (Batch.macro score y_true y_pred).
Proof.
  intros Hs. unfold Batch.macro. apply mean_rate.
  apply Forall_forall. intros q Hq.
  apply list_elem_of_fmap in Hq as (cls & -> & _). apply Hs.
Qed.

End Rates.

(** Every score [calculate_metrics] reports lies between 0 and 1:
    accuracy, the macro averages and the per-class precision, recall and
    F1; a support lies between 0 and the number of samples. *)
Theorem metrics_lie_between_zero_and_one y_true y_pred m :
  Batch.calculate_metrics y_true y_pred = Batch.MOk m ->
  Laws.rate (Batch.accuracy (Batch.overall m)) /\
  Laws.rate (Batch.precision_macro (Batch.overall m)) /\
  Laws.rate (Batch.recall_macro (Batch.overall m)) /\
  Laws.rate (Batch.f1_macro (Batch.overall m)) /\
  Forall (fun kv => Laws.rate (Batch.precision (snd kv)) /\
                    Laws.rate (Batch.recall (snd kv)) /\
                    Laws.rate (Batch.f1 (snd kv)) /\
                    0 <= Batch.support (snd kv) <= Batch.total_samples (Batch.overall m))
         (Batch.per_class m).
Proof.
  intros Hc. apply calculate_metrics_ok in Hc as [Hlen ->].
  cbn [Batch.overall Batch.per_class Batch.accuracy Batch.precision_macro
       Batch.recall_macro Batch.f1_macro Batch.total_samples].
  split; [|split; [|split; [|split]]].
  - unfold Batch.accuracy_score. apply ratio_rate. apply count_pairs_bounds.
  - apply macro_rate, precision_rate.
  - apply macro_rate, recall_rate.
  - apply macro_rate, f1_rate.
  - apply Forall_forall. intros kv Hkv.
    apply list_elem_of_fmap in Hkv as (cls & -> & _).
    cbn [Batch.class_metrics snd Batch.precision Batch.recall Batch.f1 Batch.support].
    split; [apply precision_rate|]. split; [apply recall_rate|].
    split; [apply f1_rate|].
    rewrite (support_counts cls y_true y_pred Hlen). apply count_pairs_bounds.
Qed.

Lemma metrics_lie_between_zero_and_one_witness :
  exists m,
    Batch.calculate_metrics Scenario.truth Scenario.predicted = Batch.MOk m /\
    Laws.rate (Batch.accuracy (Batch.overall m)) /\
    Laws.rate (Batch.precision_macro (Batch.overall m)) /\
    Laws.rate (Batch.recall_macro (Batch.overall m)) /\
    Laws.rate (Batch.f1_macro (Batch.overall m)) /\
    Forall (fun kv => Laws.rate (Batch.precision (snd kv)) /\
                      Laws.rate (Batch.recall (snd kv)) /\
                      Laws.rate (Batch.f1 (snd kv)) /\
                      0 <= Batch.support (snd kv)
                        <= Batch.total_samples (Batch.overall m))
           (Batch.per_class m).
Proof.
  eexists. split; [vm_compute; reflexivity |].
  apply (metrics_lie_between_zero_and_one Scenario.truth Scenario.predicted).
  vm_compute. reflexivity.
Defined.

Section Perfect.

Lemma ratio_one n : 0 < n -> Batch.ratio n n = 1%Q.
Proof.
  intros Hn. unfold Batch.ratio. destruct (Z.eqb_spec n 0); [lia|].
  change 1%Q with (Qred 1). apply Qred_complete.
  unfold Qeq. cbn. rewrite Z2Pos.id by lia. lia.
Qed.

Lemma count_pairs_diag {A} (f : A -> A -> bool) (g : A -> bool) l :
  (forall a, f a a = g a) ->
  Batch.count_pairs f l l = Batch.count_pairs (fun a _ => g a) l l.
Proof.
  intros Hfg. induction l as [|a l IH]; [reflexivity|].
  rewrite !count_pairs_cons, IH, Hfg. reflexivity.
Qed.

Lemma count_pairs_all {A} (l : list A) :
  Batch.count_pairs (fun _ _ => true) l l = Z.of_nat (length l).
Proof.
  induction l as [|a l IH]; [reflexivity|].
  rewrite count_pairs_cons, IH. cbn [length]. lia.
Qed.

Lemma count_pairs_never {A} (l : list A) :
  Batch.count_pairs (fun _ _ => false) l l = 0.
Proof.
  induction l as [|a l IH]; [reflexivity|].
  rewrite count_pairs_cons, IH. reflexivity.
Qed.

Lemma count_positive {A} (g : A -> bool) l x :
  x ∈ l -> g x = true -> 0 < Batch.count_pairs (fun a _ => g a) l l.
Proof.
  induction l as [|a l IH]; intros Hin Hg; [inversion Hin|].
  rewrite count_pairs_cons.
  pose proof (count_pairs_bounds (fun a (_ : A) => g a) l l).
  apply elem_of_cons in Hin as [<-|Hin].
  - rewrite Hg. lia.
  - specialize (IH Hin Hg). destruct (g a); lia.
Qed.

Lemma mean_ones l : l <> [] -> Forall (fun q => q = 1%Q) l -> Batch.mean l = 1%Q.
Proof.
  intros Hne Hl. unfold Batch.mean. destruct l as [|x l]; [congruence|].
  change 1%Q with (Qred 1). apply Qred_complete.
  assert (Hs : forall l', Forall (fun q => q = 1%Q) l' ->
                 (fold_right Qplus 0%Q l' == inject_Z (Z.of_nat (length l')))%Q).
  { induction 1 as [|y l' -> _ IH]; cbn [fold_right length]; [reflexivity|].
    rewrite IH, Nat2Z.inj_succ, <- Z.add_1_l, inject_Z_plus. reflexivity. }
  rewrite (Hs _ Hl). unfold Qdiv. apply Qmult_inv_r.
  intros E. unfold Qeq in E. cbn in E. lia.
Qed.

End Perfect.

(** Predictions equal to the ground truth score 1 everywhere: accuracy,
    macro averages, and precision, recall and F1 of every class. *)
Theorem perfect_predictions_score_one y :
  y <> [] ->
  exists m,
    Batch.calculate_metrics y y = Batch.MOk m /\
    Batch.accuracy (Batch.overall m) = 1%Q /\
    Batch.precision_macro (Batch.overall m) = 1%Q /\
    Batch.recall_macro (Batch.overall m) = 1%Q /\
    Batch.f1_macro (Batch.overall m) = 1%Q /\
    Forall (fun kv => Batch.precision (snd kv) = 1%Q /\
                      Batch.recall (snd kv) = 1%Q /\
                      Batch.f1 (snd kv) = 1%Q)
           (Batch.per_class m).
Proof.
  intros Hne.
  destruct (calculate_metrics_total y y Hne eq_refl) as (m & Hm).
  exists m. split; [exact Hm|].
  apply calculate_metrics_ok in Hm as [_ ->].
  cbn [Batch.overall Batch.per_class Batch.accuracy Batch.precision_macro
       Batch.recall_macro Batch.f1_macro].
  assert (Hcls : forall cls, cls ∈ Batch.sorted_set (y ++ y) ->
            Batch.precision_score (Batch.indicator cls y) (Batch.indicator cls y) = 1%Q /\
            Batch.recall_score (Batch.indicator cls y) (Batch.indicator cls y) = 1%Q /\
            Batch.f1_score (Batch.indicator cls y) (Batch.indicator cls y) = 1%Q).
  { intros cls Hin. apply (proj1 (sorted_set_elem _ _)) in Hin.
    assert (Hy : cls ∈ y) by (apply elem_of_app in Hin; tauto).
    set (t := Batch.indicator cls y).
    assert (Htp : 0 < Batch.true_pos t t).
    { unfold Batch.true_pos.
      rewrite (count_pairs_diag _ (fun a => a =? 1)) by (intros a; apply andb_diag).
      apply (count_positive _ _ 1); [|reflexivity].
      unfold t, Batch.indicator. apply list_elem_of_fmap.
      exists cls. split; [now rewrite String.eqb_refl | exact Hy]. }
    assert (Hfp : Batch.false_pos t t = 0).
    { unfold Batch.false_pos.
      rewrite (count_pairs_diag _ (fun _ => false)) by (intros a; apply andb_negb_l).
      apply count_pairs_never. }
    assert (Hfn : Batch.false_neg t t = 0).
    { unfold Batch.false_neg.
      rewrite (count_pairs_diag _ (fun _ => false)) by (intros a; apply andb_negb_r).
      apply count_pairs_never. }
    unfold Batch.precision_score, Batch.recall_score, Batch.f1_score.
    rewrite Hfp, Hfn, !Z.add_0_r. repeat split; apply ratio_one; lia. }
  assert (Hmacro : forall score,
            (forall cls, cls ∈ Batch.sorted_set (y ++ y) ->
               score (Batch.indicator cls y) (Batch.indicator cls y) = 1%Q) ->
            Batch.macro score y y = 1%Q).
  { intros score Hs. unfold Batch.macro. apply mean_ones.
    - destruct y as [|a y']; [congruence|]. intros E.
      apply (f_equal length) in E. rewrite length_map in E.
      assert (a ∈ Batch.sorted_set ((a :: y') ++ a :: y')) as Hin
        by (apply sorted_set_elem; apply list_elem_of_here).
      destruct (Batch.sorted_set _); [inversion Hin | discriminate].
    - apply Forall_forall. intros q Hq.
      apply list_elem_of_fmap in Hq as (cls & -> & Hin). now apply Hs. }
  split; [|split; [|split; [|split]]].
  - unfold Batch.accuracy_score.
    rewrite (count_pairs_diag _ (fun _ => true)) by (intros a; apply String.eqb_refl).
    rewrite count_pairs_all. apply ratio_one.
    destruct y; [congruence | cbn [length]; lia].
  - apply Hmacro. intros cls Hin. now apply Hcls.
  - apply Hmacro. intros cls Hin. now apply Hcls.
  - apply Hmacro. intros cls Hin. now apply Hcls.
  - apply Forall_forall. intros kv Hkv.
    apply list_elem_of_fmap in Hkv as (cls & -> & Hin).
    cbn [Batch.class_metrics snd Batch.precision Batch.recall Batch.f1].
    now apply Hcls.
Qed.

Lemma perfect_predictions_score_one_witness :
  exists m,
    Batch.calculate_metrics Scenario.truth Scenario.truth = Batch.MOk m /\
    Batch.accuracy (Batch.overall m) = 1%Q /\
    Batch.precision_macro (Batch.overall m) = 1%Q /\
    Batch.recall_macro (Batch.overall m) = 1%Q /\
    Batch.f1_macro (Batch.overall m) = 1%Q /\
    Forall (fun kv => Batch.precision (snd kv) = 1%Q /\
                      Batch.recall (snd kv) = 1%Q /\
                      Batch.f1 (snd kv) = 1%Q)
           (Batch.per_class m).
Proof.
  apply (perfect_predictions_score_one Scenario.truth). discriminate.
Defined.
